(** * Classical Concepts 2 Trainer: the round engine of [internal/game/game.go]

    A shallow embedding of the later revision of the [game] package (the one
    with objectives, [End] and [EndState]) and the properties of its
    end-of-round resolution, its countdown and its pointer handling.

    Conventions of the embedding:
    - Go [int] values are [Z]; every index the program computes is far from
      the 64-bit limits, so no wrap-around can occur.
    - Go [float32] values are the rationals they denote ([Q], kept reduced);
      every arithmetic operation is followed by rounding to binary32.
    - the array [board [NUM_ROWS][NUM_COLS]tile] is a total map from a row
      and a column to a tile; the loops of the program visit the cells
      [0 <= r < g.rows], [0 <= c < g.cols] in row-major order.
    - fonts, images, the drawing surface and the cursor shape are left out:
      no function below reads them. *)

From Stdlib Require Import ZArith QArith Qround Qabs List Bool Lia.
Import ListNotations.

Open Scope Z_scope.

(** ** binary32 arithmetic on the rationals *)

Module F32.

Definition float32 := Q.

(** [2^e] for any integer exponent. *)
Definition pow2 (e : Z) : Q :=
  if 0 <=? e then inject_Z (2 ^ e) else 1 # Z.to_pos (2 ^ (- e)).

(** The integer nearest to [q], ties to even. *)
Definition nearest_even (q : Q) : Z :=
  let f := Qfloor q in
  match Qcompare (q - inject_Z f) (1 # 2) with
  | Lt => f
  | Gt => f + 1
  | Eq => if Z.even f then f else f + 1
  end.

(** [floor (log2 |q|)] for [q <> 0]. *)
Definition ilog2 (q : Q) : Z :=
  let k := Z.log2 (Z.abs (Qnum q)) - Z.log2 (Zpos (Qden q)) in
  if Qle_bool (pow2 k) (Qabs q) then k else k - 1.

(** Round to nearest, ties to even, with a 24-bit significand and the
    smallest exponent of binary32.  The magnitudes of this program (pixel
    coordinates, seconds, milliseconds in an [int64]) are far below the
    overflow threshold, so no infinity arises. *)
Definition round (q : Q) : float32 :=
  if Qeq_bool q 0 then 0%Q
  else
    let e := Z.max (ilog2 q - 23) (-149) in
    Qred (inject_Z (nearest_even (q / pow2 e)) * pow2 e).

Definition of_int (n : Z) : float32 := round (inject_Z n).
Definition add (a b : float32) : float32 := round (a + b).
Definition sub (a b : float32) : float32 := round (a - b).
Definition div (a b : float32) : float32 := round (a / b).

Definition ltb (a b : float32) : bool := negb (Qle_bool b a).
Definition leb (a b : float32) : bool := Qle_bool a b.
Definition gtb (a b : float32) : bool := ltb b a.

End F32.

Definition float32 : Type := F32.float32.

(** ** Constants and data model *)

Definition WIDTH : Z := 1920.
Definition HEIGHT : Z := 1080.
Definition BUTTON_WIDTH : Z := 300.
Definition BUTTON_HEIGHT : Z := 100.
Definition NUM_ROWS : Z := 5.
Definition NUM_COLS : Z := 7.
Definition TITLE_RADIUS : Z := 60.
Definition MAX_TIME : Z := 15.

(** [type TileState int]: [EmptyTile] is the zero value, [InvalidTile] is -1. *)
Inductive TileState : Type :=
| EmptyTile
| AlphaTile
| BetaTile
| CenterTile
| MouseOverTile
| PlayerTile
| InvalidTile.

Definition TileState_eqb (a b : TileState) : bool :=
  match a, b with
  | EmptyTile, EmptyTile | AlphaTile, AlphaTile | BetaTile, BetaTile
  | CenterTile, CenterTile | MouseOverTile, MouseOverTile
  | PlayerTile, PlayerTile | InvalidTile, InvalidTile => true
  | _, _ => false
  end.

(** The conversion [TileState(n)] on the values that have a name; the
    program only converts [rand.Intn(2) + 1], which is 1 or 2. *)
Definition TileState_of_int (n : Z) : TileState :=
  match n with
  | 1 => AlphaTile
  | 2 => BetaTile
  | 3 => CenterTile
  | 4 => MouseOverTile
  | 5 => PlayerTile
  | -1 => InvalidTile
  | _ => EmptyTile
  end.

(** [currentState == AlphaTile || currentState == BetaTile || currentState == CenterTile] *)
Definition is_symbol (s : TileState) : bool :=
  match s with
  | AlphaTile | BetaTile | CenterTile => true
  | _ => false
  end.

Inductive GameState : Type :=
| StandByState
| PlayingState
| EndState.

Record tile : Type := mkTile {
  state : TileState;
  x : float32;
  y : float32;
  rotation : float32
}.

Record BoardPosition : Type := mkPos {
  row : Z;
  column : Z
}.

(** The zero value [BoardPosition{}]. *)
Definition zeroPosition : BoardPosition := mkPos 0 0.

(** The two colours [buttonColor] takes. *)
Inductive buttonPaint : Type :=
| green
| darkGreen.

Definition boardArray : Type := Z -> Z -> tile.

(** The fields of [game] that the update path reads or writes.  The field
    [state] of the source is [gameState] here, [lastUpdateTime] is replaced
    by the elapsed milliseconds each tick supplies. *)
Record game : Type := mkGame {
  rows : Z;
  cols : Z;
  board : boardArray;
  gameState : GameState;
  buttonX : float32;
  buttonY : float32;
  buttonColor : buttonPaint;
  timeLeft : float32;
  symbolObjective : TileState;
  columnObjective : Z;
  centerSymbolPosition : BoardPosition;
  objectiveSymbolPosition : BoardPosition;
  win : bool
}.

(** What one frame reads from the outside: the clock, the cursor, the left
    button, and the two draws [rand.Intn(2)] and [rand.Intn(4)] that a
    [Reset] in this frame would make. *)
Record tick : Type := mkTick {
  elapsedMillis : Z;
  cursorX : Z;
  cursorY : Z;
  pressed : bool;
  randSymbol : Z;
  randColumn : Z
}.

(** *** Assignments to single fields *)

Definition set_board (g : game) (b : boardArray) : game :=
  mkGame (rows g) (cols g) b (gameState g) (buttonX g) (buttonY g)
         (buttonColor g) (timeLeft g) (symbolObjective g) (columnObjective g)
         (centerSymbolPosition g) (objectiveSymbolPosition g) (win g).

Definition set_gameState (g : game) (s : GameState) : game :=
  mkGame (rows g) (cols g) (board g) s (buttonX g) (buttonY g)
         (buttonColor g) (timeLeft g) (symbolObjective g) (columnObjective g)
         (centerSymbolPosition g) (objectiveSymbolPosition g) (win g).

Definition set_buttonColor (g : game) (p : buttonPaint) : game :=
  mkGame (rows g) (cols g) (board g) (gameState g) (buttonX g) (buttonY g)
         p (timeLeft g) (symbolObjective g) (columnObjective g)
         (centerSymbolPosition g) (objectiveSymbolPosition g) (win g).

Definition set_timeLeft (g : game) (t : float32) : game :=
  mkGame (rows g) (cols g) (board g) (gameState g) (buttonX g) (buttonY g)
         (buttonColor g) t (symbolObjective g) (columnObjective g)
         (centerSymbolPosition g) (objectiveSymbolPosition g) (win g).

Definition set_objective (g : game) (s : TileState) (c : Z) : game :=
  mkGame (rows g) (cols g) (board g) (gameState g) (buttonX g) (buttonY g)
         (buttonColor g) (timeLeft g) s c
         (centerSymbolPosition g) (objectiveSymbolPosition g) (win g).

Definition set_centerSymbolPosition (g : game) (p : BoardPosition) : game :=
  mkGame (rows g) (cols g) (board g) (gameState g) (buttonX g) (buttonY g)
         (buttonColor g) (timeLeft g) (symbolObjective g) (columnObjective g)
         p (objectiveSymbolPosition g) (win g).

Definition set_objectiveSymbolPosition (g : game) (p : BoardPosition) : game :=
  mkGame (rows g) (cols g) (board g) (gameState g) (buttonX g) (buttonY g)
         (buttonColor g) (timeLeft g) (symbolObjective g) (columnObjective g)
         (centerSymbolPosition g) p (win g).

Definition set_win (g : game) (w : bool) : game :=
  mkGame (rows g) (cols g) (board g) (gameState g) (buttonX g) (buttonY g)
         (buttonColor g) (timeLeft g) (symbolObjective g) (columnObjective g)
         (centerSymbolPosition g) (objectiveSymbolPosition g) w.

(** [b[r][c] = t] *)
Definition set_tile (b : boardArray) (r c : Z) (t : tile) : boardArray :=
  fun r' c' => if (r' =? r) && (c' =? c) then t else b r' c'.

(** [b[r][c].state = s] *)
Definition set_tile_state (b : boardArray) (r c : Z) (s : TileState) : boardArray :=
  set_tile b r c (mkTile s (x (b r c)) (y (b r c)) (rotation (b r c))).

(** *** The loops [for i := 0; i < n; i++] *)

Definition range (n : Z) : list Z := map Z.of_nat (seq 0 (Z.to_nat n)).

(** The cells in the order of
    [for r := 0; r < rows; r++ { for c := 0; c < cols; c++ { ... } }]. *)
Definition cells (nrows ncols : Z) : list (Z * Z) :=
  list_prod (range nrows) (range ncols).

Definition board_cells (g : game) : list (Z * Z) := cells (rows g) (cols g).

(** ** Operations of [game] *)

(** [ShapeHit]: the open square of half-side [TITLE_RADIUS * 1.25] around a
    tile's pixel position. *)
Definition ShapeHit (shapeX shapeY pointX pointY : float32) : bool :=
  let adjustRadius : float32 := 75%Q in
  F32.gtb pointX (F32.sub shapeX adjustRadius)
  && F32.ltb pointX (F32.add shapeX adjustRadius)
  && F32.gtb pointY (F32.sub shapeY adjustRadius)
  && F32.ltb pointY (F32.add shapeY adjustRadius).

Definition ButtonHit (g : game) (px py : float32) : bool :=
  F32.gtb px (buttonX g)
  && F32.ltb px (F32.add (buttonX g) (inject_Z BUTTON_WIDTH))
  && F32.gtb py (buttonY g)
  && F32.ltb py (F32.add (buttonY g) (inject_Z BUTTON_HEIGHT)).

(** [RemoveTileWithState]: every cell in state [st] becomes [EmptyTile];
    only the field [state] is assigned. *)
Definition RemoveTileWithState (st : TileState) (g : game) : game :=
  set_board g
    (fold_left
       (fun b rc =>
          let '(r, c) := rc in
          if TileState_eqb (state (b r c)) st
          then set_tile_state b r c EmptyTile
          else b)
       (board_cells g) (board g)).

(** [SetTile(c, r, state)]: the column comes first in the source. *)
Definition SetTile (c r : Z) (st : TileState) (g : game) : game :=
  let g1 :=
    match st with
    | PlayerTile | MouseOverTile => RemoveTileWithState st g
    | _ => g
    end in
  set_board g1
    (set_tile (board g1) r c
       (mkTile st (x (board g1 r c)) (y (board g1 r c)) 0%Q)).

(** [UpdateBoard]: the symbols spin. *)
Definition UpdateBoard (g : game) : game :=
  set_board g
    (fold_left
       (fun b rc =>
          let '(r, c) := rc in
          if is_symbol (state (b r c))
          then set_tile b r c
                 (mkTile (state (b r c)) (x (b r c)) (y (b r c))
                         (F32.add (rotation (b r c)) 1%Q))
          else b)
       (board_cells g) (board g)).

(** [FindPlayerPosition]: the first cell in state [PlayerTile]. *)
Definition FindPlayerPosition (g : game) : bool * BoardPosition :=
  match find (fun rc => TileState_eqb (state (board g (fst rc) (snd rc))) PlayerTile)
             (board_cells g) with
  | Some (r, c) => (true, mkPos r c)
  | None => (false, zeroPosition)
  end.

(** [TilesAroundATileWithAnState]: the cells two steps up, down, left and
    right of [(row, column)] that hold [st], in that order. *)
Definition TilesAroundATileWithAnState
    (g : game) (row column : Z) (st : TileState) : list BoardPosition :=
  let result := [] in
  let result :=
    if (row >? 1) && TileState_eqb (state (board g (row - 2) column)) st
    then result ++ [mkPos (row - 2) column] else result in
  let result :=
    if (row <? rows g - 2) && TileState_eqb (state (board g (row + 2) column)) st
    then result ++ [mkPos (row + 2) column] else result in
  let result :=
    if (column >? 1) && TileState_eqb (state (board g row (column - 2))) st
    then result ++ [mkPos row (column - 2)] else result in
  let result :=
    if (column <? cols g - 2) && TileState_eqb (state (board g row (column + 2))) st
    then result ++ [mkPos row (column + 2)] else result in
  result.

(** *** [End], block by block *)

(** Lines 856-867: the scratch array [states], zero-initialised, receives
    every symbol at its mirrored cell. *)
Definition mirrored_states (g : game) : Z -> Z -> TileState :=
  fold_left
    (fun states rc =>
       let '(r, c) := rc in
       let currentState := state (board g r c) in
       if is_symbol currentState
       then
         let nr := rows g - 1 - r in
         let nc := cols g - 1 - c in
         fun r' c' => if (r' =? nr) && (c' =? nc) then currentState else states r' c'
       else states)
    (board_cells g) (fun _ _ => EmptyTile).

(** Lines 869-876: the symbols of [states] are written back to the board. *)
Definition commit_states (states : Z -> Z -> TileState) (g : game) : game :=
  set_board g
    (fold_left
       (fun b rc =>
          let '(r, c) := rc in
          let currentState := states r c in
          if is_symbol currentState
          then set_tile_state b r c currentState
          else b)
       (board_cells g) (board g)).

(** Step 1 of the resolution as a whole: both loops. *)
Definition flip (g : game) : game := commit_states (mirrored_states g) g.

(** Lines 878-886: the first row of [objectiveColumn] holding [CenterTile],
    or 0. *)
Definition find_objectiveRow (g : game) (objectiveColumn : Z) : Z :=
  match find (fun r => TileState_eqb (state (board g r objectiveColumn)) CenterTile)
             (range (rows g)) with
  | Some r => r
  | None => 0
  end.

(** Lines 888-907: [found] and [objectivePosition]. *)
Definition select_objective
    (g : game) (objectiveRow objectiveColumn : Z) : bool * BoardPosition :=
  let posible :=
    TilesAroundATileWithAnState g objectiveRow objectiveColumn (symbolObjective g) in
  let possibles := Z.of_nat (length posible) in
  if possibles >? 0 then
    if possibles =? 1 then (true, hd zeroPosition posible)
    else
      match find
              (fun p =>
                 Z.of_nat (length (TilesAroundATileWithAnState
                                     g (row p) (column p) CenterTile)) =? 1)
              posible with
      | Some p => (true, p)
      | None => (false, zeroPosition)
      end
  else (false, zeroPosition).

(** Lines 914-941: the test that the player stands between the centre and
    the objective; [g] already holds [centerSymbolPosition]. *)
Definition check_between
    (g : game) (objectivePosition playerPosition : BoardPosition) : game :=
  let won g := set_win (set_objectiveSymbolPosition g playerPosition) true in
  let center := centerSymbolPosition g in
  if (row objectivePosition =? row center) && (row center =? row playerPosition) then
    if column objectivePosition <? column center then
      if (column playerPosition >? column objectivePosition)
         && (column playerPosition <? column center)
      then won g else g
    else
      if (column playerPosition <? column objectivePosition)
         && (column playerPosition >? column center)
      then won g else g
  else if (column objectivePosition =? column center)
          && (column center =? column playerPosition) then
    if (row objectivePosition <? row center) && (row center <? row playerPosition) then
      if (row playerPosition >? row objectivePosition)
         && (row playerPosition <? row center)
      then won g else g
    else
      if (row playerPosition <? row objectivePosition)
         && (row playerPosition >? row center)
      then won g else g
  else g.

Definition End (g : game) : game :=
  let g := RemoveTileWithState MouseOverTile g in
  let g := flip g in
  let objectiveRow := find_objectiveRow g (columnObjective g * 2) in
  let objectiveColumn := columnObjective g * 2 in
  let '(found, objectivePosition) :=
    select_objective g objectiveRow objectiveColumn in
  let g :=
    if found then
      let g := set_objectiveSymbolPosition g objectivePosition in
      let g := set_centerSymbolPosition g (mkPos objectiveRow objectiveColumn) in
      let '(playerFound, playerPosition) := FindPlayerPosition g in
      if playerFound then check_between g objectivePosition playerPosition else g
    else g in
  set_gameState g EndState.

(** *** [Standby], [Reset] and the per-frame update *)

Definition Standby (g : game) : game :=
  set_gameState
    (set_board g
       (fold_left
          (fun b rc => let '(r, c) := rc in set_tile_state b r c InvalidTile)
          (board_cells g) (board g)))
    StandByState.

(** The layout loops of [Reset]: every cell becomes an empty tile at its
    pixel position; [x] and [y] are the running coordinates of the source.
    [layout_step] is the body of the inner loop, [layout_row] the body of
    the outer one. *)
Definition layout_step (r : Z) (y0 : float32)
    (acc : boardArray * float32) (c : Z) : boardArray * float32 :=
  let '(b, x1) := acc in
  (set_tile b r c (mkTile EmptyTile x1 y0 0%Q),
   F32.add x1 (inject_Z (TITLE_RADIUS * 3))).

Definition layout_row (ncols : Z)
    (acc : boardArray * (float32 * float32)) (r : Z)
    : boardArray * (float32 * float32) :=
  let startX : float32 := inject_Z (TITLE_RADIUS * 3) in
  let '(b, (x0, y0)) := acc in
  let '(b, _) := fold_left (layout_step r y0) (range ncols) (b, x0) in
  (b, (startX, F32.add y0 150%Q)).

Definition layout_board (g : game) : boardArray :=
  let startX : float32 := inject_Z (TITLE_RADIUS * 3) in
  let startY : float32 := inject_Z (TITLE_RADIUS * 3) in
  fst (fold_left (layout_row (cols g)) (range (rows g)) (board g, (startX, startY))).

(** [Reset]; [rnd2] and [rnd4] are the results of [rand.Intn(2)] and
    [rand.Intn(4)]. *)
Definition Reset (rnd2 rnd4 : Z) (g : game) : game :=
  let g := set_board g (layout_board g) in
  let g := set_board g (set_tile_state (board g) 1 1 InvalidTile) in
  let g := set_board g (set_tile_state (board g) 3 1 InvalidTile) in
  let g := set_board g (set_tile_state (board g) 1 3 InvalidTile) in
  let g := set_board g (set_tile_state (board g) 3 3 InvalidTile) in
  let g := set_board g (set_tile_state (board g) 1 5 InvalidTile) in
  let g := set_board g (set_tile_state (board g) 3 5 InvalidTile) in
  let g := SetTile 0 0 BetaTile g in
  let g := SetTile 0 2 CenterTile g in
  let g := SetTile 0 4 AlphaTile g in
  let g := SetTile 2 0 CenterTile g in
  let g := SetTile 2 2 AlphaTile g in
  let g := SetTile 2 4 BetaTile g in
  let g := SetTile 4 0 BetaTile g in
  let g := SetTile 4 2 BetaTile g in
  let g := SetTile 4 4 CenterTile g in
  let g := SetTile 6 0 AlphaTile g in
  let g := SetTile 6 2 CenterTile g in
  let g := SetTile 6 4 AlphaTile g in
  let g := set_gameState g PlayingState in
  let g := set_timeLeft g (inject_Z MAX_TIME) in
  let g := set_objective g (TileState_of_int (rnd2 + 1)) rnd4 in
  set_win g false.

(** [UpdateButtons] with the cursor and the button of this frame. *)
Definition UpdateButtons (t : tick) (g : game) : game :=
  if ButtonHit g (F32.of_int (cursorX t)) (F32.of_int (cursorY t)) then
    let g := set_buttonColor g green in
    if pressed t then Reset (randSymbol t) (randColumn t) g else g
  else set_buttonColor g darkGreen.

(** [UpdateTimeBar]; [elapsedMillis] is [time.Since(g.lastUpdateTime).Milliseconds()]. *)
Definition UpdateTimeBar (t : tick) (g : game) : game :=
  let g :=
    set_timeLeft g
      (F32.sub (timeLeft g) (F32.div (F32.of_int (elapsedMillis t)) 1000%Q)) in
  if F32.leb (timeLeft g) 0%Q then End (set_timeLeft g 0%Q) else g.

(** The test of the inner loop of [HandleMouseInBoard]. *)
Definition selectable_hit (g : game) (cx cy : float32) (rc : Z * Z) : bool :=
  let t := board g (fst rc) (snd rc) in
  (TileState_eqb (state t) EmptyTile || TileState_eqb (state t) MouseOverTile)
  && ShapeHit (x t) (y t) cx cy.

(** [HandleMouseInBoard]: the loops change nothing until they return, so
    they are a search for the first cell that passes the test. *)
Definition HandleMouseInBoard (t : tick) (g : game) : game :=
  let cx := F32.of_int (cursorX t) in
  let cy := F32.of_int (cursorY t) in
  match find (selectable_hit g cx cy) (board_cells g) with
  | Some (r, c) =>
      if pressed t then SetTile c r PlayerTile g
      else SetTile c r MouseOverTile g
  | None => g
  end.

Definition Update (t : tick) (g : game) : game :=
  match gameState g with
  | StandByState => UpdateButtons t g
  | PlayingState => HandleMouseInBoard t (UpdateBoard (UpdateTimeBar t g))
  | EndState => UpdateButtons t g
  end.

(** The game [New] returns: a zero-valued board put on standby. *)
Definition New : game :=
  let g :=
    mkGame NUM_ROWS NUM_COLS (fun _ _ => mkTile EmptyTile 0%Q 0%Q 0%Q)
           StandByState 0%Q 0%Q darkGreen 0%Q EmptyTile 0
           zeroPosition zeroPosition false in
  let g := Standby g in
  mkGame (rows g) (cols g) (board g) (gameState g)
         (inject_Z 1470) (inject_Z 490) darkGreen
         (timeLeft g) (symbolObjective g) (columnObjective g)
         (centerSymbolPosition g) (objectiveSymbolPosition g) (win g).

(** A whole session: the frames in order. *)
Definition run (ticks : list tick) (g : game) : game :=
  fold_left (fun g t => Update t g) ticks g.

(** ** Predicates the properties are stated with *)

(** [(r, c)] is a cell of the board of [g]. *)
Definition in_board (g : game) (r c : Z) : bool :=
  (0 <=? r) && (r <? rows g) && (0 <=? c) && (c <? cols g).

(** The two transient marks the pointer leaves. *)
Definition is_mark (st : TileState) : bool :=
  match st with
  | PlayerTile | MouseOverTile => true
  | _ => false
  end.

(** No cell of the board holds a mark. *)
Definition no_marks (g : game) : Prop :=
  forall r c, in_board g r c = true -> is_mark (state (board g r c)) = false.

(** How many cells of the board hold [st]. *)
Definition count_state (st : TileState) (g : game) : nat :=
  length
    (filter (fun rc => TileState_eqb (state (board g (fst rc) (snd rc))) st)
            (board_cells g)).

Definition at_most_one (st : TileState) (g : game) : bool :=
  (count_state st g <=? 1)%nat.

(** Neither mark has two holders. *)
Definition marks_unique (g : game) : bool :=
  at_most_one MouseOverTile g && at_most_one PlayerTile g.

(** The pointer handler alone, frame after frame. *)
Definition pointer_run (ticks : list tick) (g : game) : game :=
  fold_left (fun g t => HandleMouseInBoard t g) ticks g.

(** The cell's mirror image under the point reflection of [End]. *)
Definition mirror (g : game) (p : Z * Z) : Z * Z :=
  (rows g - 1 - fst p, cols g - 1 - snd p).

(** The cells holding a symbol are closed under the point reflection. *)
Definition mirror_closed (g : game) : bool :=
  forallb
    (fun rc =>
       implb (is_symbol (state (board g (fst rc) (snd rc))))
             (is_symbol (state (board g (fst (mirror g rc)) (snd (mirror g rc))))))
    (board_cells g).

(** The common shape of the loops that assign to the cell they visit. *)
Definition cell_loop
    (cond : Z -> Z -> tile -> bool) (upd : Z -> Z -> tile -> tile)
    (l : list (Z * Z)) (b : boardArray) : boardArray :=
  fold_left
    (fun b rc =>
       let '(r, c) := rc in
       if cond r c (b r c) then set_tile b r c (upd r c (b r c)) else b)
    l b.

(** *** The resolution inside [End] *)

(** The board on which [End] searches: hover marks removed, symbols
    reflected. *)
Definition resolution_board (g : game) : game :=
  flip (RemoveTileWithState MouseOverTile g).

(** The anchor [(objectiveRow, objectiveColumn)] of [End]. *)
Definition anchor (g : game) : BoardPosition :=
  let g1 := resolution_board g in
  mkPos (find_objectiveRow g1 (columnObjective g1 * 2)) (columnObjective g1 * 2).

(** The pair [found], [objectivePosition] that [End] computes. *)
Definition resolution (g : game) : bool * BoardPosition :=
  select_objective (resolution_board g) (row (anchor g)) (column (anchor g)).

(** *** The countdown over a session *)

(** The countdown reaches or crosses zero in this frame. *)
Definition expires (t : tick) (g : game) : bool :=
  F32.leb (F32.sub (timeLeft g) (F32.div (F32.of_int (elapsedMillis t)) 1000%Q)) 0%Q.

(** The start control is activated in this frame: the round is over or has
    not begun, the cursor is on the button and the button is down. *)
Definition restarts (t : tick) (g : game) : bool :=
  match gameState g with
  | PlayingState => false
  | _ => ButtonHit g (F32.of_int (cursorX t)) (F32.of_int (cursorY t)) && pressed t
  end.

(** This frame takes the game from [PlayingState] to [EndState]. *)
Definition fires (t : tick) (g : game) : bool :=
  match gameState g, gameState (Update t g) with
  | PlayingState, EndState => true
  | _, _ => false
  end.

(** How many frames of the session take the game from [PlayingState] to
    [EndState]. *)
Fixpoint transitions (ticks : list tick) (g : game) : nat :=
  match ticks with
  | [] => 0
  | t :: ticks' => ((if fires t g then 1 else 0) + transitions ticks' (Update t g))%nat
  end.

Fixpoint never_expires (ticks : list tick) (g : game) : bool :=
  match ticks with
  | [] => true
  | t :: ticks' => negb (expires t g) && never_expires ticks' (Update t g)
  end.

Fixpoint never_restarts (ticks : list tick) (g : game) : bool :=
  match ticks with
  | [] => true
  | t :: ticks' => negb (restarts t g) && never_restarts ticks' (Update t g)
  end.

(** The outcome fields of a round. *)
Definition outcome (g : game) : bool * BoardPosition * BoardPosition :=
  (win g, centerSymbolPosition g, objectiveSymbolPosition g).

(** Every frame of the session starts in [PlayingState] and either leaves
    the countdown above zero or ends the round on a board for which [End]
    finds no objective. *)
Fixpoint unresolved_round (ticks : list tick) (g : game) : bool :=
  match ticks with
  | [] => true
  | t :: ticks' =>
      match gameState g with
      | PlayingState => negb (expires t g) || negb (fst (resolution g))
      | _ => false
      end
      && unresolved_round ticks' (Update t g)
  end.

(** *** Steps 3 and 4 as the specification words them *)

(** The four cells two steps away, in the order up, down, left, right. *)
Definition probes_spec (p : BoardPosition) : list BoardPosition :=
  [ mkPos (row p - 2) (column p); mkPos (row p + 2) (column p);
    mkPos (row p) (column p - 2); mkPos (row p) (column p + 2) ].

(** The probes that lie on the board and hold [sym]. *)
Definition candidates_spec
    (g : game) (p : BoardPosition) (sym : TileState) : list BoardPosition :=
  filter
    (fun q =>
       in_board g (row q) (column q)
       && TileState_eqb (state (board g (row q) (column q))) sym)
    (probes_spec p).

(** How many of the four two-step neighbours of [q] hold a CenterSymbol. *)
Definition center_count_spec (g : game) (q : BoardPosition) : nat :=
  length (candidates_spec g q CenterTile).

(** No candidate: no resolution.  One candidate: that one.  More: the first
    in probe order whose centre count is exactly 1, if any. *)
Definition disambiguate_spec
    (g : game) (center : BoardPosition) (sym : TileState) : option BoardPosition :=
  match candidates_spec g center sym with
  | [] => None
  | [q] => Some q
  | cands => find (fun q => Nat.eqb (center_count_spec g q) 1) cands
  end.

(** ** Concrete games the statements are evaluated on *)

(** A 5 x 7 board of empty tiles in a running round. *)
Definition empty_game : game :=
  mkGame NUM_ROWS NUM_COLS (fun _ _ => mkTile EmptyTile 0%Q 0%Q 0%Q)
         PlayingState (inject_Z 1470) (inject_Z 490) darkGreen
         (inject_Z MAX_TIME) AlphaTile 0 zeroPosition zeroPosition false.

(** The empty board with a single [AlphaTile] in the corner [(0, 0)]. *)
Definition lone_alpha : game :=
  set_board empty_game (set_tile_state (board empty_game) 0 0 AlphaTile).

(** A session of three frames.  The start control is pressed with the
    cursor on it, and the round draws the objective Alpha in column group 2;
    16 ms later the button is down on the tile at pixel (900, 630), which is
    the cell [(3, 4)]; 15 s later the cursor is away from the board. *)
Definition press_start : tick := mkTick 0 1500 500 true 0 2.
Definition pick_3_4 : tick := mkTick 16 900 630 true 0 0.
Definition time_up : tick := mkTick 15000 0 0 false 0 0.

Definition first_round : game := run [press_start] New.
Definition after_pick : game := run [press_start; pick_3_4] New.
Definition after_time_up : game := run [press_start; pick_3_4; time_up] New.

(** The round that follows the three-frame session, and the same game on
    a board without any symbol. *)
Definition second_round : game := Reset 0 0 after_time_up.
Definition second_round_bare : game := set_board second_round (board empty_game).

(** An empty board but for an Alpha at [(2, 6)]: after the reflection no
    cell of column 0 holds a Center, and an Alpha stands at [(2, 0)]. *)
Definition no_center_game : game :=
  set_board empty_game (set_tile_state (board empty_game) 2 6 AlphaTile).

(** ** Further predicates *)

(** The cell [HandleMouseInBoard] acts on: the first cell, in row-major
    order, that is empty or hovered and whose hit square holds the cursor. *)
Definition pointed_cell (t : tick) (g : game) : option (Z * Z) :=
  find (selectable_hit g (F32.of_int (cursorX t)) (F32.of_int (cursorY t)))
       (board_cells g).

(** The player's cell [p] stands strictly between the centre [c] and the
    objective [o] in the way [End] accepts: on their row, in either order, or
    on their column below the centre and above the objective. *)
Definition accepted_between (c o p : BoardPosition) : Prop :=
  (row o = row c /\ row c = row p
   /\ (column o < column p < column c \/ column c < column p < column o))
  \/ (column o = column c /\ column c = column p /\ row c < row p < row o).

(** The states [Reset] leaves on the board, cell by cell: the six invalid
    cells and the twelve symbols of its [SetTile] calls (which take the
    column first), every other cell empty. *)
Definition reset_state (r c : Z) : TileState :=
  match r, c with
  | 1, 1 | 3, 1 | 1, 3 | 3, 3 | 1, 5 | 3, 5 => InvalidTile
  | 0, 0 => BetaTile
  | 2, 0 => CenterTile
  | 4, 0 => AlphaTile
  | 0, 2 => CenterTile
  | 2, 2 => AlphaTile
  | 4, 2 => BetaTile
  | 0, 4 => BetaTile
  | 2, 4 => BetaTile
  | 4, 4 => CenterTile
  | 0, 6 => AlphaTile
  | 2, 6 => CenterTile
  | 4, 6 => AlphaTile
  | _, _ => EmptyTile
  end.

(** The tile [Reset] leaves on the cell [(r, c)]. *)
Definition reset_tile (r c : Z) : tile :=
  mkTile (reset_state r c)
         (inject_Z (TITLE_RADIUS * 3 + TITLE_RADIUS * 3 * c))
         (inject_Z (TITLE_RADIUS * 3 + 150 * r))
         0%Q.

(** The draws of the frame are results of [rand.Intn(2)] and [rand.Intn(4)]. *)
Definition rand_ok (t : tick) : bool :=
  (0 <=? randSymbol t) && (randSymbol t <? 2)
  && (0 <=? randColumn t) && (randColumn t <? 4).

(** A state as the resolution sees it: the symbol, or nothing. *)
Definition symbol_of (s : TileState) : TileState :=
  if is_symbol s then s else EmptyTile.

(** Two games of one size and one objective whose boards carry the same
    symbols on the same cells. *)
Definition same_symbols (g g' : game) : Prop :=
  rows g' = rows g /\ cols g' = cols g
  /\ symbolObjective g' = symbolObjective g
  /\ columnObjective g' = columnObjective g
  /\ forall r c, in_board g r c = true ->
                 symbol_of (state (board g' r c)) = symbol_of (state (board g r c)).

(** The symbols of the board are those of the layout of [Reset]. *)
Definition layout_shape (g : game) : bool :=
  forallb
    (fun rc =>
       TileState_eqb (symbol_of (state (board g (fst rc) (snd rc))))
                     (symbol_of (reset_state (fst rc) (snd rc))))
    (board_cells g).

(** What holds of every game a session reaches from [New]: the board is
    5 x 7; both markers lie on it; once a round was started every tile
    stands at its pixel position; and while a round is played the symbols are
    those of the layout of [Reset], the objective symbol is Alpha or Beta and
    the objective column group is one of 0, 1, 2, 3. *)
Definition play_invariant (g : game) : Prop :=
  rows g = NUM_ROWS /\ cols g = NUM_COLS
  /\ in_board g (row (centerSymbolPosition g)) (column (centerSymbolPosition g)) = true
  /\ in_board g (row (objectiveSymbolPosition g)) (column (objectiveSymbolPosition g))
     = true
  /\ (gameState g <> StandByState ->
      forall r c, in_board g r c = true ->
                  x (board g r c) = x (reset_tile r c)
                  /\ y (board g r c) = y (reset_tile r c))
  /\ (gameState g = PlayingState ->
      layout_shape g = true
      /\ (symbolObjective g = AlphaTile \/ symbolObjective g = BetaTile)
      /\ 0 <= columnObjective g < 4).

(** [DrawTether]: the rectangle it hands to [vector.DrawFilledRect], as
    [(fromX, fromY, width, height)].  [math.Abs] is exact, and so are the
    conversions to [float64] and back. *)
Definition DrawTether (g : game) : float32 * float32 * float32 * float32 :=
  let center :=
    board g (row (centerSymbolPosition g)) (column (centerSymbolPosition g)) in
  let objective :=
    board g (row (objectiveSymbolPosition g)) (column (objectiveSymbolPosition g)) in
  if Qeq_bool (y objective) (y center) then
    let '(fromX, fromY) :=
      if F32.ltb (x objective) (x center)
      then (x objective, y objective) else (x center, y center) in
    (fromX, fromY, Qabs (F32.sub (x objective) (x center)), 5%Q)
  else
    let '(fromX, fromY) :=
      if F32.ltb (y objective) (y center)
      then (x objective, y objective) else (x center, y center) in
    (fromX, fromY, 5%Q, Qabs (F32.sub (y objective) (y center))).

(** The two markers are on one row or one column, one or two cells apart. *)
Definition markers_aligned (g : game) : Prop :=
  let c := centerSymbolPosition g in
  let o := objectiveSymbolPosition g in
  (row o = row c
   /\ (Z.abs (column o - column c) = 1 \/ Z.abs (column o - column c) = 2))
  \/ (column o = column c
      /\ (Z.abs (row o - row c) = 1 \/ Z.abs (row o - row c) = 2)).

(** [play_invariant], and: while a round is played the win flag is clear;
    when a round is over the markers are aligned. *)
Definition session_invariant (g : game) : Prop :=
  play_invariant g
  /\ (gameState g = PlayingState -> win g = false)
  /\ (gameState g = EndState -> markers_aligned g).

(** * Properties *)

(** ** Ranges, cells and single-cell assignments *)

Lemma TileState_eqb_eq (a b : TileState) : TileState_eqb a b = true <-> a = b.
Proof. destruct a, b; simpl; split; intros H; try reflexivity; discriminate H. Qed.

Lemma TileState_eqb_refl (a : TileState) : TileState_eqb a a = true.
Proof. now apply TileState_eqb_eq. Qed.

Lemma TileState_eqb_neq (a b : TileState) : TileState_eqb a b = false <-> a <> b.
Proof.
  split.
  - intros H E. apply TileState_eqb_eq in E. congruence.
  - intros H. destruct (TileState_eqb a b) eqn:E; [|reflexivity].
    apply TileState_eqb_eq in E. contradiction.
Qed.

Lemma in_range (n i : Z) : In i (range n) <-> 0 <= i < n.
Proof.
  unfold range. rewrite in_map_iff. split.
  - intros (k & <- & Hk). apply in_seq in Hk. lia.
  - intros H. exists (Z.to_nat i). split; [lia|]. apply in_seq. lia.
Qed.

Lemma NoDup_map_injective {A B : Type} (f : A -> B) (l : list A) :
  (forall a b, f a = f b -> a = b) -> NoDup l -> NoDup (map f l).
Proof.
  intros Hf Hl. induction Hl as [|a l Ha Hl IH]; simpl; constructor; [|exact IH].
  rewrite in_map_iff. intros (b & E & Hb). apply Hf in E. now subst.
Qed.

Lemma NoDup_range (n : Z) : NoDup (range n).
Proof.
  unfold range. apply NoDup_map_injective; [|apply seq_NoDup].
  intros a b H. lia.
Qed.

Lemma NoDup_list_prod_Z (l1 l2 : list Z) :
  NoDup l1 -> NoDup l2 -> NoDup (list_prod l1 l2).
Proof.
  intros H1 H2. induction H1 as [|a l1 Ha H1 IH]; simpl; [constructor|].
  apply NoDup_app.
  - apply NoDup_map_injective; [|exact H2]. intros u v E. congruence.
  - exact IH.
  - intros p Hp Hq. apply in_map_iff in Hp as (u & <- & _).
    apply in_prod_iff in Hq as [Hq _]. contradiction.
Qed.

Lemma in_cells (nr nc r c : Z) :
  In (r, c) (cells nr nc) <-> (0 <= r < nr) /\ (0 <= c < nc).
Proof. unfold cells. now rewrite in_prod_iff, !in_range. Qed.

Lemma NoDup_cells (nr nc : Z) : NoDup (cells nr nc).
Proof. apply NoDup_list_prod_Z; apply NoDup_range. Qed.

Lemma in_board_cells (g : game) (r c : Z) :
  In (r, c) (board_cells g) <-> in_board g r c = true.
Proof.
  unfold board_cells, in_board. rewrite in_cells. lia.
Qed.

Lemma set_tile_same (b : boardArray) (r c : Z) (t : tile) :
  set_tile b r c t r c = t.
Proof. unfold set_tile. now rewrite !Z.eqb_refl. Qed.

Lemma set_tile_other (b : boardArray) (r c r' c' : Z) (t : tile) :
  (r', c') <> (r, c) -> set_tile b r c t r' c' = b r' c'.
Proof.
  intros H. unfold set_tile.
  destruct (Z.eqb_spec r' r), (Z.eqb_spec c' c); simpl; try reflexivity.
  subst. contradiction.
Qed.

(** ** The loops over the cells *)

Lemma cell_loop_notin cond upd (l : list (Z * Z)) (b : boardArray) (r c : Z) :
  ~ In (r, c) l -> cell_loop cond upd l b r c = b r c.
Proof.
  revert b. induction l as [|[r0 c0] l IH]; intros b Hn; [reflexivity|].
  unfold cell_loop in *. simpl.
  rewrite IH by (intros H; apply Hn; now right).
  destruct (cond r0 c0 (b r0 c0)); [|reflexivity].
  apply set_tile_other. intros E. apply Hn. left. congruence.
Qed.

Lemma cell_loop_in cond upd (l : list (Z * Z)) (b : boardArray) (r c : Z) :
  NoDup l -> In (r, c) l ->
  cell_loop cond upd l b r c
  = if cond r c (b r c) then upd r c (b r c) else b r c.
Proof.
  intros Hnd. revert b. induction Hnd as [|[r0 c0] l Hn Hnd IH]; intros b Hin.
  - destruct Hin.
  - destruct Hin as [E|Hin].
    + inversion E; subst r0 c0. clear E.
      change (cell_loop cond upd ((r, c) :: l) b)
        with (cell_loop cond upd l
                (if cond r c (b r c) then set_tile b r c (upd r c (b r c)) else b)).
      rewrite cell_loop_notin by exact Hn.
      destruct (cond r c (b r c)); [apply set_tile_same|reflexivity].
    + change (cell_loop cond upd ((r0, c0) :: l) b)
        with (cell_loop cond upd l
                (if cond r0 c0 (b r0 c0)
                 then set_tile b r0 c0 (upd r0 c0 (b r0 c0)) else b)).
      rewrite IH by exact Hin.
      assert (Hne : (r, c) <> (r0, c0)) by (intros E; rewrite E in Hin; contradiction).
      destruct (cond r0 c0 (b r0 c0)); [|reflexivity].
      now rewrite set_tile_other by exact Hne.
Qed.

(** The board after a cell loop over the whole board, cell by cell. *)
Lemma cell_loop_board cond upd (g : game) (r c : Z) :
  cell_loop cond upd (board_cells g) (board g) r c
  = if in_board g r c && cond r c (board g r c)
    then upd r c (board g r c) else board g r c.
Proof.
  destruct (in_board g r c) eqn:E; simpl.
  - apply cell_loop_in; [apply NoDup_cells|now apply in_board_cells].
  - apply cell_loop_notin. rewrite in_board_cells. congruence.
Qed.

Lemma RemoveTileWithState_board (st : TileState) (g : game) (r c : Z) :
  board (RemoveTileWithState st g) r c
  = if in_board g r c && TileState_eqb (state (board g r c)) st
    then mkTile EmptyTile (x (board g r c)) (y (board g r c)) (rotation (board g r c))
    else board g r c.
Proof.
  exact (cell_loop_board
           (fun _ _ t => TileState_eqb (state t) st)
           (fun _ _ t => mkTile EmptyTile (x t) (y t) (rotation t)) g r c).
Qed.

Lemma UpdateBoard_board (g : game) (r c : Z) :
  board (UpdateBoard g) r c
  = if in_board g r c && is_symbol (state (board g r c))
    then mkTile (state (board g r c)) (x (board g r c)) (y (board g r c))
                (F32.add (rotation (board g r c)) 1%Q)
    else board g r c.
Proof.
  exact (cell_loop_board
           (fun _ _ t => is_symbol (state t))
           (fun _ _ t => mkTile (state t) (x t) (y t) (F32.add (rotation t) 1%Q))
           g r c).
Qed.

Lemma commit_states_board (states : Z -> Z -> TileState) (g : game) (r c : Z) :
  board (commit_states states g) r c
  = if in_board g r c && is_symbol (states r c)
    then mkTile (states r c) (x (board g r c)) (y (board g r c)) (rotation (board g r c))
    else board g r c.
Proof.
  exact (cell_loop_board
           (fun r c _ => is_symbol (states r c))
           (fun r c t => mkTile (states r c) (x t) (y t) (rotation t)) g r c).
Qed.

(** ** The point reflection of [End] *)

Lemma in_board_mirror (g : game) (r c : Z) :
  in_board g (rows g - 1 - r) (cols g - 1 - c) = in_board g r c.
Proof. unfold in_board. lia. Qed.

(** The scratch array after the first loop, for any list of visited cells
    and any initial content. *)
Lemma mirrored_fold (g : game) (l : list (Z * Z)) (st0 : Z -> Z -> TileState) (r c : Z) :
  fold_left
    (fun states rc =>
       let '(r, c) := rc in
       let currentState := state (board g r c) in
       if is_symbol currentState
       then
         let nr := rows g - 1 - r in
         let nc := cols g - 1 - c in
         fun r' c' => if (r' =? nr) && (c' =? nc) then currentState else states r' c'
       else states)
    l st0 r c
  = if existsb (fun q => (fst q =? rows g - 1 - r) && (snd q =? cols g - 1 - c)) l
       && is_symbol (state (board g (rows g - 1 - r) (cols g - 1 - c)))
    then state (board g (rows g - 1 - r) (cols g - 1 - c))
    else st0 r c.
Proof.
  revert st0. induction l as [|[r0 c0] l IH]; intros st0; [reflexivity|].
  cbn [fold_left existsb fst snd]. rewrite IH. clear IH.
  destruct (existsb _ l) eqn:El; cbn [orb andb].
  - rewrite orb_true_r. cbn [andb].
    destruct (is_symbol (state (board g (rows g - 1 - r) (cols g - 1 - c)))) eqn:Es;
      [reflexivity|].
    destruct (is_symbol (state (board g r0 c0))) eqn:E0; [|reflexivity].
    cbn zeta.
    destruct (Z.eqb_spec r (rows g - 1 - r0)), (Z.eqb_spec c (cols g - 1 - c0));
      cbn [andb]; try reflexivity.
    replace (rows g - 1 - r) with r0 in Es by lia.
    replace (cols g - 1 - c) with c0 in Es by lia. congruence.
  - rewrite orb_false_r.
    destruct (Z.eqb_spec r0 (rows g - 1 - r)), (Z.eqb_spec c0 (cols g - 1 - c));
      cbn [andb].
    + subst r0 c0.
      destruct (is_symbol (state (board g (rows g - 1 - r) (cols g - 1 - c)))) eqn:Es;
        [|reflexivity].
      cbn zeta.
      replace (rows g - 1 - (rows g - 1 - r)) with r by lia.
      replace (cols g - 1 - (cols g - 1 - c)) with c by lia.
      now rewrite !Z.eqb_refl.
    + destruct (is_symbol (state (board g r0 c0))); [|reflexivity]. cbn zeta.
      destruct (Z.eqb_spec c (cols g - 1 - c0)); [lia|]. now rewrite andb_false_r.
    + destruct (is_symbol (state (board g r0 c0))); [|reflexivity]. cbn zeta.
      destruct (Z.eqb_spec r (rows g - 1 - r0)); [lia|]. reflexivity.
    + destruct (is_symbol (state (board g r0 c0))); [|reflexivity]. cbn zeta.
      destruct (Z.eqb_spec r (rows g - 1 - r0)); [lia|]. reflexivity.
Qed.

Lemma existsb_cell (g : game) (r c : Z) :
  existsb (fun q => (fst q =? r) && (snd q =? c)) (board_cells g) = in_board g r c.
Proof.
  destruct (in_board g r c) eqn:E.
  - apply existsb_exists. exists (r, c). split; [now apply in_board_cells|].
    simpl. now rewrite !Z.eqb_refl.
  - destruct (existsb _ (board_cells g)) eqn:Ex; [|reflexivity].
    apply existsb_exists in Ex as ([r' c'] & Hin & Heq). simpl in Heq.
    apply andb_true_iff in Heq as [H1 H2].
    apply Z.eqb_eq in H1, H2. subst. apply in_board_cells in Hin. congruence.
Qed.

Lemma mirrored_states_spec (g : game) (r c : Z) :
  mirrored_states g r c
  = if in_board g r c && is_symbol (state (board g (rows g - 1 - r) (cols g - 1 - c)))
    then state (board g (rows g - 1 - r) (cols g - 1 - c))
    else EmptyTile.
Proof.
  unfold mirrored_states. rewrite mirrored_fold, existsb_cell, in_board_mirror.
  reflexivity.
Qed.

(** What [flip] leaves in each cell: a cell of the board whose mirror image
    holds a symbol takes that symbol, and only its field [state] is
    assigned; every other cell is as before. *)
Lemma flip_board (g : game) (r c : Z) :
  board (flip g) r c
  = if in_board g r c && is_symbol (state (board g (rows g - 1 - r) (cols g - 1 - c)))
    then mkTile (state (board g (rows g - 1 - r) (cols g - 1 - c)))
                (x (board g r c)) (y (board g r c)) (rotation (board g r c))
    else board g r c.
Proof.
  unfold flip. rewrite commit_states_board, mirrored_states_spec.
  destruct (in_board g r c); cbn [andb]; [|reflexivity].
  destruct (is_symbol (state (board g (rows g - 1 - r) (cols g - 1 - c)))) eqn:E;
    [now rewrite E|reflexivity].
Qed.

Lemma flip_rows (g : game) : rows (flip g) = rows g.
Proof. reflexivity. Qed.

Lemma flip_cols (g : game) : cols (flip g) = cols g.
Proof. reflexivity. Qed.

Lemma in_board_flip (g : game) (r c : Z) : in_board (flip g) r c = in_board g r c.
Proof. reflexivity. Qed.

Lemma tile_eta (t : tile) : mkTile (state t) (x t) (y t) (rotation t) = t.
Proof. now destruct t. Qed.

Lemma mirror_closed_spec (g : game) :
  mirror_closed g = true ->
  forall r c, in_board g r c = true ->
    is_symbol (state (board g (rows g - 1 - r) (cols g - 1 - c)))
    = is_symbol (state (board g r c)).
Proof.
  intros H r c Hin. unfold mirror_closed in H. rewrite forallb_forall in H.
  assert (H1 := H (r, c) (proj2 (in_board_cells g r c) Hin)).
  assert (Hin' : in_board g (rows g - 1 - r) (cols g - 1 - c) = true)
    by now rewrite in_board_mirror.
  assert (H2 := H _ (proj2 (in_board_cells g _ _) Hin')).
  cbn [mirror fst snd] in H1, H2.
  replace (rows g - 1 - (rows g - 1 - r)) with r in H2 by lia.
  replace (cols g - 1 - (cols g - 1 - c)) with c in H2 by lia.
  destruct (is_symbol (state (board g r c))),
           (is_symbol (state (board g (rows g - 1 - r) (cols g - 1 - c))));
    simpl in *; congruence.
Qed.

(** C3, as the code has it.  Reflecting twice brings every symbol back to
    the cell it started from; the whole board is as it was when the cells
    holding a symbol are closed under the reflection, as they are in the
    layout of [Reset].  ([flip] writes the mirrored symbols over the board
    and clears nothing, so on other boards the second reflection leaves
    more symbols than there were.) *)
Theorem flip_twice (g : game) :
  (forall r c,
      in_board g r c = true ->
      is_symbol (state (board g r c)) = true ->
      state (board (flip (flip g)) r c) = state (board g r c))
  /\ (mirror_closed g = true ->
      forall r c, board (flip (flip g)) r c = board g r c).
Proof.
  assert (Hback : forall r c,
             in_board g r c = true ->
             is_symbol (state (board g r c)) = true ->
             state (board (flip (flip g)) r c) = state (board g r c)).
  { intros r c Hin Hs.
    rewrite (flip_board (flip g)), in_board_flip, flip_rows, flip_cols, Hin.
    rewrite (flip_board g (rows g - 1 - r) (cols g - 1 - c)), in_board_mirror, Hin.
    replace (rows g - 1 - (rows g - 1 - r)) with r by lia.
    replace (cols g - 1 - (cols g - 1 - c)) with c by lia.
    rewrite Hs. cbn [andb state]. rewrite Hs. reflexivity. }
  split; [exact Hback|].
  intros Hc r c.
  destruct (in_board g r c) eqn:Hin.
  - destruct (is_symbol (state (board g r c))) eqn:Hs.
    + assert (E := Hback r c Hin Hs).
      rewrite (flip_board (flip g)), in_board_flip, flip_rows, flip_cols, Hin in E |- *.
      destruct (is_symbol (state (board (flip g) (rows g - 1 - r) (cols g - 1 - c))));
        cbn [andb state] in E |- *.
      * rewrite E. rewrite (flip_board g r c), Hin, (mirror_closed_spec g Hc r c Hin), Hs.
        cbn [andb x y rotation]. apply tile_eta.
      * rewrite (flip_board g r c), Hin, (mirror_closed_spec g Hc r c Hin), Hs in E |- *.
        cbn [andb state] in E |- *. rewrite E. apply tile_eta.
    + assert (Hm := mirror_closed_spec g Hc r c Hin). rewrite Hs in Hm.
      rewrite (flip_board (flip g)), in_board_flip, flip_rows, flip_cols, Hin.
      rewrite (flip_board g (rows g - 1 - r) (cols g - 1 - c)), in_board_mirror, Hin.
      replace (rows g - 1 - (rows g - 1 - r)) with r by lia.
      replace (cols g - 1 - (cols g - 1 - c)) with c by lia.
      rewrite Hs. cbn [andb]. rewrite Hm.
      rewrite (flip_board g r c), Hin, Hm. reflexivity.
  - rewrite (flip_board (flip g)), in_board_flip, Hin. cbn [andb].
    rewrite (flip_board g), Hin. reflexivity.
Qed.

Lemma flip_twice_witness :
  mirror_closed first_round = true
  /\ forall r c, board (flip (flip first_round)) r c = board first_round r c.
Proof.
  split; [vm_compute; reflexivity|].
  apply (proj2 (flip_twice first_round)). vm_compute. reflexivity.
Defined.

(** C3 fails as stated: on the board whose only symbol is an Alpha in the
    corner [(0, 0)], two reflections leave an Alpha in the opposite corner
    [(4, 6)], which was empty. *)
Lemma flip_twice_lone_alpha :
  state (board lone_alpha 4 6) = EmptyTile
  /\ state (board (flip (flip lone_alpha)) 4 6) = AlphaTile.
Proof. split; vm_compute; reflexivity. Qed.

(** C5, as the code has it.  One reflection puts the symbol of every
    symbol cell at [(rows-1-row, cols-1-col)], whatever that cell held;
    every cell that receives no reflected symbol keeps its tile, also when it
    held a symbol (nothing is cleared); and when the symbol cells are closed
    under the reflection, every symbol on the board afterwards is the one
    its mirror cell held. *)
Theorem flip_placement (g : game) :
  (forall r c,
      in_board g r c = true ->
      is_symbol (state (board g r c)) = true ->
      state (board (flip g) (rows g - 1 - r) (cols g - 1 - c)) = state (board g r c))
  /\ (forall r c,
      in_board g r c && is_symbol (state (board g (rows g - 1 - r) (cols g - 1 - c)))
      = false ->
      board (flip g) r c = board g r c)
  /\ (mirror_closed g = true ->
      forall r c,
        in_board g r c = true ->
        is_symbol (state (board (flip g) r c)) = true ->
        is_symbol (state (board g (rows g - 1 - r) (cols g - 1 - c))) = true
        /\ state (board (flip g) r c)
           = state (board g (rows g - 1 - r) (cols g - 1 - c))).
Proof.
  split; [|split].
  - intros r c Hin Hs. rewrite flip_board, in_board_mirror, Hin.
    replace (rows g - 1 - (rows g - 1 - r)) with r by lia.
    replace (cols g - 1 - (cols g - 1 - c)) with c by lia.
    now rewrite Hs.
  - intros r c H. now rewrite flip_board, H.
  - intros Hc r c Hin Hs. rewrite flip_board, Hin in Hs |- *. cbn [andb] in Hs |- *.
    destruct (is_symbol (state (board g (rows g - 1 - r) (cols g - 1 - c)))) eqn:Em.
    + split; reflexivity.
    + rewrite (mirror_closed_spec g Hc r c Hin) in Em. congruence.
Qed.

Lemma flip_placement_witness :
  mirror_closed first_round = true
  /\ in_board first_round 0 0 = true
  /\ is_symbol (state (board (flip first_round) 0 0)) = true
  /\ is_symbol (state (board first_round 4 6)) = true
  /\ state (board (flip first_round) 0 0) = state (board first_round 4 6).
Proof.
  assert (Hc : mirror_closed first_round = true) by (vm_compute; reflexivity).
  assert (Hin : in_board first_round 0 0 = true) by (vm_compute; reflexivity).
  assert (Hs : is_symbol (state (board (flip first_round) 0 0)) = true)
    by (vm_compute; reflexivity).
  split; [exact Hc|]. split; [exact Hin|]. split; [exact Hs|].
  exact (proj2 (proj2 (flip_placement first_round)) Hc 0 0 Hin Hs).
Defined.

(** C5 fails as stated: on the board whose only symbol is an Alpha in the
    corner [(0, 0)], the mirror cell [(4, 6)] is empty, so the reflection
    places nothing on [(0, 0)], and yet the Alpha is still there after it. *)
Lemma flip_keeps_lone_alpha :
  is_symbol (state (board lone_alpha 4 6)) = false
  /\ state (board (flip lone_alpha) 0 0) = AlphaTile.
Proof. split; vm_compute; reflexivity. Qed.

(** ** [SetTile] and the pointer handler *)

Lemma SetTile_board (c r : Z) (st : TileState) (g : game) (r' c' : Z) :
  board (SetTile c r st g) r' c'
  = let g1 := if is_mark st then RemoveTileWithState st g else g in
    if (r' =? r) && (c' =? c)
    then mkTile st (x (board g1 r c)) (y (board g1 r c)) 0%Q
    else board g1 r' c'.
Proof. destruct st; reflexivity. Qed.

Lemma SetTile_rows (c r : Z) (st : TileState) (g : game) : rows (SetTile c r st g) = rows g.
Proof. destruct st; reflexivity. Qed.

Lemma SetTile_cols (c r : Z) (st : TileState) (g : game) : cols (SetTile c r st g) = cols g.
Proof. destruct st; reflexivity. Qed.

(** The state of every cell after a mark was placed on [(r, c)]. *)
Lemma SetTile_mark_state (c r : Z) (st : TileState) (g : game) (r' c' : Z) :
  is_mark st = true ->
  state (board (SetTile c r st g) r' c')
  = if (r' =? r) && (c' =? c) then st
    else if in_board g r' c' && TileState_eqb (state (board g r' c')) st
         then EmptyTile
         else state (board g r' c').
Proof.
  intros Hm. rewrite SetTile_board, Hm. cbn zeta.
  destruct ((r' =? r) && (c' =? c)); [reflexivity|].
  rewrite RemoveTileWithState_board.
  destruct (in_board g r' c' && TileState_eqb (state (board g r' c')) st); reflexivity.
Qed.

(** The handler either leaves the game alone or places one mark, on a cell
    of the board that was empty or hovered. *)
Lemma HandleMouseInBoard_cases (t : tick) (g : game) :
  HandleMouseInBoard t g = g
  \/ exists r c st,
       in_board g r c = true
       /\ (state (board g r c) = EmptyTile \/ state (board g r c) = MouseOverTile)
       /\ st = (if pressed t then PlayerTile else MouseOverTile)
       /\ HandleMouseInBoard t g = SetTile c r st g.
Proof.
  unfold HandleMouseInBoard.
  destruct (find _ (board_cells g)) as [[r c]|] eqn:Ef; [right|now left].
  apply find_some in Ef as [Hin Hhit].
  exists r, c, (if pressed t then PlayerTile else MouseOverTile).
  split; [now apply in_board_cells|]. split; [|split; [reflexivity|]].
  - unfold selectable_hit in Hhit. cbn [fst snd] in Hhit.
    apply andb_true_iff in Hhit as [Hst _]. apply orb_true_iff in Hst.
    destruct Hst as [H|H]; apply TileState_eqb_eq in H; auto.
  - destruct (pressed t); reflexivity.
Qed.

Lemma HandleMouseInBoard_rows (t : tick) (g : game) : rows (HandleMouseInBoard t g) = rows g.
Proof.
  destruct (HandleMouseInBoard_cases t g) as [E|(r & c & st & _ & _ & _ & E)];
    rewrite E; [reflexivity|apply SetTile_rows].
Qed.

Lemma HandleMouseInBoard_cols (t : tick) (g : game) : cols (HandleMouseInBoard t g) = cols g.
Proof.
  destruct (HandleMouseInBoard_cases t g) as [E|(r & c & st & _ & _ & _ & E)];
    rewrite E; [reflexivity|apply SetTile_cols].
Qed.

(** ** The rest of [End] leaves the board alone *)

Ltac split_ifs :=
  repeat match goal with
         | |- context [if ?b then _ else _] => destruct b
         end.

Lemma check_between_board (g : game) (o p : BoardPosition) :
  board (check_between g o p) = board g.
Proof. unfold check_between. split_ifs; reflexivity. Qed.

Lemma End_board (g : game) :
  board (End g) = board (flip (RemoveTileWithState MouseOverTile g)).
Proof.
  unfold End.
  destruct (select_objective _ _ _) as [[|] o]; [|reflexivity].
  destruct (FindPlayerPosition _) as [[|] p]; [|reflexivity].
  cbn [board set_gameState]. rewrite check_between_board. reflexivity.
Qed.

Lemma End_rows (g : game) : rows (End g) = rows g.
Proof.
  unfold End.
  destruct (select_objective _ _ _) as [[|] o]; [|reflexivity].
  destruct (FindPlayerPosition _) as [[|] p]; [|reflexivity].
  cbn [rows set_gameState]. unfold check_between. split_ifs; reflexivity.
Qed.

Lemma End_cols (g : game) : cols (End g) = cols g.
Proof.
  unfold End.
  destruct (select_objective _ _ _) as [[|] o]; [|reflexivity].
  destruct (FindPlayerPosition _) as [[|] p]; [|reflexivity].
  cbn [cols set_gameState]. unfold check_between. split_ifs; reflexivity.
Qed.

Lemma End_gameState (g : game) : gameState (End g) = EndState.
Proof.
  unfold End.
  destruct (select_objective _ _ _) as [[|] o]; [|reflexivity].
  destruct (FindPlayerPosition _) as [[|] p]; reflexivity.
Qed.

Lemma End_timeLeft (g : game) : timeLeft (End g) = timeLeft g.
Proof.
  unfold End.
  destruct (select_objective _ _ _) as [[|] o]; [|reflexivity].
  destruct (FindPlayerPosition _) as [[|] p]; [|reflexivity].
  cbn [timeLeft set_gameState]. unfold check_between. split_ifs; reflexivity.
Qed.

(** ** Rotation *)

(** C8, as the code has it.  [SetTile] sets the rotation of the cell it
    writes to 0, and so does the pointer handler for the cell it marks;
    [RemoveTileWithState] and [End] assign states and leave every rotation as
    it was, also on the cells whose state they change. *)
Theorem rotation_reset_by_SetTile_only (g : game) :
  (forall c r st, rotation (board (SetTile c r st g) r c) = 0%Q)
  /\ (forall st r c,
      rotation (board (RemoveTileWithState st g) r c) = rotation (board g r c))
  /\ (forall r c, rotation (board (End g) r c) = rotation (board g r c))
  /\ (forall t r c,
      state (board (HandleMouseInBoard t g) r c) <> state (board g r c) ->
      is_mark (state (board (HandleMouseInBoard t g) r c)) = true ->
      rotation (board (HandleMouseInBoard t g) r c) = 0%Q)
  /\ (forall t r c,
      state (board (HandleMouseInBoard t g) r c) <> state (board g r c) ->
      is_mark (state (board (HandleMouseInBoard t g) r c)) = false ->
      rotation (board (HandleMouseInBoard t g) r c) = rotation (board g r c)).
Proof.
  assert (Hrem : forall g st r c,
             rotation (board (RemoveTileWithState st g) r c) = rotation (board g r c)).
  { intros g0 st r c. rewrite RemoveTileWithState_board.
    destruct (in_board g0 r c && TileState_eqb (state (board g0 r c)) st); reflexivity. }
  split; [|split; [|split; [|split]]].
  - intros c r st. rewrite SetTile_board. cbn zeta. now rewrite !Z.eqb_refl.
  - apply Hrem.
  - intros r c. rewrite End_board, flip_board.
    destruct (in_board _ r c && _); cbn [rotation]; apply Hrem.
  - intros t r c Hch Hm.
    destruct (HandleMouseInBoard_cases t g) as [E|(r0 & c0 & st & _ & _ & Est & E)];
      rewrite E in *; [congruence|].
    assert (Hst : is_mark st = true) by (subst st; destruct (pressed t); reflexivity).
    rewrite SetTile_mark_state in Hch, Hm by exact Hst.
    rewrite SetTile_board, Hst. cbn zeta.
    destruct ((r =? r0) && (c =? c0)); [reflexivity|].
    destruct (in_board g r c && TileState_eqb (state (board g r c)) st);
      [discriminate Hm|congruence].
  - intros t r c Hch Hm.
    destruct (HandleMouseInBoard_cases t g) as [E|(r0 & c0 & st & _ & _ & Est & E)];
      rewrite E in *; [congruence|].
    assert (Hst : is_mark st = true) by (subst st; destruct (pressed t); reflexivity).
    rewrite SetTile_mark_state in Hch, Hm by exact Hst.
    rewrite SetTile_board, Hst. cbn zeta.
    destruct ((r =? r0) && (c =? c0)); [congruence|]. apply Hrem.
Qed.

Lemma rotation_reset_by_SetTile_only_witness :
  state (board (HandleMouseInBoard pick_3_4 first_round) 3 4)
    <> state (board first_round 3 4)
  /\ is_mark (state (board (HandleMouseInBoard pick_3_4 first_round) 3 4)) = true
  /\ rotation (board (HandleMouseInBoard pick_3_4 first_round) 3 4) = 0%Q.
Proof.
  assert (Hch : state (board (HandleMouseInBoard pick_3_4 first_round) 3 4)
                <> state (board first_round 3 4))
    by (vm_compute; discriminate).
  assert (Hm : is_mark (state (board (HandleMouseInBoard pick_3_4 first_round) 3 4)) = true)
    by (vm_compute; reflexivity).
  split; [exact Hch|split; [exact Hm|]].
  exact (proj1 (proj2 (proj2 (proj2 (rotation_reset_by_SetTile_only first_round))))
           pick_3_4 3 4 Hch Hm).
Defined.

(** C8 fails as stated: when the time is up in the three-frame session,
    [End] turns the Beta of the corner [(0, 0)] into an Alpha and the tile
    keeps the rotation 1 it had. *)
Lemma End_changes_state_keeps_rotation :
  state (board after_pick 0 0) = BetaTile
  /\ rotation (board after_pick 0 0) = 1%Q
  /\ state (board (End after_pick) 0 0) = AlphaTile
  /\ rotation (board (End after_pick) 0 0) = 1%Q.
Proof. repeat split; vm_compute; reflexivity. Qed.

(** ** What the pointer may touch *)

(** C10.  The pointer handler either changes nothing or places one mark
    with [SetTile], on a cell of the board that was empty or hovered, and
    that cell is still empty or hovered when [SetTile] has cleared the
    previous holders and writes; a cell holding Alpha, Beta, Center or
    Invalid keeps its tile; a mark that was not there before stands on a
    cell that was empty or hovered. *)
Theorem pointer_marks_only_free_cells (t : tick) (g : game) :
  (HandleMouseInBoard t g = g
   \/ exists r c st,
        in_board g r c = true
        /\ (state (board g r c) = EmptyTile \/ state (board g r c) = MouseOverTile)
        /\ (state (board (RemoveTileWithState st g) r c) = EmptyTile
            \/ state (board (RemoveTileWithState st g) r c) = MouseOverTile)
        /\ st = (if pressed t then PlayerTile else MouseOverTile)
        /\ HandleMouseInBoard t g = SetTile c r st g)
  /\ (forall r c,
      is_symbol (state (board g r c)) = true \/ state (board g r c) = InvalidTile ->
      board (HandleMouseInBoard t g) r c = board g r c)
  /\ (forall r c,
      is_mark (state (board (HandleMouseInBoard t g) r c)) = true ->
      state (board (HandleMouseInBoard t g) r c) <> state (board g r c) ->
      state (board g r c) = EmptyTile \/ state (board g r c) = MouseOverTile).
Proof.
  destruct (HandleMouseInBoard_cases t g) as [E|(r0 & c0 & st & Hin & Hfree & Est & E)].
  - rewrite E. split; [now left|]. split; [reflexivity|]. intros r c _ H. congruence.
  - assert (Hst : is_mark st = true) by (subst st; destruct (pressed t); reflexivity).
    split; [|split].
    + right. exists r0, c0, st. repeat split; try assumption.
      rewrite RemoveTileWithState_board.
      destruct (in_board g r0 c0 && TileState_eqb (state (board g r0 c0)) st);
        [now left|exact Hfree].
    + intros r c Hs. rewrite E, SetTile_board, Hst. cbn zeta.
      destruct (Z.eqb_spec r r0), (Z.eqb_spec c c0); cbn [andb].
      * subst r c. destruct Hfree as [F|F]; rewrite F in Hs;
          destruct Hs as [Hs|Hs]; discriminate Hs.
      * rewrite RemoveTileWithState_board.
        destruct (TileState_eqb (state (board g r c)) st) eqn:Eq;
          [|now rewrite andb_false_r].
        apply TileState_eqb_eq in Eq. rewrite Eq in Hs.
        destruct Hs as [Hs|Hs]; [|rewrite Hs in Hst; discriminate Hst].
        destruct st; discriminate.
      * rewrite RemoveTileWithState_board.
        destruct (TileState_eqb (state (board g r c)) st) eqn:Eq;
          [|now rewrite andb_false_r].
        apply TileState_eqb_eq in Eq. rewrite Eq in Hs.
        destruct Hs as [Hs|Hs]; [|rewrite Hs in Hst; discriminate Hst].
        destruct st; discriminate.
      * rewrite RemoveTileWithState_board.
        destruct (TileState_eqb (state (board g r c)) st) eqn:Eq;
          [|now rewrite andb_false_r].
        apply TileState_eqb_eq in Eq. rewrite Eq in Hs.
        destruct Hs as [Hs|Hs]; [|rewrite Hs in Hst; discriminate Hst].
        destruct st; discriminate.
    + intros r c Hm Hch. rewrite E, SetTile_mark_state in Hm, Hch by exact Hst.
      destruct (Z.eqb_spec r r0), (Z.eqb_spec c c0); cbn [andb] in Hm, Hch;
        try (subst r c; exact Hfree);
        destruct (in_board g r c && TileState_eqb (state (board g r c)) st);
        try discriminate Hm; congruence.
Qed.

Lemma pointer_marks_only_free_cells_witness :
  (is_symbol (state (board first_round 4 4)) = true
   \/ state (board first_round 4 4) = InvalidTile)
  /\ board (HandleMouseInBoard (mkTick 16 900 780 true 0 0) first_round) 4 4
     = board first_round 4 4.
Proof.
  assert (H : is_symbol (state (board first_round 4 4)) = true
              \/ state (board first_round 4 4) = InvalidTile)
    by (left; vm_compute; reflexivity).
  split; [exact H|].
  exact (proj1 (proj2 (pointer_marks_only_free_cells
                         (mkTick 16 900 780 true 0 0) first_round)) 4 4 H).
Defined.

(** ** At most one holder of each mark *)

Lemma filter_nil_iff {A : Type} (f : A -> bool) (l : list A) :
  filter f l = [] <-> forall a, In a l -> f a = false.
Proof.
  induction l as [|a l IH]; simpl.
  - split; [intros _ a []|reflexivity].
  - destruct (f a) eqn:E; split.
    + discriminate.
    + intros H. specialize (H a (or_introl eq_refl)). congruence.
    + intros H b [<-|Hb]; [exact E|]. now apply IH.
    + intros H. apply IH. intros b Hb. apply H. now right.
Qed.

Lemma filter_length_le1 {A : Type} (f : A -> bool) (l : list A) :
  NoDup l ->
  ((length (filter f l) <= 1)%nat
   <-> forall a b, In a l -> In b l -> f a = true -> f b = true -> a = b).
Proof.
  induction 1 as [|a l Ha Hnd IH]; simpl.
  - split; [intros _ a b []|intros _; lia].
  - destruct (f a) eqn:E; split.
    + intros Hlen. simpl in Hlen.
      assert (Hnil : filter f l = []) by (destruct (filter f l); [reflexivity|simpl in Hlen; lia]).
      rewrite filter_nil_iff in Hnil.
      intros u v [<-|Hu] [<-|Hv] Fu Fv; try reflexivity.
      * rewrite (Hnil v Hv) in Fv. discriminate.
      * rewrite (Hnil u Hu) in Fu. discriminate.
      * rewrite (Hnil u Hu) in Fu. discriminate.
    + intros Huniq. simpl.
      assert (Hnil : filter f l = []).
      { apply filter_nil_iff. intros b Hb. destruct (f b) eqn:Fb; [|reflexivity].
        assert (a = b) by (apply Huniq; auto). subst. contradiction. }
      rewrite Hnil. simpl. lia.
    + intros Hlen. assert (Hl := proj1 IH Hlen).
      intros u v [<-|Hu] [<-|Hv] Fu Fv; try congruence. now apply Hl.
    + intros Huniq. apply (proj2 IH). intros u v Hu Hv. apply Huniq; now right.
Qed.

(** [at_most_one] says what it should: two cells of the board holding
    [st] are the same cell. *)
Lemma at_most_one_spec (st : TileState) (g : game) :
  at_most_one st g = true
  <-> forall r1 c1 r2 c2,
        in_board g r1 c1 = true -> in_board g r2 c2 = true ->
        state (board g r1 c1) = st -> state (board g r2 c2) = st ->
        (r1, c1) = (r2, c2).
Proof.
  unfold at_most_one, count_state. rewrite Nat.leb_le.
  rewrite (filter_length_le1 _ _ (NoDup_cells (rows g) (cols g))).
  split.
  - intros H r1 c1 r2 c2 I1 I2 S1 S2.
    apply H; try (now apply in_board_cells); cbn [fst snd]; now apply TileState_eqb_eq.
  - intros H [r1 c1] [r2 c2] I1 I2 S1 S2. cbn [fst snd] in S1, S2.
    apply H; try (now apply in_board_cells); now apply TileState_eqb_eq.
Qed.

(** An update after which every holder of [st] was one before keeps
    [at_most_one st]. *)
Lemma at_most_one_mono (st : TileState) (g g' : game) :
  rows g' = rows g -> cols g' = cols g ->
  (forall r c, in_board g r c = true ->
               state (board g' r c) = st -> state (board g r c) = st) ->
  at_most_one st g = true -> at_most_one st g' = true.
Proof.
  intros Hr Hc Hsub H. rewrite at_most_one_spec in H |- *.
  assert (Hin : forall r c, in_board g' r c = in_board g r c)
    by (intros; unfold in_board; now rewrite Hr, Hc).
  intros r1 c1 r2 c2 I1 I2 S1 S2. rewrite Hin in I1, I2.
  apply H; auto.
Qed.

Lemma no_marks_at_most_one (st : TileState) (g : game) :
  is_mark st = true -> no_marks g -> at_most_one st g = true.
Proof.
  intros Hm Hn. apply at_most_one_spec. intros r1 c1 r2 c2 I1 _ S1 _.
  specialize (Hn r1 c1 I1). rewrite S1 in Hn. congruence.
Qed.

Lemma SetTile_mark_unique (c r : Z) (st : TileState) (g : game) :
  is_mark st = true -> at_most_one st (SetTile c r st g) = true.
Proof.
  intros Hm. apply at_most_one_spec.
  assert (Hw : forall r' c',
             in_board (SetTile c r st g) r' c' = true ->
             state (board (SetTile c r st g) r' c') = st -> (r', c') = (r, c)).
  { intros r' c' Hin. unfold in_board in Hin. rewrite SetTile_rows, SetTile_cols in Hin.
    fold (in_board g r' c') in Hin.
    rewrite SetTile_mark_state, Hin by exact Hm. cbn [andb].
    destruct (Z.eqb_spec r' r), (Z.eqb_spec c' c); cbn [andb]; try congruence;
      (destruct (TileState_eqb (state (board g r' c')) st) eqn:E;
       [intros <-; discriminate Hm
       |intros S; apply TileState_eqb_eq in S; congruence]). }
  intros r1 c1 r2 c2 I1 I2 S1 S2.
  rewrite (Hw r1 c1 I1 S1), (Hw r2 c2 I2 S2). reflexivity.
Qed.

Lemma SetTile_mark_other (c r : Z) (st st' : TileState) (g : game) :
  is_mark st = true -> is_mark st' = true -> st' <> st ->
  at_most_one st' g = true -> at_most_one st' (SetTile c r st g) = true.
Proof.
  intros Hm Hm' Hne. apply at_most_one_mono.
  - apply SetTile_rows.
  - apply SetTile_cols.
  - intros r' c' Hin. rewrite SetTile_mark_state, Hin by exact Hm. cbn [andb].
    destruct ((r' =? r) && (c' =? c)); [congruence|].
    destruct (TileState_eqb (state (board g r' c')) st); [|trivial].
    intros <-. discriminate Hm'.
Qed.

Lemma HandleMouseInBoard_at_most_one (t : tick) (g : game) (st : TileState) :
  is_mark st = true ->
  at_most_one st g = true -> at_most_one st (HandleMouseInBoard t g) = true.
Proof.
  intros Hm H.
  destruct (HandleMouseInBoard_cases t g) as [E|(r & c & st0 & _ & _ & Est & E)];
    rewrite E; [exact H|].
  assert (Hm0 : is_mark st0 = true) by (subst st0; destruct (pressed t); reflexivity).
  destruct (TileState_eqb st st0) eqn:Eq.
  - apply TileState_eqb_eq in Eq. subst st. now apply SetTile_mark_unique.
  - apply TileState_eqb_neq in Eq. now apply SetTile_mark_other.
Qed.

(** ** [Reset] leaves no mark on the board *)

Lemma layout_cols_state (r : Z) (y0 : float32) (lc : list Z) :
  forall (b : boardArray) (x1 : float32) (r' c' : Z),
    (r' = r /\ In c' lc) \/ state (b r' c') = EmptyTile ->
    state (fst (fold_left (layout_step r y0) lc (b, x1)) r' c') = EmptyTile.
Proof.
  induction lc as [|c lc IH]; intros b x1 r' c' H; cbn [fold_left].
  - destruct H as [[_ []]|H]. exact H.
  - unfold layout_step at 2. apply IH.
    destruct (Z.eq_dec r' r) as [Er|Er], (Z.eq_dec c' c) as [Ec|Ec];
      try (subst; right; now rewrite set_tile_same);
      (rewrite set_tile_other by congruence);
      destruct H as [[H1 [H2|H2]]|H]; auto; congruence.
Qed.

Lemma layout_rows_state (nc : Z) (lr : list Z) :
  forall (b : boardArray) (xy : float32 * float32) (r' c' : Z),
    (In r' lr /\ In c' (range nc)) \/ state (b r' c') = EmptyTile ->
    state (fst (fold_left (layout_row nc) lr (b, xy)) r' c') = EmptyTile.
Proof.
  induction lr as [|r lr IH]; intros b [x0 y0] r' c' H; cbn [fold_left].
  - destruct H as [[[] _]|H]. exact H.
  - unfold layout_row at 2. cbn zeta.
    destruct (fold_left (layout_step r y0) (range nc) (b, x0)) as [b1 x1] eqn:E.
    apply IH.
    assert (Hb1 : b1 = fst (fold_left (layout_step r y0) (range nc) (b, x0)))
      by now rewrite E.
    destruct H as [[[H1|H1] H2]|H].
    + right. rewrite Hb1. apply layout_cols_state. left. split; [congruence|exact H2].
    + left. now split.
    + right. rewrite Hb1. apply layout_cols_state. now right.
Qed.

Lemma layout_board_state (g : game) (r c : Z) :
  in_board g r c = true -> state (layout_board g r c) = EmptyTile.
Proof.
  intros H. unfold layout_board. apply layout_rows_state. left.
  rewrite !in_range. unfold in_board in H. lia.
Qed.

Lemma no_marks_ext (g g' : game) :
  rows g' = rows g -> cols g' = cols g -> board g' = board g ->
  no_marks g -> no_marks g'.
Proof.
  intros Hr Hc Hb H r c Hin. rewrite Hb. apply H.
  unfold in_board in *. now rewrite <- Hr, <- Hc.
Qed.

Lemma no_marks_set_tile_state (g : game) (r c : Z) (st : TileState) :
  is_mark st = false -> no_marks g ->
  no_marks (set_board g (set_tile_state (board g) r c st)).
Proof.
  intros Hm H r' c' Hin. cbn [board set_board]. unfold set_tile_state, set_tile.
  destruct ((r' =? r) && (c' =? c)); [exact Hm|]. now apply H.
Qed.

Lemma no_marks_SetTile (c r : Z) (st : TileState) (g : game) :
  is_mark st = false -> no_marks g -> no_marks (SetTile c r st g).
Proof.
  intros Hm H r' c' Hin. rewrite SetTile_board, Hm. cbn zeta.
  destruct ((r' =? r) && (c' =? c)); [exact Hm|].
  apply H. unfold in_board in *. now rewrite SetTile_rows, SetTile_cols in Hin.
Qed.

Lemma no_marks_fields (g : game) st t o c w :
  no_marks g ->
  no_marks (set_win (set_objective (set_timeLeft (set_gameState g st) t) o c) w).
Proof. intros H. exact H. Qed.

Lemma Reset_no_marks (rnd2 rnd4 : Z) (g : game) : no_marks (Reset rnd2 rnd4 g).
Proof.
  unfold Reset. apply no_marks_fields.
  do 12 (apply no_marks_SetTile; [reflexivity|]).
  do 6 (apply no_marks_set_tile_state; [reflexivity|]).
  intros r c Hin. cbn [board set_board]. rewrite layout_board_state; [reflexivity|].
  exact Hin.
Qed.

Lemma fields_rows (g : game) st t o c w :
  rows (set_win (set_objective (set_timeLeft (set_gameState g st) t) o c) w) = rows g.
Proof. reflexivity. Qed.

Lemma fields_cols (g : game) st t o c w :
  cols (set_win (set_objective (set_timeLeft (set_gameState g st) t) o c) w) = cols g.
Proof. reflexivity. Qed.

Lemma Reset_rows (rnd2 rnd4 : Z) (g : game) : rows (Reset rnd2 rnd4 g) = rows g.
Proof. unfold Reset. rewrite fields_rows, !SetTile_rows. reflexivity. Qed.

Lemma Reset_cols (rnd2 rnd4 : Z) (g : game) : cols (Reset rnd2 rnd4 g) = cols g.
Proof. unfold Reset. rewrite fields_cols, !SetTile_cols. reflexivity. Qed.

(** ** The marks through a whole frame *)

Lemma UpdateBoard_at_most_one (g : game) (st : TileState) :
  at_most_one st g = true -> at_most_one st (UpdateBoard g) = true.
Proof.
  apply at_most_one_mono; [reflexivity|reflexivity|].
  intros r c _. rewrite UpdateBoard_board.
  destruct (in_board g r c && is_symbol (state (board g r c))); trivial.
Qed.

Lemma End_at_most_one (g : game) (st : TileState) :
  is_mark st = true ->
  at_most_one st g = true -> at_most_one st (End g) = true.
Proof.
  intros Hm. apply at_most_one_mono; [apply End_rows|apply End_cols|].
  intros r c _. rewrite End_board, flip_board.
  set (g1 := RemoveTileWithState MouseOverTile g).
  destruct (in_board g1 r c && is_symbol (state (board g1 (rows g1 - 1 - r) (cols g1 - 1 - c))))
    eqn:E.
  - cbn [state]. apply andb_true_iff in E as [_ E]. intros S. rewrite S in E.
    destruct st; discriminate.
  - unfold g1. rewrite RemoveTileWithState_board.
    destruct (in_board g r c && TileState_eqb (state (board g r c)) MouseOverTile);
      [|trivial].
    cbn [state]. intros <-. discriminate Hm.
Qed.

Lemma UpdateTimeBar_at_most_one (t : tick) (g : game) (st : TileState) :
  is_mark st = true ->
  at_most_one st g = true -> at_most_one st (UpdateTimeBar t g) = true.
Proof.
  intros Hm H. unfold UpdateTimeBar. cbv zeta.
  destruct (F32.leb _ _); [|exact H].
  apply End_at_most_one; [exact Hm|exact H].
Qed.

Lemma UpdateButtons_at_most_one (t : tick) (g : game) (st : TileState) :
  is_mark st = true ->
  at_most_one st g = true -> at_most_one st (UpdateButtons t g) = true.
Proof.
  intros Hm H. unfold UpdateButtons.
  destruct (ButtonHit _ _ _); [|exact H].
  destruct (pressed t); [|exact H].
  apply no_marks_at_most_one; [exact Hm|apply Reset_no_marks].
Qed.

Lemma Update_at_most_one (t : tick) (g : game) (st : TileState) :
  is_mark st = true ->
  at_most_one st g = true -> at_most_one st (Update t g) = true.
Proof.
  intros Hm H. unfold Update. destruct (gameState g).
  - now apply UpdateButtons_at_most_one.
  - apply HandleMouseInBoard_at_most_one; [exact Hm|].
    apply UpdateBoard_at_most_one. now apply UpdateTimeBar_at_most_one.
  - now apply UpdateButtons_at_most_one.
Qed.

(** C9.  [Reset] starts every round with neither mark on the board; from a
    board on which no mark has two holders, any sequence of pointer frames,
    and any sequence of whole frames (timer, spin, pointer, end of round,
    restart), leaves at most one hovered cell and at most one chosen cell. *)
Theorem marks_stay_unique :
  (forall rnd2 rnd4 g, marks_unique (Reset rnd2 rnd4 g) = true)
  /\ (forall ticks g,
      marks_unique g = true -> marks_unique (pointer_run ticks g) = true)
  /\ (forall ticks g,
      marks_unique g = true -> marks_unique (run ticks g) = true).
Proof.
  unfold marks_unique. split; [|split].
  - intros rnd2 rnd4 g. apply andb_true_iff. split;
      (apply no_marks_at_most_one; [reflexivity|apply Reset_no_marks]).
  - intros ticks. unfold pointer_run.
    induction ticks as [|t ticks IH]; intros g H; [exact H|].
    cbn [fold_left]. apply IH. apply andb_true_iff in H as [H1 H2].
    apply andb_true_iff. split; now apply HandleMouseInBoard_at_most_one.
  - intros ticks. unfold run.
    induction ticks as [|t ticks IH]; intros g H; [exact H|].
    cbn [fold_left]. apply IH. apply andb_true_iff in H as [H1 H2].
    apply andb_true_iff. split; now apply Update_at_most_one.
Qed.

Lemma marks_stay_unique_witness :
  marks_unique first_round = true
  /\ marks_unique (pointer_run [pick_3_4; time_up; press_start] first_round) = true.
Proof.
  assert (H : marks_unique first_round = true) by (vm_compute; reflexivity).
  split; [exact H|].
  exact (proj1 (proj2 marks_stay_unique) [pick_3_4; time_up; press_start] first_round H).
Defined.

(** ** First matches in a range, and the anchor *)

Lemma find_seq_first (f : Z -> bool) (len start : nat) (r : Z) :
  find f (map Z.of_nat (seq start len)) = Some r ->
  Z.of_nat start <= r < Z.of_nat start + Z.of_nat len
  /\ f r = true
  /\ forall r', Z.of_nat start <= r' < r -> f r' = false.
Proof.
  revert start. induction len as [|len IH]; intros start; cbn [seq map find].
  - discriminate.
  - destruct (f (Z.of_nat start)) eqn:E.
    + intros [= <-]. split; [lia|]. split; [exact E|]. intros r' Hr'. lia.
    + intros H. apply IH in H as (H1 & H2 & H3). split; [lia|]. split; [exact H2|].
      intros r' Hr'. destruct (Z.eq_dec r' (Z.of_nat start)) as [->|Hne]; [exact E|].
      apply H3. lia.
Qed.

Lemma find_range_first (f : Z -> bool) (n r : Z) :
  find f (range n) = Some r ->
  0 <= r < n /\ f r = true /\ forall r', 0 <= r' < r -> f r' = false.
Proof.
  unfold range. intros H. apply find_seq_first in H as (H1 & H2 & H3).
  split; [lia|]. split; [exact H2|]. intros r' Hr'. apply H3. lia.
Qed.

Lemma find_range_none (f : Z -> bool) (n : Z) :
  find f (range n) = None -> forall r, 0 <= r < n -> f r = false.
Proof.
  intros H r Hr. apply (find_none _ _ H). now apply in_range.
Qed.

(** Where the anchor lies: on the first row of its column that holds a
    Center after the reflection, or on row 0 when there is none. *)
Lemma anchor_cases (g : game) :
  column (anchor g) = columnObjective g * 2
  /\ ((0 <= row (anchor g) < rows g
       /\ state (board (resolution_board g) (row (anchor g)) (columnObjective g * 2))
          = CenterTile
       /\ forall r, 0 <= r < row (anchor g) ->
                    state (board (resolution_board g) r (columnObjective g * 2))
                    <> CenterTile)
      \/ (row (anchor g) = 0
          /\ forall r, 0 <= r < rows g ->
                       state (board (resolution_board g) r (columnObjective g * 2))
                       <> CenterTile)).
Proof.
  split; [reflexivity|].
  unfold anchor. cbv zeta. cbn [row]. unfold find_objectiveRow.
  change (columnObjective (resolution_board g)) with (columnObjective g).
  change (rows (resolution_board g)) with (rows g).
  destruct (find _ (range (rows g))) as [r0|] eqn:Ef.
  - left. apply find_range_first in Ef as (H1 & H2 & H3).
    split; [exact H1|]. split; [now apply TileState_eqb_eq|].
    intros r Hr. apply TileState_eqb_neq. now apply H3.
  - right. split; [reflexivity|]. intros r Hr. apply TileState_eqb_neq.
    now apply (find_range_none _ _ Ef).
Qed.

Lemma anchor_in_board (g : game) :
  0 < rows g -> 0 <= columnObjective g * 2 < cols g ->
  in_board (resolution_board g) (row (anchor g)) (column (anchor g)) = true.
Proof.
  intros Hr Hc. destruct (anchor_cases g) as [Ec [(H & _)|[H _]]];
    rewrite Ec; unfold in_board;
    change (rows (resolution_board g)) with (rows g);
    change (cols (resolution_board g)) with (cols g); lia.
Qed.

(** ** Candidate search and disambiguation *)

Lemma find_ext_in {A : Type} (f h : A -> bool) (l : list A) :
  (forall a, In a l -> f a = h a) -> find f l = find h l.
Proof.
  induction l as [|a l IH]; intros H; [reflexivity|]. simpl.
  rewrite (H a (or_introl eq_refl)). destruct (h a); [reflexivity|].
  apply IH. intros b Hb. apply H. now right.
Qed.

(** On an anchor of the board, the guards of [TilesAroundATileWithAnState]
    are the bounds checks of the four probes. *)
Lemma TilesAround_candidates_spec (g : game) (r c : Z) (st : TileState) :
  in_board g r c = true ->
  TilesAroundATileWithAnState g r c st = candidates_spec g (mkPos r c) st.
Proof.
  intros Hin. unfold TilesAroundATileWithAnState, candidates_spec, probes_spec.
  cbn [filter row column].
  assert (Hu : in_board g (r - 2) c = (r >? 1)) by (unfold in_board in *; lia).
  assert (Hd : in_board g (r + 2) c = (r <? rows g - 2)) by (unfold in_board in *; lia).
  assert (Hl : in_board g r (c - 2) = (c >? 1)) by (unfold in_board in *; lia).
  assert (Hr : in_board g r (c + 2) = (c <? cols g - 2)) by (unfold in_board in *; lia).
  rewrite Hu, Hd, Hl, Hr.
  destruct ((r >? 1) && _), ((r <? rows g - 2) && _),
           ((c >? 1) && _), ((c <? cols g - 2) && _); reflexivity.
Qed.

Lemma candidates_spec_in_board (g : game) (p q : BoardPosition) (st : TileState) :
  In q (candidates_spec g p st) -> in_board g (row q) (column q) = true.
Proof.
  unfold candidates_spec. rewrite filter_In. intros [_ H].
  now apply andb_true_iff in H as [H _].
Qed.

Lemma select_objective_spec (g : game) (r c : Z) :
  in_board g r c = true ->
  (let (found, objectivePosition) := select_objective g r c in
   if found then Some objectivePosition else None)
  = disambiguate_spec g (mkPos r c) (symbolObjective g).
Proof.
  intros Hin. unfold select_objective, disambiguate_spec. cbv zeta.
  rewrite (TilesAround_candidates_spec g r c _ Hin).
  assert (Hc := fun q => candidates_spec_in_board g (mkPos r c) q (symbolObjective g)).
  destruct (candidates_spec g (mkPos r c) (symbolObjective g)) as [|q1 [|q2 l]].
  - reflexivity.
  - reflexivity.
  - assert (H0 : (Z.of_nat (length (q1 :: q2 :: l)) >? 0) = true)
      by (rewrite Z.gtb_ltb; apply Z.ltb_lt; cbn [length]; lia).
    assert (H1 : (Z.of_nat (length (q1 :: q2 :: l)) =? 1) = false)
      by (apply Z.eqb_neq; cbn [length]; lia).
    rewrite H0, H1.
    rewrite (find_ext_in
               (fun p => Z.of_nat (length (TilesAroundATileWithAnState
                                             g (row p) (column p) CenterTile)) =? 1)
               (fun q => Nat.eqb (center_count_spec g q) 1)).
    + destruct (find _ (q1 :: q2 :: l)); reflexivity.
    + intros q Hq. unfold center_count_spec.
      rewrite (TilesAround_candidates_spec g (row q) (column q) CenterTile (Hc q Hq)).
      replace (mkPos (row q) (column q)) with q by now destruct q.
      destruct (Nat.eqb_spec (length (candidates_spec g q CenterTile)) 1); lia.
Qed.

(** C4.  For every board, every anchor on the board and every objective
    symbol, what [End] selects is what the reference definition selects: no
    candidate, no resolution; a single candidate, that one; several, the
    first in the order up, down, left, right with exactly one Center among
    its own two-step neighbours, or no resolution.  In [End] itself the
    anchor is on the board whenever the board has a row and the objective
    column is one of its columns. *)
Theorem select_objective_refines_spec (g : game) :
  (forall r c,
      in_board g r c = true ->
      (let (found, objectivePosition) := select_objective g r c in
       if found then Some objectivePosition else None)
      = disambiguate_spec g (mkPos r c) (symbolObjective g))
  /\ (0 < rows g -> 0 <= columnObjective g * 2 < cols g ->
      (if fst (resolution g) then Some (snd (resolution g)) else None)
      = disambiguate_spec (resolution_board g) (anchor g) (symbolObjective g)).
Proof.
  split; [exact (select_objective_spec g)|].
  intros Hr Hc.
  assert (H := select_objective_spec (resolution_board g) _ _ (anchor_in_board g Hr Hc)).
  fold (resolution g) in H. destruct (resolution g) as [found o].
  replace (mkPos (row (anchor g)) (column (anchor g))) with (anchor g) in H
    by now destruct (anchor g).
  exact H.
Qed.

Lemma select_objective_refines_spec_witness :
  0 < rows first_round
  /\ 0 <= columnObjective first_round * 2 < cols first_round
  /\ (if fst (resolution first_round) then Some (snd (resolution first_round)) else None)
     = disambiguate_spec (resolution_board first_round) (anchor first_round)
                         (symbolObjective first_round)
  /\ disambiguate_spec (resolution_board first_round) (anchor first_round)
                       (symbolObjective first_round) = Some (mkPos 2 4).
Proof.
  assert (Hr : 0 < rows first_round) by (vm_compute; reflexivity).
  assert (Hc : 0 <= columnObjective first_round * 2 < cols first_round)
    by (vm_compute; split; [discriminate|reflexivity]).
  split; [exact Hr|]. split; [exact Hc|]. split.
  - exact (proj2 (select_objective_refines_spec first_round) Hr Hc).
  - vm_compute. reflexivity.
Defined.

(** ** The anchor and what [End] stores *)

(** [End], with the resolution named. *)
Lemma End_unfold (g : game) :
  End g
  = set_gameState
      (if fst (resolution g) then
         let g2 :=
           set_centerSymbolPosition
             (set_objectiveSymbolPosition (resolution_board g) (snd (resolution g)))
             (anchor g) in
         if fst (FindPlayerPosition g2)
         then check_between g2 (snd (resolution g)) (snd (FindPlayerPosition g2))
         else g2
       else resolution_board g)
      EndState.
Proof.
  unfold End, resolution, anchor, resolution_board. cbn [row column].
  destruct (select_objective _ _ _) as [[|] o]; cbn [fst snd]; [|reflexivity].
  destruct (FindPlayerPosition _) as [[|] p]; reflexivity.
Qed.

Lemma check_between_center (g : game) (o p : BoardPosition) :
  centerSymbolPosition (check_between g o p) = centerSymbolPosition g.
Proof. unfold check_between. split_ifs; reflexivity. Qed.

Lemma End_found_center (g : game) :
  fst (resolution g) = true -> centerSymbolPosition (End g) = anchor g.
Proof.
  intros H. rewrite End_unfold, H. cbv zeta. cbn [centerSymbolPosition set_gameState].
  destruct (fst (FindPlayerPosition _)); [|reflexivity].
  now rewrite check_between_center.
Qed.

Lemma End_not_found (g : game) :
  fst (resolution g) = false ->
  win (End g) = win g
  /\ centerSymbolPosition (End g) = centerSymbolPosition g
  /\ objectiveSymbolPosition (End g) = objectiveSymbolPosition g.
Proof. intros H. rewrite End_unfold, H. repeat split. Qed.

(** C6.  The anchor of [End] lies in column [columnObjective * 2], on the
    first row from the top whose cell holds Center after the reflection, and
    on row 0 when no cell of that column does; the candidate search runs
    from that anchor in either case, and when it finds an objective the
    anchor is what [End] stores as the centre. *)
Theorem center_anchor (g : game) :
  let g1 := resolution_board g in
  let col := columnObjective g * 2 in
  column (anchor g) = col
  /\ ((0 <= row (anchor g) < rows g
       /\ state (board g1 (row (anchor g)) col) = CenterTile
       /\ forall r, 0 <= r < row (anchor g) -> state (board g1 r col) <> CenterTile)
      \/ (row (anchor g) = 0
          /\ forall r, 0 <= r < rows g -> state (board g1 r col) <> CenterTile))
  /\ resolution g = select_objective g1 (row (anchor g)) col
  /\ (fst (resolution g) = true -> centerSymbolPosition (End g) = anchor g)
  /\ ((forall r, 0 <= r < rows g -> state (board g1 r col) <> CenterTile) ->
      fst (select_objective g1 0 col) = true ->
      centerSymbolPosition (End g) = mkPos 0 col).
Proof.
  cbv zeta. destruct (anchor_cases g) as [Ecol Hanchor].
  split; [exact Ecol|]. split; [exact Hanchor|]. split; [reflexivity|].
  split; [apply End_found_center|].
  intros Hno Hfound.
  assert (Hrow : row (anchor g) = 0).
  { destruct Hanchor as [(Hr & Hc & _)|[Hr _]]; [|exact Hr].
    exfalso. exact (Hno _ Hr Hc). }
  assert (Ha : anchor g = mkPos 0 (columnObjective g * 2)).
  { unfold anchor in *. cbv zeta in *. cbn [row] in Hrow. rewrite Hrow. reflexivity. }
  rewrite <- Ha. apply End_found_center. unfold resolution. rewrite Ha. exact Hfound.
Qed.

Lemma center_anchor_witness :
  fst (resolution after_pick) = true
  /\ centerSymbolPosition (End after_pick) = anchor after_pick
  /\ anchor after_pick = mkPos 4 4.
Proof.
  assert (H : fst (resolution after_pick) = true) by (vm_compute; reflexivity).
  split; [exact H|]. split.
  - exact (proj1 (proj2 (proj2 (proj2 (center_anchor after_pick)))) H).
  - vm_compute. reflexivity.
Defined.

(** The degenerate case at work: no Center in column 0 after the
    reflection, the search starts from [(0, 0)], finds the Alpha two rows
    below, and [End] stores [(0, 0)] as the centre. *)
Lemma End_no_center_game :
  forallb
    (fun r => negb (TileState_eqb (state (board (resolution_board no_center_game) r 0))
                                  CenterTile))
    (range (rows no_center_game)) = true
  /\ anchor no_center_game = mkPos 0 0
  /\ resolution no_center_game = (true, mkPos 2 0)
  /\ centerSymbolPosition (End no_center_game) = mkPos 0 0
  /\ objectiveSymbolPosition (End no_center_game) = mkPos 2 0.
Proof. repeat split; vm_compute; reflexivity. Qed.

(** ** The outcome fields *)

Lemma SetTile_outcome (c r : Z) (st : TileState) (g : game) :
  outcome (SetTile c r st g) = outcome g.
Proof. destruct st; reflexivity. Qed.

Lemma HandleMouseInBoard_outcome (t : tick) (g : game) :
  outcome (HandleMouseInBoard t g) = outcome g.
Proof.
  destruct (HandleMouseInBoard_cases t g) as [E|(r & c & st & _ & _ & _ & E)];
    rewrite E; [reflexivity|apply SetTile_outcome].
Qed.

Lemma fields_outcome (g : game) st t o c :
  outcome (set_win (set_objective (set_timeLeft (set_gameState g st) t) o c) false)
  = (false, centerSymbolPosition g, objectiveSymbolPosition g).
Proof. reflexivity. Qed.

Lemma Reset_outcome (rnd2 rnd4 : Z) (g : game) :
  outcome (Reset rnd2 rnd4 g)
  = (false, centerSymbolPosition g, objectiveSymbolPosition g).
Proof.
  unfold Reset. rewrite fields_outcome.
  assert (H : forall c r st g0,
             (centerSymbolPosition (SetTile c r st g0),
              objectiveSymbolPosition (SetTile c r st g0))
             = (centerSymbolPosition g0, objectiveSymbolPosition g0))
    by (intros c r st g0; destruct st; reflexivity).
  assert (E : forall g1 g2 : game,
             (centerSymbolPosition g1, objectiveSymbolPosition g1)
             = (centerSymbolPosition g2, objectiveSymbolPosition g2) ->
             (false, centerSymbolPosition g1, objectiveSymbolPosition g1)
             = (false, centerSymbolPosition g2, objectiveSymbolPosition g2))
    by (intros g1 g2 [= -> ->]; reflexivity).
  apply E. rewrite !H. reflexivity.
Qed.

Lemma End_not_found_outcome (g : game) :
  fst (resolution g) = false -> outcome (End g) = outcome g.
Proof.
  intros H. destruct (End_not_found g H) as (H1 & H2 & H3).
  unfold outcome. now rewrite H1, H2, H3.
Qed.

Lemma unresolved_frame_outcome (t : tick) (g : game) :
  gameState g = PlayingState ->
  negb (expires t g) || negb (fst (resolution g)) = true ->
  outcome (Update t g) = outcome g.
Proof.
  intros Hs H. unfold Update. rewrite Hs, HandleMouseInBoard_outcome.
  change (outcome (UpdateBoard (UpdateTimeBar t g))) with (outcome (UpdateTimeBar t g)).
  unfold UpdateTimeBar. cbv zeta.
  change (F32.leb (timeLeft (set_timeLeft g _)) 0%Q) with (expires t g).
  destruct (expires t g); [|reflexivity].
  cbn [negb orb] in H. apply negb_true_iff in H.
  rewrite End_not_found_outcome; [reflexivity|exact H].
Qed.

(** C2, as the code has it.  When [End] finds no objective it leaves the
    win flag and both marker positions as they were; [Reset] clears the win
    flag and leaves both marker positions as they were; and the frames of a
    round that ends without a resolution leave all three as the round
    found them.  So such a round ends with [win = false] and with the marker
    positions the game held before it: the zero value in the first round of
    a game, those of the previous round afterwards. *)
Theorem unresolved_round_outcome :
  (forall g, fst (resolution g) = false -> outcome (End g) = outcome g)
  /\ (forall rnd2 rnd4 g,
      outcome (Reset rnd2 rnd4 g)
      = (false, centerSymbolPosition g, objectiveSymbolPosition g))
  /\ (forall ticks g,
      unresolved_round ticks g = true -> outcome (run ticks g) = outcome g).
Proof.
  split; [exact End_not_found_outcome|]. split; [exact Reset_outcome|].
  intros ticks. unfold run.
  induction ticks as [|t ticks IH]; intros g H; [reflexivity|].
  cbn [fold_left unresolved_round] in *.
  apply andb_true_iff in H as [H1 H2].
  rewrite IH by exact H2.
  destruct (gameState g) eqn:Es; try discriminate H1.
  now apply unresolved_frame_outcome.
Qed.

Lemma unresolved_round_outcome_witness :
  unresolved_round [pick_3_4; time_up] second_round_bare = true
  /\ gameState (run [pick_3_4; time_up] second_round_bare) = EndState
  /\ outcome (run [pick_3_4; time_up] second_round_bare) = (false, mkPos 4 4, mkPos 2 4).
Proof.
  assert (H : unresolved_round [pick_3_4; time_up] second_round_bare = true)
    by (vm_compute; reflexivity).
  split; [exact H|]. split; [vm_compute; reflexivity|].
  rewrite (proj2 (proj2 unresolved_round_outcome) [pick_3_4; time_up] second_round_bare H).
  vm_compute. reflexivity.
Defined.

(** C2 fails as stated: the round after the three-frame session starts
    with the marker positions of that session, [(4, 4)] and [(2, 4)], and on
    a board where [End] finds no objective it ends with them. *)
Lemma stale_markers_survive :
  gameState second_round = PlayingState
  /\ centerSymbolPosition second_round = mkPos 4 4
  /\ objectiveSymbolPosition second_round = mkPos 2 4
  /\ fst (resolution second_round_bare) = false
  /\ win (End second_round_bare) = false
  /\ centerSymbolPosition (End second_round_bare) = mkPos 4 4
  /\ objectiveSymbolPosition (End second_round_bare) = mkPos 2 4.
Proof. repeat split; vm_compute; reflexivity. Qed.

(** On the layout of [Reset] each of the eight objectives resolves. *)
Lemma reset_layout_resolves :
  forallb
    (fun rnd2 => forallb (fun rnd4 => fst (resolution (Reset rnd2 rnd4 New))) [0; 1; 2; 3])
    [0; 1] = true.
Proof. vm_compute. reflexivity. Qed.

(** ** The win check *)

(** When [check_between] sets the win flag: with the three cells on one
    row, when the player's column is strictly between the other two, in
    either order; with the three cells on one column, only when the
    objective is below the centre and the player's row strictly between. *)
Lemma check_between_win (g : game) (o p : BoardPosition) :
  win g = false ->
  let c := centerSymbolPosition g in
  win (check_between g o p) = true
  <-> (row o = row c /\ row c = row p
       /\ (column o < column p < column c \/ column c < column p < column o))
      \/ (~ (row o = row c /\ row c = row p)
          /\ column o = column c /\ column c = column p
          /\ row c < row p < row o).
Proof.
  intros Hw. cbv zeta. unfold check_between. cbv zeta.
  destruct ((row o =? row (centerSymbolPosition g))
            && (row (centerSymbolPosition g) =? row p)) eqn:E1.
  - destruct (column o <? column (centerSymbolPosition g)) eqn:E2.
    + destruct ((column p >? column o) && (column p <? column (centerSymbolPosition g)))
        eqn:E3; cbn [win set_win]; rewrite ?Hw; split; intros H;
        try reflexivity; try discriminate H; lia.
    + destruct ((column p <? column o) && (column p >? column (centerSymbolPosition g)))
        eqn:E3; cbn [win set_win]; rewrite ?Hw; split; intros H;
        try reflexivity; try discriminate H; lia.
  - destruct ((column o =? column (centerSymbolPosition g))
              && (column (centerSymbolPosition g) =? column p)) eqn:E2.
    + destruct ((row o <? row (centerSymbolPosition g))
                && (row (centerSymbolPosition g) <? row p)) eqn:E3.
      * destruct ((row p >? row o) && (row p <? row (centerSymbolPosition g))) eqn:E4;
          cbn [win set_win]; rewrite ?Hw; split; intros H;
          try reflexivity; try discriminate H; lia.
      * destruct ((row p <? row o) && (row p >? row (centerSymbolPosition g))) eqn:E4;
          cbn [win set_win]; rewrite ?Hw; split; intros H;
          try reflexivity; try discriminate H; lia.
    + rewrite Hw. split; intros H; [discriminate H|lia].
Qed.

(** C1 at a session the game can play.  The round draws Alpha in column
    group 2; after the reflection the centre is [(4, 4)] and the objective
    [(2, 4)], above it; the player has chosen [(3, 4)], on the same column
    and strictly between the two; [End] leaves [win = false].  With the
    objective below or beside the centre the same choice between the two
    wins (see [check_between_win]). *)
Theorem End_objective_above_center_loses :
  gameState after_pick = PlayingState
  /\ FindPlayerPosition after_pick = (true, mkPos 3 4)
  /\ count_state PlayerTile after_pick = 1%nat
  /\ anchor after_pick = mkPos 4 4
  /\ resolution after_pick = (true, mkPos 2 4)
  /\ FindPlayerPosition (resolution_board after_pick) = (true, mkPos 3 4)
  /\ gameState after_time_up = EndState
  /\ centerSymbolPosition after_time_up = mkPos 4 4
  /\ objectiveSymbolPosition after_time_up = mkPos 2 4
  /\ win after_time_up = false.
Proof. repeat split; vm_compute; reflexivity. Qed.

(** The mirror situation wins: Alpha in column group 0 puts the centre at
    [(2, 0)] and the objective at [(4, 0)], below it, and the choice
    [(3, 0)] between them sets [win]. *)
Lemma End_objective_below_center_wins :
  let g := run [mkTick 0 1500 500 true 0 0; mkTick 16 180 630 true 0 0; time_up] New in
  gameState g = EndState
  /\ centerSymbolPosition g = mkPos 2 0
  /\ objectiveSymbolPosition g = mkPos 3 0
  /\ win g = true.
Proof. repeat split; vm_compute; reflexivity. Qed.

(** ** The countdown *)

Lemma UpdateTimeBar_expires (t : tick) (g : game) :
  UpdateTimeBar t g
  = let g1 :=
      set_timeLeft g
        (F32.sub (timeLeft g) (F32.div (F32.of_int (elapsedMillis t)) 1000%Q)) in
    if expires t g then End (set_timeLeft g1 0%Q) else g1.
Proof. reflexivity. Qed.

Lemma SetTile_gameState (c r : Z) (st : TileState) (g : game) :
  gameState (SetTile c r st g) = gameState g.
Proof. destruct st; reflexivity. Qed.

Lemma SetTile_timeLeft (c r : Z) (st : TileState) (g : game) :
  timeLeft (SetTile c r st g) = timeLeft g.
Proof. destruct st; reflexivity. Qed.

Lemma HandleMouseInBoard_gameState (t : tick) (g : game) :
  gameState (HandleMouseInBoard t g) = gameState g.
Proof.
  destruct (HandleMouseInBoard_cases t g) as [E|(r & c & st & _ & _ & _ & E)];
    rewrite E; [reflexivity|apply SetTile_gameState].
Qed.

Lemma HandleMouseInBoard_timeLeft (t : tick) (g : game) :
  timeLeft (HandleMouseInBoard t g) = timeLeft g.
Proof.
  destruct (HandleMouseInBoard_cases t g) as [E|(r & c & st & _ & _ & _ & E)];
    rewrite E; [reflexivity|apply SetTile_timeLeft].
Qed.

Lemma playing_frame_gameState (t : tick) (g : game) :
  gameState g = PlayingState ->
  gameState (Update t g) = if expires t g then EndState else PlayingState.
Proof.
  intros Hs. unfold Update. rewrite Hs, HandleMouseInBoard_gameState.
  change (gameState (UpdateBoard (UpdateTimeBar t g))) with (gameState (UpdateTimeBar t g)).
  rewrite UpdateTimeBar_expires. cbv zeta.
  destruct (expires t g); [apply End_gameState|exact Hs].
Qed.

Lemma playing_frame_timeLeft (t : tick) (g : game) :
  gameState g = PlayingState ->
  timeLeft (Update t g)
  = if expires t g then 0%Q
    else F32.sub (timeLeft g) (F32.div (F32.of_int (elapsedMillis t)) 1000%Q).
Proof.
  intros Hs. unfold Update. rewrite Hs, HandleMouseInBoard_timeLeft.
  change (timeLeft (UpdateBoard (UpdateTimeBar t g))) with (timeLeft (UpdateTimeBar t g)).
  rewrite UpdateTimeBar_expires. cbv zeta.
  destruct (expires t g); [now rewrite End_timeLeft|reflexivity].
Qed.

Lemma playing_frame_fires (t : tick) (g : game) :
  gameState g = PlayingState -> fires t g = expires t g.
Proof.
  intros Hs. unfold fires. rewrite (playing_frame_gameState t g Hs), Hs.
  destruct (expires t g); reflexivity.
Qed.

Lemma playing_frame_not_negative (t : tick) (g : game) :
  gameState g = PlayingState -> (0 <= timeLeft (Update t g))%Q.
Proof.
  intros Hs. rewrite (playing_frame_timeLeft t g Hs).
  destruct (expires t g) eqn:E; [apply Qle_refl|].
  unfold expires, F32.leb in E.
  apply Qlt_le_weak, Qnot_le_lt. intros H. apply Qle_bool_iff in H. congruence.
Qed.

(** A frame after the round, without the start control: only the colour of
    the button may change. *)
Lemma idle_frame (t : tick) (g : game) :
  gameState g <> PlayingState -> restarts t g = false ->
  exists p, Update t g = set_buttonColor g p.
Proof.
  intros Hs Hr. unfold restarts in Hr. unfold Update, UpdateButtons.
  destruct (gameState g); try congruence;
    (destruct (ButtonHit _ _ _); [|now exists darkGreen]);
    cbn [andb] in Hr; rewrite Hr; now exists green.
Qed.

Lemma Update_not_negative (t : tick) (g : game) :
  (0 <= timeLeft g)%Q -> (0 <= timeLeft (Update t g))%Q.
Proof.
  intros H. destruct (gameState g) eqn:Es.
  - unfold Update, UpdateButtons. rewrite Es.
    destruct (ButtonHit _ _ _); [|exact H]. destruct (pressed t); [|exact H].
    unfold Reset. cbn [timeLeft set_win set_objective set_timeLeft]. discriminate.
  - now apply playing_frame_not_negative.
  - unfold Update, UpdateButtons. rewrite Es.
    destruct (ButtonHit _ _ _); [|exact H]. destruct (pressed t); [|exact H].
    unfold Reset. cbn [timeLeft set_win set_objective set_timeLeft]. discriminate.
Qed.

Lemma run_app (l1 l2 : list tick) (g : game) : run (l1 ++ l2) g = run l2 (run l1 g).
Proof. unfold run. apply fold_left_app. Qed.

Lemma transitions_app (l1 l2 : list tick) (g : game) :
  transitions (l1 ++ l2) g = (transitions l1 g + transitions l2 (run l1 g))%nat.
Proof.
  revert g. induction l1 as [|t l1 IH]; intros g; [reflexivity|].
  cbn [app transitions]. rewrite IH. unfold run. cbn [fold_left]. lia.
Qed.

Lemma playing_run (ticks : list tick) (g : game) :
  gameState g = PlayingState -> never_expires ticks g = true ->
  transitions ticks g = 0%nat /\ gameState (run ticks g) = PlayingState.
Proof.
  revert g. induction ticks as [|t ticks IH]; intros g Hs H; [now split|].
  cbn [never_expires] in H. apply andb_true_iff in H as [H1 H2].
  apply negb_true_iff in H1.
  assert (Hs' : gameState (Update t g) = PlayingState)
    by (rewrite (playing_frame_gameState t g Hs), H1; reflexivity).
  destruct (IH _ Hs' H2) as [IH1 IH2].
  cbn [transitions]. rewrite IH1, (playing_frame_fires t g Hs), H1.
  split; [reflexivity|exact IH2].
Qed.

Lemma ended_run (ticks : list tick) (g : game) :
  gameState g = EndState -> never_restarts ticks g = true ->
  transitions ticks g = 0%nat
  /\ gameState (run ticks g) = EndState
  /\ timeLeft (run ticks g) = timeLeft g
  /\ board (run ticks g) = board g
  /\ outcome (run ticks g) = outcome g.
Proof.
  revert g. induction ticks as [|t ticks IH]; intros g Hs H; [now repeat split|].
  cbn [never_restarts] in H. apply andb_true_iff in H as [H1 H2].
  apply negb_true_iff in H1.
  destruct (idle_frame t g) as [p Hp]; [congruence|exact H1|].
  assert (Hs' : gameState (Update t g) = EndState) by (rewrite Hp; exact Hs).
  destruct (IH _ Hs' H2) as (I1 & I2 & I3 & I4 & I5).
  cbn [transitions]. unfold fires. rewrite Hs, I1.
  change (run (t :: ticks) g) with (run ticks (Update t g)).
  rewrite I2, I3, I4, I5, Hp. now repeat split.
Qed.

(** C7.  In [PlayingState] the countdown is not negative after an update,
    whatever the elapsed time, and over a whole session it never becomes
    negative.  A frame in [PlayingState] goes to [EndState] exactly when the
    countdown reaches or crosses zero in it, and then leaves the countdown
    at 0.  So in a session that starts in [PlayingState], with the first
    expiry in frame [t] and no activation of the start control afterwards,
    the transition happens once, in [t]; the frames after it change neither
    the state, the countdown, the board nor the outcome. *)
Theorem countdown_fires_once :
  (forall t g, gameState g = PlayingState -> (0 <= timeLeft (Update t g))%Q)
  /\ (forall ticks g, (0 <= timeLeft g)%Q -> (0 <= timeLeft (run ticks g))%Q)
  /\ (forall t g,
      gameState g = PlayingState ->
      fires t g = expires t g
      /\ gameState (Update t g) = (if expires t g then EndState else PlayingState)
      /\ (expires t g = true -> timeLeft (Update t g) = 0%Q))
  /\ (forall ticks g,
      gameState g = PlayingState -> never_expires ticks g = true ->
      transitions ticks g = 0%nat /\ gameState (run ticks g) = PlayingState)
  /\ (forall pre t post g,
      gameState g = PlayingState ->
      never_expires pre g = true ->
      expires t (run pre g) = true ->
      never_restarts post (run (pre ++ [t]) g) = true ->
      transitions (pre ++ [t]) g = 1%nat
      /\ transitions (pre ++ t :: post) g = 1%nat
      /\ gameState (run (pre ++ t :: post) g) = EndState
      /\ timeLeft (run (pre ++ t :: post) g) = 0%Q
      /\ board (run (pre ++ t :: post) g) = board (run (pre ++ [t]) g)
      /\ outcome (run (pre ++ t :: post) g) = outcome (run (pre ++ [t]) g)).
Proof.
  split; [exact playing_frame_not_negative|]. split; [|split; [|split]].
  - intros ticks. unfold run. induction ticks as [|t ticks IH]; intros g H; [exact H|].
    cbn [fold_left]. apply IH. now apply Update_not_negative.
  - intros t g Hs. split; [now apply playing_frame_fires|].
    split; [now apply playing_frame_gameState|].
    intros He. now rewrite (playing_frame_timeLeft t g Hs), He.
  - exact playing_run.
  - intros pre t post g Hs Hpre Ht Hpost.
    destruct (playing_run pre g Hs Hpre) as [P1 P2].
    assert (F1 : transitions (pre ++ [t]) g = 1%nat).
    { rewrite transitions_app, P1. cbn [transitions].
      rewrite (playing_frame_fires t _ P2), Ht. reflexivity. }
    assert (S1 : gameState (run (pre ++ [t]) g) = EndState).
    { rewrite run_app. change (run [t] (run pre g)) with (Update t (run pre g)).
      now rewrite (playing_frame_gameState t _ P2), Ht. }
    assert (T1 : timeLeft (run (pre ++ [t]) g) = 0%Q).
    { rewrite run_app. change (run [t] (run pre g)) with (Update t (run pre g)).
      now rewrite (playing_frame_timeLeft t _ P2), Ht. }
    destruct (ended_run post _ S1 Hpost) as (E1 & E2 & E3 & E4 & E5).
    split; [exact F1|].
    replace (pre ++ t :: post) with ((pre ++ [t]) ++ post)
      by (rewrite <- app_assoc; reflexivity).
    rewrite (transitions_app (pre ++ [t]) post), F1, E1, (run_app (pre ++ [t]) post).
    rewrite E2, E3, E4, E5, T1. now repeat split.
Qed.

Lemma countdown_fires_once_witness :
  gameState first_round = PlayingState
  /\ never_expires [pick_3_4] first_round = true
  /\ expires time_up (run [pick_3_4] first_round) = true
  /\ never_restarts [time_up; pick_3_4] (run ([pick_3_4] ++ [time_up]) first_round) = true
  /\ transitions ([pick_3_4] ++ time_up :: [time_up; pick_3_4]) first_round = 1%nat
  /\ timeLeft (run ([pick_3_4] ++ time_up :: [time_up; pick_3_4]) first_round) = 0%Q.
Proof.
  assert (H1 : gameState first_round = PlayingState) by (vm_compute; reflexivity).
  assert (H2 : never_expires [pick_3_4] first_round = true) by (vm_compute; reflexivity).
  assert (H3 : expires time_up (run [pick_3_4] first_round) = true)
    by (vm_compute; reflexivity).
  assert (H4 : never_restarts [time_up; pick_3_4]
                 (run ([pick_3_4] ++ [time_up]) first_round) = true)
    by (vm_compute; reflexivity).
  destruct (proj2 (proj2 (proj2 (proj2 countdown_fires_once)))
              [pick_3_4] time_up [time_up; pick_3_4] first_round H1 H2 H3 H4)
    as (_ & K2 & _ & K4 & _).
  repeat split; assumption.
Defined.

(** * Further properties of the code *)

(** ** The neighbour query *)

Lemma BoardPosition_eta (q : BoardPosition) : mkPos (row q) (column q) = q.
Proof. now destruct q. Qed.

Lemma BoardPosition_eq (q : BoardPosition) (a b : Z) :
  q = mkPos a b <-> row q = a /\ column q = b.
Proof.
  split; [intros ->; now split|]. intros [<- <-]. now rewrite BoardPosition_eta.
Qed.

Lemma NoDup_filter_list {A : Type} (f : A -> bool) (l : list A) :
  NoDup l -> NoDup (filter f l).
Proof.
  induction 1 as [|a l Ha Hl IH]; simpl; [constructor|].
  destruct (f a); [|exact IH]. constructor; [|exact IH].
  rewrite filter_In. tauto.
Qed.

Lemma filter_length_le {A : Type} (f : A -> bool) (l : list A) :
  (length (filter f l) <= length l)%nat.
Proof. induction l as [|a l IH]; simpl; [lia|]. destruct (f a); simpl; lia. Qed.

(** X1.  Around an anchor of the board, [TilesAroundATileWithAnState]
    returns at most four positions, without repetition, and a position is
    returned exactly when it lies on the board, holds the state asked for and
    is two rows above or below the anchor in its column, or two columns left
    or right of it in its row: the guards keep every index inside the
    array. *)
Theorem TilesAround_on_board (g : game) (r c : Z) (st : TileState) :
  in_board g r c = true ->
  let l := TilesAroundATileWithAnState g r c st in
  (length l <= 4)%nat
  /\ NoDup l
  /\ forall q,
       In q l
       <-> in_board g (row q) (column q) = true
           /\ state (board g (row q) (column q)) = st
           /\ ((column q = c /\ (row q = r - 2 \/ row q = r + 2))
               \/ (row q = r /\ (column q = c - 2 \/ column q = c + 2))).
Proof.
  intros Hin. cbv zeta. rewrite (TilesAround_candidates_spec g r c st Hin).
  unfold candidates_spec, probes_spec. cbn [row column].
  split; [|split].
  - etransitivity; [apply filter_length_le|]. simpl. lia.
  - apply NoDup_filter_list.
    repeat constructor; cbn [In]; intros H;
      repeat (destruct H as [H|H]; [inversion H; lia|]); exact H.
  - intros q. rewrite filter_In. cbn [In].
    rewrite andb_true_iff, TileState_eqb_eq. split.
    + intros [[H|[H|[H|[H|[]]]]] [H1 H2]]; subst q; cbn [row column] in *;
        (split; [exact H1|split; [exact H2|lia]]).
    + intros (H1 & H2 & H3). split; [|now split].
      destruct q as [a b]; cbn [row column] in *.
      destruct H3 as [[E1 [E2|E2]]|[E1 [E2|E2]]]; subst a b; auto.
Qed.

Lemma TilesAround_on_board_witness :
  in_board first_round 2 2 = true
  /\ (length (TilesAroundATileWithAnState first_round 2 2 CenterTile) <= 4)%nat
  /\ NoDup (TilesAroundATileWithAnState first_round 2 2 CenterTile).
Proof.
  assert (H : in_board first_round 2 2 = true) by (vm_compute; reflexivity).
  split; [exact H|].
  destruct (TilesAround_on_board first_round 2 2 CenterTile H) as (H1 & H2 & _).
  split; [exact H1|exact H2].
Defined.

(** ** Looking up the player's choice *)

Lemma FindPlayerPosition_found (g : game) (p : BoardPosition) :
  FindPlayerPosition g = (true, p) ->
  in_board g (row p) (column p) = true
  /\ state (board g (row p) (column p)) = PlayerTile.
Proof.
  unfold FindPlayerPosition.
  destruct (find _ (board_cells g)) as [[r c]|] eqn:Ef; [|discriminate].
  intros [= <-]. apply find_some in Ef as [Hin Hst]. cbn [fst snd row column] in *.
  split; [now apply in_board_cells|now apply TileState_eqb_eq].
Qed.

Lemma FindPlayerPosition_none (g : game) :
  fst (FindPlayerPosition g) = false
  <-> forall r c, in_board g r c = true -> state (board g r c) <> PlayerTile.
Proof.
  unfold FindPlayerPosition.
  destruct (find _ (board_cells g)) as [[r c]|] eqn:Ef; cbn [fst]; split.
  - discriminate.
  - intros H. apply find_some in Ef as [Hin Hst]. cbn [fst snd] in Hst.
    apply TileState_eqb_eq in Hst. apply in_board_cells in Hin.
    exfalso. exact (H r c Hin Hst).
  - intros _ r c Hin. apply in_board_cells in Hin.
    apply (find_none _ _ Ef) in Hin. cbn [fst snd] in Hin.
    now apply TileState_eqb_neq.
  - reflexivity.
Qed.

(** [FindPlayerPosition] only looks at which cells hold [PlayerTile]. *)
Lemma FindPlayerPosition_ext (g g' : game) :
  rows g' = rows g -> cols g' = cols g ->
  (forall r c, in_board g r c = true ->
               TileState_eqb (state (board g' r c)) PlayerTile
               = TileState_eqb (state (board g r c)) PlayerTile) ->
  FindPlayerPosition g' = FindPlayerPosition g.
Proof.
  intros Hr Hc H. unfold FindPlayerPosition, board_cells. rewrite Hr, Hc.
  rewrite (find_ext_in
             (fun rc => TileState_eqb (state (board g' (fst rc) (snd rc))) PlayerTile)
             (fun rc => TileState_eqb (state (board g (fst rc) (snd rc))) PlayerTile));
    [reflexivity|].
  intros [r c] Hin. cbn [fst snd]. apply H. now apply in_board_cells.
Qed.

Lemma FindPlayerPosition_unique (g : game) (r c : Z) :
  at_most_one PlayerTile g = true ->
  in_board g r c = true -> state (board g r c) = PlayerTile ->
  FindPlayerPosition g = (true, mkPos r c).
Proof.
  intros Hu Hin Hst.
  destruct (FindPlayerPosition g) as [[|] p] eqn:E.
  - destruct (FindPlayerPosition_found g p E) as [Hin' Hst'].
    rewrite at_most_one_spec in Hu.
    assert (Heq := Hu _ _ _ _ Hin' Hin Hst' Hst). inversion Heq.
    now rewrite BoardPosition_eta.
  - exfalso. assert (Hn : fst (FindPlayerPosition g) = false) by now rewrite E.
    rewrite FindPlayerPosition_none in Hn. exact (Hn r c Hin Hst).
Qed.

(** X2.  [FindPlayerPosition] reports no player exactly when no cell of
    the board holds [PlayerTile], and then returns the zero position; a
    position it reports lies on the board and holds [PlayerTile]; and when
    at most one cell holds [PlayerTile], as in play, it reports that cell. *)
Theorem FindPlayerPosition_spec (g : game) :
  (fst (FindPlayerPosition g) = false
   <-> forall r c, in_board g r c = true -> state (board g r c) <> PlayerTile)
  /\ (fst (FindPlayerPosition g) = false -> snd (FindPlayerPosition g) = zeroPosition)
  /\ (forall p, FindPlayerPosition g = (true, p) ->
                in_board g (row p) (column p) = true
                /\ state (board g (row p) (column p)) = PlayerTile)
  /\ (forall r c,
      at_most_one PlayerTile g = true ->
      in_board g r c = true -> state (board g r c) = PlayerTile ->
      FindPlayerPosition g = (true, mkPos r c)).
Proof.
  split; [apply FindPlayerPosition_none|]. split; [|split].
  - unfold FindPlayerPosition. destruct (find _ (board_cells g)) as [[r c]|];
      [discriminate|reflexivity].
  - apply FindPlayerPosition_found.
  - apply FindPlayerPosition_unique.
Qed.

Lemma FindPlayerPosition_spec_witness :
  at_most_one PlayerTile after_pick = true
  /\ in_board after_pick 3 4 = true
  /\ state (board after_pick 3 4) = PlayerTile
  /\ FindPlayerPosition after_pick = (true, mkPos 3 4).
Proof.
  assert (H1 : at_most_one PlayerTile after_pick = true) by (vm_compute; reflexivity).
  assert (H2 : in_board after_pick 3 4 = true) by (vm_compute; reflexivity).
  assert (H3 : state (board after_pick 3 4) = PlayerTile) by (vm_compute; reflexivity).
  split; [exact H1|]. split; [exact H2|]. split; [exact H3|].
  exact (proj2 (proj2 (proj2 (FindPlayerPosition_spec after_pick))) 3 4 H1 H2 H3).
Defined.

(** ** Clearing a state *)

(** X3.  After [RemoveTileWithState st], for a state other than
    [EmptyTile], no cell of the board holds [st]; a cell of the board that
    held it is empty and keeps its pixel position and rotation; every other
    cell keeps its tile; and removing twice is removing once. *)
Theorem RemoveTileWithState_post (st : TileState) (g : game) :
  st <> EmptyTile ->
  count_state st (RemoveTileWithState st g) = 0%nat
  /\ (forall r c,
      in_board g r c = true -> state (board g r c) = st ->
      board (RemoveTileWithState st g) r c
      = mkTile EmptyTile (x (board g r c)) (y (board g r c)) (rotation (board g r c)))
  /\ (forall r c,
      state (board g r c) <> st ->
      board (RemoveTileWithState st g) r c = board g r c)
  /\ (forall r c,
      board (RemoveTileWithState st (RemoveTileWithState st g)) r c
      = board (RemoveTileWithState st g) r c).
Proof.
  intros Hne.
  assert (Hpost : forall r c,
             state (board (RemoveTileWithState st g) r c) = st ->
             in_board g r c = false).
  { intros r c. rewrite RemoveTileWithState_board.
    destruct (in_board g r c); [|reflexivity]. cbn [andb].
    destruct (TileState_eqb (state (board g r c)) st) eqn:E.
    - cbn [state]. congruence.
    - apply TileState_eqb_neq in E. congruence. }
  split; [|split; [|split]].
  - unfold count_state.
    replace (filter _ _) with (@nil (Z * Z)); [reflexivity|].
    symmetry. apply filter_nil_iff. intros [r c] Hin. cbn [fst snd].
    apply TileState_eqb_neq. intros E. apply Hpost in E.
    apply in_board_cells in Hin. change (in_board g r c = true) in Hin. congruence.
  - intros r c Hin Hst. rewrite RemoveTileWithState_board, Hin, Hst.
    now rewrite TileState_eqb_refl.
  - intros r c Hst. rewrite RemoveTileWithState_board.
    apply TileState_eqb_neq in Hst. rewrite Hst. now rewrite andb_false_r.
  - intros r c. rewrite (RemoveTileWithState_board st (RemoveTileWithState st g)).
    destruct (TileState_eqb (state (board (RemoveTileWithState st g) r c)) st) eqn:E;
      [|now rewrite andb_false_r].
    apply TileState_eqb_eq in E. apply Hpost in E.
    change (in_board (RemoveTileWithState st g) r c) with (in_board g r c).
    rewrite E. reflexivity.
Qed.

Lemma RemoveTileWithState_post_witness :
  PlayerTile <> EmptyTile
  /\ state (board after_pick 3 4) = PlayerTile
  /\ count_state PlayerTile (RemoveTileWithState PlayerTile after_pick) = 0%nat.
Proof.
  assert (H : PlayerTile <> EmptyTile) by discriminate.
  split; [exact H|]. split; [vm_compute; reflexivity|].
  exact (proj1 (RemoveTileWithState_post PlayerTile after_pick H)).
Defined.

(** ** Choosing a cell *)

Lemma HandleMouseInBoard_pointed (t : tick) (g : game) :
  HandleMouseInBoard t g
  = match pointed_cell t g with
    | Some (r, c) =>
        SetTile c r (if pressed t then PlayerTile else MouseOverTile) g
    | None => g
    end.
Proof.
  unfold HandleMouseInBoard, pointed_cell.
  destruct (find _ (board_cells g)) as [[r c]|]; [|reflexivity].
  destruct (pressed t); reflexivity.
Qed.

Lemma pointed_cell_some (t : tick) (g : game) (r c : Z) :
  pointed_cell t g = Some (r, c) ->
  in_board g r c = true
  /\ (state (board g r c) = EmptyTile \/ state (board g r c) = MouseOverTile)
  /\ ShapeHit (x (board g r c)) (y (board g r c))
              (F32.of_int (cursorX t)) (F32.of_int (cursorY t)) = true.
Proof.
  unfold pointed_cell. intros H. apply find_some in H as [Hin Hhit].
  unfold selectable_hit in Hhit. cbn [fst snd] in Hhit.
  apply andb_true_iff in Hhit as [Hst Hs]. apply orb_true_iff in Hst.
  split; [now apply in_board_cells|]. split; [|exact Hs].
  destruct Hst as [H|H]; apply TileState_eqb_eq in H; auto.
Qed.

(** X4.  What a frame of pointer input does to the player's choice.  With
    no empty or hovered cell under the cursor the game is unchanged; with
    the button up the choice [FindPlayerPosition] reports is the one it
    reported before, whatever is hovered; with the button down on a cell that
    is empty or hovered, that cell is the choice afterwards and no other cell
    holds [PlayerTile]. *)
Theorem pointer_choice (t : tick) (g : game) :
  (pointed_cell t g = None -> HandleMouseInBoard t g = g)
  /\ (pressed t = false ->
      FindPlayerPosition (HandleMouseInBoard t g) = FindPlayerPosition g)
  /\ (forall r c,
      pressed t = true -> pointed_cell t g = Some (r, c) ->
      FindPlayerPosition (HandleMouseInBoard t g) = (true, mkPos r c)
      /\ count_state PlayerTile (HandleMouseInBoard t g) = 1%nat).
Proof.
  split; [|split].
  - intros H. now rewrite HandleMouseInBoard_pointed, H.
  - intros Hp. rewrite HandleMouseInBoard_pointed, Hp.
    destruct (pointed_cell t g) as [[r c]|] eqn:E; [|reflexivity].
    destruct (pointed_cell_some t g r c E) as (Hin & Hst & _).
    apply FindPlayerPosition_ext; [apply SetTile_rows|apply SetTile_cols|].
    intros r' c' Hin'. rewrite SetTile_mark_state, Hin' by reflexivity. cbn [andb].
    destruct (Z.eqb_spec r' r), (Z.eqb_spec c' c); cbn [andb];
      try (subst r' c'; destruct Hst as [-> | ->]; reflexivity);
      (destruct (TileState_eqb (state (board g r' c')) MouseOverTile) eqn:Em;
       [apply TileState_eqb_eq in Em; rewrite Em; reflexivity|reflexivity]).
  - intros r c Hp E. rewrite HandleMouseInBoard_pointed, E, Hp.
    destruct (pointed_cell_some t g r c E) as (Hin & _ & _).
    assert (Hu := SetTile_mark_unique c r PlayerTile g eq_refl).
    assert (Hin' : in_board (SetTile c r PlayerTile g) r c = true) by exact Hin.
    assert (Hst : state (board (SetTile c r PlayerTile g) r c) = PlayerTile)
      by (rewrite SetTile_mark_state by reflexivity; now rewrite !Z.eqb_refl).
    split; [now apply FindPlayerPosition_unique|].
    unfold at_most_one in Hu. apply Nat.leb_le in Hu.
    assert (Hpos : (0 < count_state PlayerTile (SetTile c r PlayerTile g))%nat).
    { unfold count_state.
      destruct (filter _ (board_cells (SetTile c r PlayerTile g))) eqn:Ef;
        [|simpl; lia].
      exfalso. rewrite filter_nil_iff in Ef.
      specialize (Ef (r, c) (proj2 (in_board_cells _ r c) Hin')).
      cbn [fst snd] in Ef. rewrite Hst in Ef. discriminate Ef. }
    lia.
Qed.

Lemma pointer_choice_witness :
  pressed pick_3_4 = true
  /\ pointed_cell pick_3_4 first_round = Some (3, 4)
  /\ FindPlayerPosition (HandleMouseInBoard pick_3_4 first_round) = (true, mkPos 3 4).
Proof.
  assert (H1 : pressed pick_3_4 = true) by reflexivity.
  assert (H2 : pointed_cell pick_3_4 first_round = Some (3, 4))
    by (vm_compute; reflexivity).
  split; [exact H1|]. split; [exact H2|].
  exact (proj1 (proj2 (proj2 (pointer_choice pick_3_4 first_round)) 3 4 H1 H2)).
Defined.

(** ** The outcome of [End] *)

Lemma check_between_accepted (g : game) (o p : BoardPosition) :
  accepted_between (centerSymbolPosition g) o p ->
  check_between g o p = set_win (set_objectiveSymbolPosition g p) true.
Proof.
  unfold accepted_between, check_between. cbv zeta. intros H.
  destruct ((row o =? row (centerSymbolPosition g))
            && (row (centerSymbolPosition g) =? row p)) eqn:E1.
  - destruct (column o <? column (centerSymbolPosition g)) eqn:E2.
    + destruct ((column p >? column o) && (column p <? column (centerSymbolPosition g)))
        eqn:E3; [reflexivity|lia].
    + destruct ((column p <? column o) && (column p >? column (centerSymbolPosition g)))
        eqn:E3; [reflexivity|lia].
  - destruct ((column o =? column (centerSymbolPosition g))
              && (column (centerSymbolPosition g) =? column p)) eqn:E2; [|lia].
    destruct ((row o <? row (centerSymbolPosition g))
              && (row (centerSymbolPosition g) <? row p)) eqn:E3; [lia|].
    destruct ((row p <? row o) && (row p >? row (centerSymbolPosition g))) eqn:E4;
      [reflexivity|lia].
Qed.

Lemma check_between_rejected (g : game) (o p : BoardPosition) :
  ~ accepted_between (centerSymbolPosition g) o p ->
  check_between g o p = g.
Proof.
  unfold accepted_between, check_between. cbv zeta. intros H.
  destruct ((row o =? row (centerSymbolPosition g))
            && (row (centerSymbolPosition g) =? row p)) eqn:E1.
  - destruct (column o <? column (centerSymbolPosition g)) eqn:E2.
    + destruct ((column p >? column o) && (column p <? column (centerSymbolPosition g)))
        eqn:E3; [exfalso; apply H; lia|reflexivity].
    + destruct ((column p <? column o) && (column p >? column (centerSymbolPosition g)))
        eqn:E3; [exfalso; apply H; lia|reflexivity].
  - destruct ((column o =? column (centerSymbolPosition g))
              && (column (centerSymbolPosition g) =? column p)) eqn:E2; [|reflexivity].
    destruct ((row o <? row (centerSymbolPosition g))
              && (row (centerSymbolPosition g) <? row p)) eqn:E3.
    + destruct ((row p >? row o) && (row p <? row (centerSymbolPosition g))) eqn:E4;
        [lia|reflexivity].
    + destruct ((row p <? row o) && (row p >? row (centerSymbolPosition g))) eqn:E4;
        [exfalso; apply H; lia|reflexivity].
Qed.

Lemma accepted_between_dec (c o p : BoardPosition) :
  accepted_between c o p \/ ~ accepted_between c o p.
Proof. unfold accepted_between. lia. Qed.

(** The three ways [End] can go once the resolution is named. *)
Lemma End_cases (g : game) :
  let g2 :=
    set_centerSymbolPosition
      (set_objectiveSymbolPosition (resolution_board g) (snd (resolution g)))
      (anchor g) in
  (fst (resolution g) = false
   /\ End g = set_gameState (resolution_board g) EndState)
  \/ (fst (resolution g) = true
      /\ (fst (FindPlayerPosition (resolution_board g)) = false
          \/ ~ accepted_between (anchor g) (snd (resolution g))
                 (snd (FindPlayerPosition (resolution_board g))))
      /\ End g = set_gameState g2 EndState)
  \/ (fst (resolution g) = true
      /\ fst (FindPlayerPosition (resolution_board g)) = true
      /\ accepted_between (anchor g) (snd (resolution g))
           (snd (FindPlayerPosition (resolution_board g)))
      /\ End g
         = set_gameState
             (set_win
                (set_objectiveSymbolPosition g2
                   (snd (FindPlayerPosition (resolution_board g))))
                true)
             EndState).
Proof.
  cbv zeta. rewrite End_unfold. cbv zeta.
  destruct (fst (resolution g)); [|left; now split].
  right.
  change (FindPlayerPosition
            (set_centerSymbolPosition
               (set_objectiveSymbolPosition (resolution_board g) (snd (resolution g)))
               (anchor g)))
    with (FindPlayerPosition (resolution_board g)).
  destruct (fst (FindPlayerPosition (resolution_board g))) eqn:Ep.
  - destruct (accepted_between_dec (anchor g) (snd (resolution g))
                (snd (FindPlayerPosition (resolution_board g)))) as [Ha|Hn].
    + right. rewrite check_between_accepted by exact Ha. now repeat split.
    + left. rewrite check_between_rejected by exact Hn. split; [reflexivity|].
      split; [now right|reflexivity].
  - left. split; [reflexivity|]. split; [now left|reflexivity].
Qed.

Lemma resolution_board_state (g : game) (r c : Z) :
  state (board (resolution_board g) r c)
  = if in_board g r c
       && is_symbol (state (board g (rows g - 1 - r) (cols g - 1 - c)))
    then state (board g (rows g - 1 - r) (cols g - 1 - c))
    else if in_board g r c && TileState_eqb (state (board g r c)) MouseOverTile
         then EmptyTile
         else state (board g r c).
Proof.
  unfold resolution_board. rewrite flip_board.
  change (in_board (RemoveTileWithState MouseOverTile g) r c) with (in_board g r c).
  change (rows (RemoveTileWithState MouseOverTile g)) with (rows g).
  change (cols (RemoveTileWithState MouseOverTile g)) with (cols g).
  rewrite !RemoveTileWithState_board, in_board_mirror.
  destruct (in_board g r c); cbn [andb]; [|reflexivity].
  destruct (TileState_eqb (state (board g (rows g - 1 - r) (cols g - 1 - c)))
                          MouseOverTile) eqn:Em.
  - apply TileState_eqb_eq in Em. rewrite Em. cbn [state is_symbol].
    destruct (TileState_eqb (state (board g r c)) MouseOverTile); reflexivity.
  - destruct (is_symbol (state (board g (rows g - 1 - r) (cols g - 1 - c))));
      [reflexivity|].
    destruct (TileState_eqb (state (board g r c)) MouseOverTile); reflexivity.
Qed.

Lemma resolution_board_player (g : game) (r c : Z) :
  state (board (resolution_board g) r c) = PlayerTile ->
  state (board g r c) = PlayerTile.
Proof.
  rewrite resolution_board_state.
  destruct (in_board g r c && is_symbol _) eqn:E.
  - apply andb_true_iff in E as [_ E]. intros H. rewrite H in E. discriminate E.
  - destruct (in_board g r c && TileState_eqb _ MouseOverTile); [discriminate|trivial].
Qed.

(** X5.  The outcome of [End] in its three cases.  Without a resolution
    the win flag and both markers stay.  With a resolution and a choice that
    [End] accepts as between the two, the win flag is set, the centre marker
    is the anchor and the objective marker is the player's cell.  With a
    resolution otherwise, the win flag stays, the centre marker is the anchor
    and the objective marker the resolved objective.  In every case the game
    is in [EndState] afterwards and the countdown is untouched. *)
Theorem End_outcome (g : game) :
  gameState (End g) = EndState
  /\ timeLeft (End g) = timeLeft g
  /\ (fst (resolution g) = false -> outcome (End g) = outcome g)
  /\ (fst (resolution g) = true ->
      fst (FindPlayerPosition (resolution_board g)) = true ->
      accepted_between (anchor g) (snd (resolution g))
        (snd (FindPlayerPosition (resolution_board g))) ->
      outcome (End g)
      = (true, anchor g, snd (FindPlayerPosition (resolution_board g))))
  /\ (fst (resolution g) = true ->
      fst (FindPlayerPosition (resolution_board g)) = false
      \/ ~ accepted_between (anchor g) (snd (resolution g))
             (snd (FindPlayerPosition (resolution_board g))) ->
      outcome (End g) = (win g, anchor g, snd (resolution g))).
Proof.
  split; [apply End_gameState|]. split; [apply End_timeLeft|].
  destruct (End_cases g) as [[Hf E]|[(Hf & Hn & E)|(Hf & Hp & Ha & E)]];
    cbv zeta in E; rewrite E; (split; [|split]); intros H1; try congruence;
    try reflexivity.
  - intros Hp Ha. destruct Hn as [Hn|Hn]; [congruence|contradiction].
  - intros [Hn|Hn]; [congruence|contradiction].
Qed.

Lemma End_outcome_witness :
  fst (resolution after_pick) = true
  /\ (fst (FindPlayerPosition (resolution_board after_pick)) = false
      \/ ~ accepted_between (anchor after_pick) (snd (resolution after_pick))
             (snd (FindPlayerPosition (resolution_board after_pick))))
  /\ outcome (End after_pick) = (false, mkPos 4 4, mkPos 2 4).
Proof.
  assert (H1 : fst (resolution after_pick) = true) by (vm_compute; reflexivity).
  assert (H2 : fst (FindPlayerPosition (resolution_board after_pick)) = false
               \/ ~ accepted_between (anchor after_pick) (snd (resolution after_pick))
                      (snd (FindPlayerPosition (resolution_board after_pick)))).
  { right. unfold accepted_between.
    replace (anchor after_pick) with (mkPos 4 4) by (vm_compute; reflexivity).
    replace (snd (resolution after_pick)) with (mkPos 2 4) by (vm_compute; reflexivity).
    replace (snd (FindPlayerPosition (resolution_board after_pick))) with (mkPos 3 4)
      by (vm_compute; reflexivity).
    cbn [row column]. lia. }
  split; [exact H1|]. split; [exact H2|].
  rewrite (proj2 (proj2 (proj2 (proj2 (End_outcome after_pick)))) H1 H2).
  vm_compute. reflexivity.
Defined.

(** X6.  [End] sets the win flag only for a choice that is in line with
    the centre and the objective and strictly between them: if the flag was
    clear before and is set after, an objective was resolved, a cell of the
    searched board holds [PlayerTile], and that cell shares the row of centre
    and objective with its column strictly between theirs, or shares their
    column with its row strictly between theirs. *)
Theorem End_win_sound (g : game) :
  win g = false -> win (End g) = true ->
  exists p,
    fst (resolution g) = true
    /\ FindPlayerPosition (resolution_board g) = (true, p)
    /\ state (board (resolution_board g) (row p) (column p)) = PlayerTile
    /\ centerSymbolPosition (End g) = anchor g
    /\ objectiveSymbolPosition (End g) = p
    /\ let c := anchor g in
       let o := snd (resolution g) in
       (row p = row c /\ row p = row o
        /\ Z.min (column c) (column o) < column p < Z.max (column c) (column o))
       \/ (column p = column c /\ column p = column o
           /\ Z.min (row c) (row o) < row p < Z.max (row c) (row o)).
Proof.
  intros Hw Hwin.
  destruct (End_cases g) as [[Hf E]|[(Hf & Hn & E)|(Hf & Hp & Ha & E)]];
    cbv zeta in E; rewrite E in Hwin |- *.
  - cbn in Hwin. congruence.
  - cbn in Hwin. congruence.
  - exists (snd (FindPlayerPosition (resolution_board g))).
    assert (Hfp : FindPlayerPosition (resolution_board g)
                  = (true, snd (FindPlayerPosition (resolution_board g))))
      by (destruct (FindPlayerPosition (resolution_board g)); cbn in *; congruence).
    split; [exact Hf|]. split; [exact Hfp|].
    split; [exact (proj2 (FindPlayerPosition_found _ _ Hfp))|].
    split; [reflexivity|]. split; [reflexivity|].
    cbv zeta. unfold accepted_between in Ha. lia.
Qed.

Lemma End_win_sound_witness :
  let g := run [mkTick 0 1500 500 true 0 0; mkTick 16 180 630 true 0 0] New in
  win g = false /\ win (End g) = true
  /\ exists p, FindPlayerPosition (resolution_board g) = (true, p)
               /\ objectiveSymbolPosition (End g) = p.
Proof.
  cbv zeta.
  set (g := run [mkTick 0 1500 500 true 0 0; mkTick 16 180 630 true 0 0] New).
  assert (H1 : win g = false) by (vm_compute; reflexivity).
  assert (H2 : win (End g) = true) by (vm_compute; reflexivity).
  split; [exact H1|]. split; [exact H2|].
  destruct (End_win_sound g H1 H2) as (p & _ & Hp & _ & _ & Ho & _).
  exists p. split; assumption.
Defined.

Lemma End_no_choice_win (g : game) :
  (forall r c, in_board g r c = true -> state (board g r c) <> PlayerTile) ->
  win (End g) = win g.
Proof.
  intros Hno.
  assert (Hfp : fst (FindPlayerPosition (resolution_board g)) = false).
  { apply FindPlayerPosition_none. intros r c Hin Hst.
    apply resolution_board_player in Hst. exact (Hno r c Hin Hst). }
  destruct (End_cases g) as [[Hf E]|[(Hf & Hn & E)|(Hf & Hp & Ha & E)]];
    cbv zeta in E; rewrite E; [reflexivity|reflexivity|congruence].
Qed.

(** X7.  No choice, no win: when no cell of the board holds [PlayerTile],
    [End] leaves the win flag as it was, and if it resolves an objective it
    shows the anchor and that objective. *)
Theorem End_without_choice (g : game) :
  (forall r c, in_board g r c = true -> state (board g r c) <> PlayerTile) ->
  win (End g) = win g
  /\ (fst (resolution g) = true ->
      centerSymbolPosition (End g) = anchor g
      /\ objectiveSymbolPosition (End g) = snd (resolution g)).
Proof.
  intros Hno.
  assert (Hfp : fst (FindPlayerPosition (resolution_board g)) = false).
  { apply FindPlayerPosition_none. intros r c Hin Hst.
    apply resolution_board_player in Hst. exact (Hno r c Hin Hst). }
  destruct (End_cases g) as [[Hf E]|[(Hf & Hn & E)|(Hf & Hp & Ha & E)]];
    cbv zeta in E; rewrite E.
  - split; [reflexivity|congruence].
  - split; [reflexivity|]. intros _. split; reflexivity.
  - congruence.
Qed.

Lemma End_without_choice_witness :
  (forall r c, in_board first_round r c = true ->
               state (board first_round r c) <> PlayerTile)
  /\ win (End first_round) = false.
Proof.
  assert (H : forall r c, in_board first_round r c = true ->
                          state (board first_round r c) <> PlayerTile).
  { apply FindPlayerPosition_none. vm_compute. reflexivity. }
  split; [exact H|].
  rewrite (proj1 (End_without_choice first_round H)). vm_compute. reflexivity.
Defined.

Lemma resolution_board_keeps_choice (g : game) :
  mirror_closed g = true ->
  FindPlayerPosition (resolution_board g) = FindPlayerPosition g.
Proof.
  intros Hc. apply FindPlayerPosition_ext; [reflexivity|reflexivity|].
  intros r c Hin. rewrite resolution_board_state, Hin. cbn [andb].
  rewrite (mirror_closed_spec g Hc r c Hin).
  destruct (is_symbol (state (board g r c))) eqn:Es.
  - assert (Hm := mirror_closed_spec g Hc r c Hin). rewrite Es in Hm.
    destruct (state (board g r c)); try discriminate Es;
      destruct (state (board g (rows g - 1 - r) (cols g - 1 - c)));
      try discriminate Hm; reflexivity.
  - destruct (TileState_eqb (state (board g r c)) MouseOverTile) eqn:Em; [|reflexivity].
    apply TileState_eqb_eq in Em. rewrite Em. reflexivity.
Qed.

(** X8.  When the cells holding a symbol are closed under the reflection,
    as on every board of play, [End] does not touch the player's choice:
    [FindPlayerPosition] reports after [End] what it reported before. *)
Theorem End_keeps_choice (g : game) :
  mirror_closed g = true ->
  FindPlayerPosition (End g) = FindPlayerPosition g.
Proof.
  intros Hc. rewrite <- (resolution_board_keeps_choice g Hc).
  apply FindPlayerPosition_ext; [exact (End_rows g)|exact (End_cols g)|].
  intros r c _. now rewrite End_board.
Qed.

Lemma End_keeps_choice_witness :
  mirror_closed after_pick = true
  /\ FindPlayerPosition (End after_pick) = (true, mkPos 3 4).
Proof.
  assert (H : mirror_closed after_pick = true) by (vm_compute; reflexivity).
  split; [exact H|].
  rewrite (End_keeps_choice after_pick H). vm_compute. reflexivity.
Defined.

(** ** The state machine of [Update] *)

Lemma fields_gameState (g : game) st t o c w :
  gameState (set_win (set_objective (set_timeLeft (set_gameState g st) t) o c) w) = st.
Proof. reflexivity. Qed.

Lemma Reset_gameState (rnd2 rnd4 : Z) (g : game) :
  gameState (Reset rnd2 rnd4 g) = PlayingState.
Proof. unfold Reset. apply fields_gameState. Qed.

Lemma idle_frame_gameState (t : tick) (g : game) :
  gameState g <> PlayingState ->
  gameState (Update t g) = if restarts t g then PlayingState else gameState g.
Proof.
  intros Hs. unfold restarts, Update, UpdateButtons.
  destruct (gameState g) eqn:Es; try congruence;
    (destruct (ButtonHit _ _ _); cbn [andb]; [|exact Es]);
    (destruct (pressed t); [apply Reset_gameState|exact Es]).
Qed.

(** X9.  The transitions of [Update], all of them.  From [StandByState]
    and from [EndState] the game goes to [PlayingState] when the start
    control is activated and stays otherwise; from [PlayingState] it goes to
    [EndState] when the countdown expires and stays otherwise.  So a session
    that has left [StandByState] never comes back to it. *)
Theorem Update_transitions :
  (forall t g,
      gameState (Update t g)
      = match gameState g with
        | StandByState => if restarts t g then PlayingState else StandByState
        | PlayingState => if expires t g then EndState else PlayingState
        | EndState => if restarts t g then PlayingState else EndState
        end)
  /\ (forall ticks g,
      gameState g <> StandByState -> gameState (run ticks g) <> StandByState).
Proof.
  assert (Hstep : forall t g,
             gameState (Update t g)
             = match gameState g with
               | StandByState => if restarts t g then PlayingState else StandByState
               | PlayingState => if expires t g then EndState else PlayingState
               | EndState => if restarts t g then PlayingState else EndState
               end).
  { intros t g. destruct (gameState g) eqn:Es.
    - rewrite idle_frame_gameState by congruence. now rewrite Es.
    - now apply playing_frame_gameState.
    - rewrite idle_frame_gameState by congruence. now rewrite Es. }
  split; [exact Hstep|].
  intros ticks. unfold run. induction ticks as [|t ticks IH]; intros g Hs; [exact Hs|].
  cbn [fold_left]. apply IH. rewrite Hstep.
  destruct (gameState g); try congruence;
    [destruct (expires t g)|destruct (restarts t g)]; discriminate.
Qed.

Lemma Update_transitions_witness :
  gameState first_round <> StandByState
  /\ gameState (run [pick_3_4; time_up; press_start] first_round) <> StandByState.
Proof.
  assert (H : gameState first_round <> StandByState) by (vm_compute; discriminate).
  split; [exact H|].
  exact (proj2 Update_transitions [pick_3_4; time_up; press_start] first_round H).
Defined.

(** ** The board [Reset] lays out *)

Lemma in_board_5_7 (g : game) (r c : Z) :
  rows g = NUM_ROWS -> cols g = NUM_COLS -> in_board g r c = true ->
  (r = 0 \/ r = 1 \/ r = 2 \/ r = 3 \/ r = 4)
  /\ (c = 0 \/ c = 1 \/ c = 2 \/ c = 3 \/ c = 4 \/ c = 5 \/ c = 6).
Proof.
  unfold in_board, NUM_ROWS, NUM_COLS. intros -> ->. lia.
Qed.


(** ** The resolution reads symbols only *)

Lemma symbol_of_eqb (s s' st : TileState) :
  symbol_of s = symbol_of s' -> is_symbol st = true ->
  TileState_eqb s st = TileState_eqb s' st.
Proof. destruct s, s', st; cbn; intros H1 H2; congruence. Qed.

Lemma symbol_of_is_symbol (s s' : TileState) :
  symbol_of s = symbol_of s' -> is_symbol s = is_symbol s'.
Proof. destruct s, s'; cbn; intros H; congruence. Qed.

Lemma symbol_of_symbol (s s' : TileState) :
  symbol_of s = symbol_of s' -> is_symbol s = true -> s = s'.
Proof. destruct s, s'; cbn; intros H1 H2; congruence. Qed.

Lemma same_symbols_in_board (g g' : game) (r c : Z) :
  same_symbols g g' -> in_board g' r c = in_board g r c.
Proof. intros (Hr & Hc & _). unfold in_board. now rewrite Hr, Hc. Qed.

Lemma same_symbols_resolution_board (g g' : game) :
  same_symbols g g' -> same_symbols (resolution_board g) (resolution_board g').
Proof.
  intros H. assert (Hin := fun r c => same_symbols_in_board g g' r c H).
  destruct H as (Hr & Hc & Hs & Hk & Hb).
  split; [exact Hr|]. split; [exact Hc|]. split; [exact Hs|]. split; [exact Hk|].
  intros r c Hrc. change (in_board g r c = true) in Hrc.
  rewrite !resolution_board_state, Hin, Hr, Hc, Hrc. cbn [andb].
  assert (Hm : in_board g (rows g - 1 - r) (cols g - 1 - c) = true)
    by now rewrite in_board_mirror.
  assert (E1 := Hb _ _ Hm). assert (E2 := Hb _ _ Hrc).
  rewrite (symbol_of_is_symbol _ _ E1).
  destruct (is_symbol (state (board g (rows g - 1 - r) (cols g - 1 - c)))) eqn:Es.
  - f_equal. symmetry. apply symbol_of_symbol; [now symmetry|exact Es].
  - destruct (state (board g' r c)), (state (board g r c));
      cbn in E2 |- *; congruence.
Qed.

Lemma same_symbols_TilesAround (g g' : game) (r c : Z) (st : TileState) :
  same_symbols g g' -> in_board g r c = true -> is_symbol st = true ->
  TilesAroundATileWithAnState g' r c st = TilesAroundATileWithAnState g r c st.
Proof.
  intros H Hrc Hst. assert (Hin := fun r c => same_symbols_in_board g g' r c H).
  rewrite (TilesAround_candidates_spec g r c st Hrc).
  rewrite (TilesAround_candidates_spec g' r c st) by now rewrite Hin.
  destruct H as (_ & _ & _ & _ & Hb).
  unfold candidates_spec. apply filter_ext. intros q. rewrite Hin.
  destruct (in_board g (row q) (column q)) eqn:Eq; [|reflexivity]. cbn [andb].
  apply symbol_of_eqb; [now apply Hb|exact Hst].
Qed.

Lemma same_symbols_find_objectiveRow (g g' : game) (col : Z) :
  same_symbols g g' -> 0 <= col < cols g ->
  find_objectiveRow g' col = find_objectiveRow g col.
Proof.
  intros (Hr & _ & _ & _ & Hb) Hcol. unfold find_objectiveRow. rewrite Hr.
  rewrite (find_ext_in
             (fun r => TileState_eqb (state (board g' r col)) CenterTile)
             (fun r => TileState_eqb (state (board g r col)) CenterTile));
    [reflexivity|].
  intros r Hin. apply in_range in Hin.
  apply symbol_of_eqb; [|reflexivity]. apply Hb. unfold in_board. lia.
Qed.

Lemma same_symbols_select_objective (g g' : game) (r c : Z) :
  same_symbols g g' -> in_board g r c = true ->
  is_symbol (symbolObjective g) = true ->
  select_objective g' r c = select_objective g r c.
Proof.
  intros H Hrc Hst. unfold select_objective.
  assert (Hs : symbolObjective g' = symbolObjective g) by apply H.
  rewrite Hs, (same_symbols_TilesAround g g' r c _ H Hrc Hst).
  cbv zeta.
  rewrite (find_ext_in
             (fun p => Z.of_nat (length (TilesAroundATileWithAnState
                                           g' (row p) (column p) CenterTile)) =? 1)
             (fun p => Z.of_nat (length (TilesAroundATileWithAnState
                                           g (row p) (column p) CenterTile)) =? 1));
    [reflexivity|].
  intros p Hp. rewrite (TilesAround_candidates_spec g r c _ Hrc) in Hp.
  apply candidates_spec_in_board in Hp.
  now rewrite (same_symbols_TilesAround g g' _ _ CenterTile H Hp eq_refl).
Qed.

Lemma same_symbols_anchor (g g' : game) :
  same_symbols g g' -> 0 <= columnObjective g * 2 < cols g ->
  anchor g' = anchor g.
Proof.
  intros H Hc. assert (Hb := same_symbols_resolution_board g g' H).
  assert (Hk : columnObjective g' = columnObjective g) by apply H.
  unfold anchor. cbv zeta.
  change (columnObjective (resolution_board g')) with (columnObjective g').
  change (columnObjective (resolution_board g)) with (columnObjective g).
  rewrite Hk. f_equal.
  apply (same_symbols_find_objectiveRow _ _ _ Hb). exact Hc.
Qed.

Lemma same_symbols_resolution (g g' : game) :
  same_symbols g g' ->
  0 < rows g -> 0 <= columnObjective g * 2 < cols g ->
  is_symbol (symbolObjective g) = true ->
  resolution g' = resolution g.
Proof.
  intros H Hr Hc Hst. unfold resolution. rewrite (same_symbols_anchor g g' H Hc).
  apply same_symbols_select_objective;
    [now apply same_symbols_resolution_board
    |apply anchor_in_board; assumption|exact Hst].
Qed.

Lemma same_symbols_5_7 (g g' : game) :
  rows g = NUM_ROWS -> cols g = NUM_COLS ->
  rows g' = NUM_ROWS -> cols g' = NUM_COLS ->
  symbolObjective g' = symbolObjective g ->
  columnObjective g' = columnObjective g ->
  forallb
    (fun rc =>
       TileState_eqb (symbol_of (state (board g' (fst rc) (snd rc))))
                     (symbol_of (state (board g (fst rc) (snd rc)))))
    (cells NUM_ROWS NUM_COLS) = true ->
  same_symbols g g'.
Proof.
  intros Hr Hc Hr' Hc' Hs Hk Hb.
  split; [congruence|]. split; [congruence|]. split; [exact Hs|]. split; [exact Hk|].
  intros r c Hin. rewrite forallb_forall in Hb.
  apply TileState_eqb_eq. apply (Hb (r, c)).
  apply in_board_cells in Hin. unfold board_cells in Hin. now rewrite Hr, Hc in Hin.
Qed.

(** X11.  The resolution depends on the symbols alone.  Two games of the
    same size and objective whose boards hold the same Alpha, Beta and
    Center cells have the same anchor and the same resolution, whatever their
    other cells hold: hover marks, the player's choice, empty and invalid
    cells never influence which objective [End] finds. *)
Theorem resolution_reads_symbols (g g' : game) :
  same_symbols g g' ->
  0 < rows g -> 0 <= columnObjective g * 2 < cols g ->
  is_symbol (symbolObjective g) = true ->
  anchor g' = anchor g /\ resolution g' = resolution g.
Proof.
  intros H Hr Hc Hst. split.
  - now apply same_symbols_anchor.
  - now apply same_symbols_resolution.
Qed.

Lemma resolution_reads_symbols_witness :
  same_symbols first_round after_pick
  /\ 0 < rows first_round
  /\ 0 <= columnObjective first_round * 2 < cols first_round
  /\ is_symbol (symbolObjective first_round) = true
  /\ state (board after_pick 3 4) <> state (board first_round 3 4)
  /\ resolution after_pick = resolution first_round.
Proof.
  assert (H1 : same_symbols first_round after_pick)
    by (apply same_symbols_5_7; vm_compute; reflexivity).
  assert (H2 : 0 < rows first_round) by (vm_compute; reflexivity).
  assert (H3 : 0 <= columnObjective first_round * 2 < cols first_round)
    by (vm_compute; split; [discriminate|reflexivity]).
  assert (H4 : is_symbol (symbolObjective first_round) = true)
    by (vm_compute; reflexivity).
  split; [exact H1|]. split; [exact H2|]. split; [exact H3|]. split; [exact H4|].
  split; [vm_compute; discriminate|].
  exact (proj2 (resolution_reads_symbols first_round after_pick H1 H2 H3 H4)).
Defined.

(** ** What every game of a session satisfies *)

Lemma layout_shape_spec (g : game) :
  layout_shape g = true
  <-> forall r c, in_board g r c = true ->
                  symbol_of (state (board g r c)) = symbol_of (reset_state r c).
Proof.
  unfold layout_shape. rewrite forallb_forall. split.
  - intros H r c Hin. apply TileState_eqb_eq.
    apply (H (r, c)). now apply in_board_cells.
  - intros H [r c] Hin. cbn [fst snd]. apply TileState_eqb_eq. apply H.
    now apply in_board_cells.
Qed.

Lemma layout_shape_keep (g g' : game) :
  rows g' = rows g -> cols g' = cols g ->
  (forall r c, in_board g r c = true ->
               symbol_of (state (board g' r c)) = symbol_of (state (board g r c))) ->
  layout_shape g = true -> layout_shape g' = true.
Proof.
  intros Hr Hc Hb H. rewrite layout_shape_spec in H |- *.
  intros r c Hin. assert (Hin' : in_board g r c = true)
    by (unfold in_board in *; now rewrite <- Hr, <- Hc).
  rewrite Hb by exact Hin'. now apply H.
Qed.

Lemma SetTile_xy (c r : Z) (st : TileState) (g : game) (r' c' : Z) :
  x (board (SetTile c r st g) r' c') = x (board g r' c')
  /\ y (board (SetTile c r st g) r' c') = y (board g r' c').
Proof.
  rewrite SetTile_board. cbv zeta.
  assert (Hrem : forall r0 c0,
             x (board (if is_mark st then RemoveTileWithState st g else g) r0 c0)
             = x (board g r0 c0)
             /\ y (board (if is_mark st then RemoveTileWithState st g else g) r0 c0)
                = y (board g r0 c0)).
  { intros r0 c0. destruct (is_mark st); [|now split].
    rewrite RemoveTileWithState_board.
    destruct (in_board g r0 c0 && _); now split. }
  destruct (Z.eqb_spec r' r), (Z.eqb_spec c' c); cbn [andb x y];
    try apply Hrem. subst. apply Hrem.
Qed.

Lemma SetTile_objective (c r : Z) (st : TileState) (g : game) :
  symbolObjective (SetTile c r st g) = symbolObjective g
  /\ columnObjective (SetTile c r st g) = columnObjective g.
Proof. destruct st; now split. Qed.

Lemma HandleMouseInBoard_symbol_of (t : tick) (g : game) (r c : Z) :
  symbol_of (state (board (HandleMouseInBoard t g) r c))
  = symbol_of (state (board g r c)).
Proof.
  destruct (HandleMouseInBoard_cases t g) as [E|(r0 & c0 & st & _ & Hfree & Est & E)];
    rewrite E; [reflexivity|].
  assert (Hst : is_mark st = true) by (subst st; destruct (pressed t); reflexivity).
  rewrite SetTile_mark_state by exact Hst.
  destruct (Z.eqb_spec r r0), (Z.eqb_spec c c0); cbn [andb];
    try (subst r c; destruct Hfree as [-> | ->]; destruct st; try discriminate Hst;
         reflexivity);
    (destruct (in_board g r c); cbn [andb]; [|reflexivity];
     destruct (TileState_eqb (state (board g r c)) st) eqn:Eq; [|reflexivity];
     apply TileState_eqb_eq in Eq; rewrite Eq; destruct st; try discriminate Hst;
     reflexivity).
Qed.

Lemma play_invariant_HandleMouseInBoard (t : tick) (g : game) :
  play_invariant g -> play_invariant (HandleMouseInBoard t g).
Proof.
  intros (Hr & Hc & Hcp & Hop & Hxy & Hplay).
  assert (Ho := HandleMouseInBoard_outcome t g). unfold outcome in Ho.
  assert (Ecp := f_equal (fun p => snd (fst p)) Ho).
  assert (Eop := f_equal snd Ho). cbn [fst snd] in Ecp, Eop.
  assert (Hin : forall r c, in_board (HandleMouseInBoard t g) r c = in_board g r c)
    by (intros; unfold in_board;
        now rewrite HandleMouseInBoard_rows, HandleMouseInBoard_cols).
  split; [now rewrite HandleMouseInBoard_rows|].
  split; [now rewrite HandleMouseInBoard_cols|].
  split; [now rewrite Hin, Ecp|]. split; [now rewrite Hin, Eop|].
  rewrite HandleMouseInBoard_gameState. split.
  - intros Hs r c Hrc. rewrite Hin in Hrc.
    destruct (Hxy Hs r c Hrc) as [Ex Ey].
    destruct (HandleMouseInBoard_cases t g) as [E|(r0 & c0 & st & _ & _ & _ & E)];
      rewrite E; [now split|].
    destruct (SetTile_xy c0 r0 st g r c) as [Ex' Ey']. now rewrite Ex', Ey'.
  - intros Hs. destruct (Hplay Hs) as (Hl & Hsym & Hcol).
    split; [|].
    + apply (layout_shape_keep g);
        [apply HandleMouseInBoard_rows|apply HandleMouseInBoard_cols| |exact Hl].
      intros r c _. apply HandleMouseInBoard_symbol_of.
    + destruct (HandleMouseInBoard_cases t g) as [E|(r0 & c0 & st & _ & _ & _ & E)];
        rewrite E; [now split|].
      destruct (SetTile_objective c0 r0 st g) as [E1 E2]. now rewrite E1, E2.
Qed.

Lemma play_invariant_UpdateBoard (g : game) :
  play_invariant g -> play_invariant (UpdateBoard g).
Proof.
  intros (Hr & Hc & Hcp & Hop & Hxy & Hplay).
  split; [exact Hr|]. split; [exact Hc|]. split; [exact Hcp|]. split; [exact Hop|].
  split.
  - intros Hs r c Hrc. change (in_board g r c = true) in Hrc.
    destruct (Hxy Hs r c Hrc) as [Ex Ey]. rewrite UpdateBoard_board.
    destruct (in_board g r c && _); cbn [x y]; now split.
  - intros Hs. destruct (Hplay Hs) as (Hl & Hrest). split; [|exact Hrest].
    apply (layout_shape_keep g); [reflexivity|reflexivity| |exact Hl].
    intros r c _. rewrite UpdateBoard_board.
    destruct (in_board g r c && _); reflexivity.
Qed.

Lemma select_objective_found (g : game) (r c : Z) :
  fst (select_objective g r c) = true ->
  In (snd (select_objective g r c))
     (TilesAroundATileWithAnState g r c (symbolObjective g)).
Proof.
  unfold select_objective. cbv zeta.
  destruct (TilesAroundATileWithAnState g r c (symbolObjective g)) as [|q l] eqn:El.
  - cbn. discriminate.
  - destruct (Z.of_nat (length (q :: l)) >? 0); [|cbn; discriminate].
    destruct (Z.of_nat (length (q :: l)) =? 1); [intros _; now left|].
    destruct (find _ (q :: l)) as [p|] eqn:Ef; [|cbn; discriminate].
    intros _. cbn [snd]. now apply find_some in Ef as [Hin _].
Qed.

Lemma resolution_in_board (g : game) :
  0 < rows g -> 0 <= columnObjective g * 2 < cols g ->
  fst (resolution g) = true ->
  in_board g (row (snd (resolution g))) (column (snd (resolution g))) = true.
Proof.
  intros Hr Hc Hf. unfold resolution in *. apply select_objective_found in Hf.
  assert (Ha := anchor_in_board g Hr Hc).
  rewrite (TilesAround_candidates_spec _ _ _ _ Ha) in Hf.
  apply candidates_spec_in_board in Hf. exact Hf.
Qed.

Lemma End_xy (g : game) (r c : Z) :
  x (board (End g) r c) = x (board g r c) /\ y (board (End g) r c) = y (board g r c).
Proof.
  rewrite End_board, flip_board.
  assert (Hrem : x (board (RemoveTileWithState MouseOverTile g) r c) = x (board g r c)
                 /\ y (board (RemoveTileWithState MouseOverTile g) r c)
                    = y (board g r c)).
  { rewrite RemoveTileWithState_board. destruct (in_board g r c && _); now split. }
  destruct (in_board _ r c && _); cbn [x y]; exact Hrem.
Qed.

(** [End] on a game that is being played. *)
Lemma play_invariant_End (g : game) :
  play_invariant g -> gameState g = PlayingState -> play_invariant (End g).
Proof.
  intros (Hr & Hc & Hcp & Hop & Hxy & Hplay) Hs.
  destruct (Hplay Hs) as (_ & _ & Hcol).
  assert (Hr0 : 0 < rows g) by (rewrite Hr; reflexivity).
  assert (Hc0 : 0 <= columnObjective g * 2 < cols g)
    by (rewrite Hc; unfold NUM_COLS; lia).
  assert (Hin : forall r c, in_board (End g) r c = in_board g r c)
    by (intros; unfold in_board; now rewrite End_rows, End_cols).
  split; [now rewrite End_rows|]. split; [now rewrite End_cols|].
  assert (Hmarks :
            in_board g (row (centerSymbolPosition (End g)))
                     (column (centerSymbolPosition (End g))) = true
            /\ in_board g (row (objectiveSymbolPosition (End g)))
                        (column (objectiveSymbolPosition (End g))) = true).
  { destruct (End_cases g) as [[Hf E]|[(Hf & Hn & E)|(Hf & Hp & Ha & E)]];
      cbv zeta in E; rewrite E;
      cbn [centerSymbolPosition objectiveSymbolPosition set_gameState set_win
           set_objectiveSymbolPosition set_centerSymbolPosition].
    - split; assumption.
    - split; [exact (anchor_in_board g Hr0 Hc0)|now apply resolution_in_board].
    - split; [exact (anchor_in_board g Hr0 Hc0)|].
      assert (Hfp : FindPlayerPosition (resolution_board g)
                    = (true, snd (FindPlayerPosition (resolution_board g))))
        by (destruct (FindPlayerPosition (resolution_board g)); cbn in *; congruence).
      exact (proj1 (FindPlayerPosition_found _ _ Hfp)). }
  split; [rewrite Hin; apply Hmarks|]. split; [rewrite Hin; apply Hmarks|].
  rewrite End_gameState. split; [|discriminate].
  intros _ r c Hrc. rewrite Hin in Hrc.
  destruct (End_xy g r c) as [Ex Ey]. rewrite Ex, Ey.
  apply Hxy; [congruence|exact Hrc].
Qed.

Lemma play_invariant_UpdateTimeBar (t : tick) (g : game) :
  play_invariant g -> gameState g = PlayingState ->
  play_invariant (UpdateTimeBar t g).
Proof.
  intros H Hs. rewrite UpdateTimeBar_expires. cbv zeta.
  destruct (expires t g); [|exact H].
  apply play_invariant_End; [exact H|exact Hs].
Qed.

Lemma Reset_tile (rnd2 rnd4 : Z) (g : game) (r c : Z) :
  rows g = NUM_ROWS -> cols g = NUM_COLS -> in_board g r c = true ->
  board (Reset rnd2 rnd4 g) r c = reset_tile r c.
Proof.
  intros Hr Hc Hin. destruct (in_board_5_7 g r c Hr Hc Hin) as [Hrr Hcc].
  destruct g as [nr nc b gs bx by_ bc tl so co cp op w]. cbn [rows cols] in Hr, Hc.
  subst nr nc. clear Hin.
  destruct Hrr as [->|[->|[->|[->| ->]]]];
    destruct Hcc as [->|[->|[->|[->|[->|[->| ->]]]]]];
    vm_compute; reflexivity.
Qed.

Lemma fields_objective (g : game) st t o c w :
  symbolObjective (set_win (set_objective (set_timeLeft (set_gameState g st) t) o c) w)
  = o
  /\ columnObjective
       (set_win (set_objective (set_timeLeft (set_gameState g st) t) o c) w) = c.
Proof. now split. Qed.

Lemma Reset_objective (rnd2 rnd4 : Z) (g : game) :
  symbolObjective (Reset rnd2 rnd4 g) = TileState_of_int (rnd2 + 1)
  /\ columnObjective (Reset rnd2 rnd4 g) = rnd4.
Proof. unfold Reset. apply fields_objective. Qed.

Lemma play_invariant_Reset (rnd2 rnd4 : Z) (g : game) :
  0 <= rnd2 < 2 -> 0 <= rnd4 < 4 ->
  play_invariant g -> play_invariant (Reset rnd2 rnd4 g).
Proof.
  intros H2 H4 (Hr & Hc & Hcp & Hop & _ & _).
  assert (Ho := Reset_outcome rnd2 rnd4 g). unfold outcome in Ho.
  assert (Ecp := f_equal (fun p => snd (fst p)) Ho).
  assert (Eop := f_equal snd Ho). cbn [fst snd] in Ecp, Eop.
  assert (Hin : forall r c, in_board (Reset rnd2 rnd4 g) r c = in_board g r c)
    by (intros; unfold in_board; now rewrite Reset_rows, Reset_cols).
  split; [now rewrite Reset_rows|]. split; [now rewrite Reset_cols|].
  split; [now rewrite Hin, Ecp|]. split; [now rewrite Hin, Eop|].
  split.
  - intros _ r c Hrc. rewrite Hin in Hrc. now rewrite (Reset_tile _ _ g r c Hr Hc Hrc).
  - intros _. destruct (Reset_objective rnd2 rnd4 g) as [Es Ek].
    split; [|split].
    + apply layout_shape_spec. intros r c Hrc. rewrite Hin in Hrc.
      now rewrite (Reset_tile _ _ g r c Hr Hc Hrc).
    + rewrite Es. assert (E : rnd2 = 0 \/ rnd2 = 1) by lia.
      destruct E as [-> | ->]; [now left|now right].
    + now rewrite Ek.
Qed.

Lemma restart_frame (t : tick) (g : game) :
  gameState g <> PlayingState -> restarts t g = true ->
  Update t g = Reset (randSymbol t) (randColumn t) (set_buttonColor g green).
Proof.
  intros Hs Hr. unfold restarts in Hr. unfold Update, UpdateButtons.
  destruct (gameState g); try congruence;
    apply andb_true_iff in Hr as [Hh Hp]; now rewrite Hh, Hp.
Qed.

Lemma play_invariant_Update (t : tick) (g : game) :
  rand_ok t = true -> play_invariant g -> play_invariant (Update t g).
Proof.
  intros Hrand H.
  assert (H2 : 0 <= randSymbol t < 2) by (unfold rand_ok in Hrand; lia).
  assert (H4 : 0 <= randColumn t < 4) by (unfold rand_ok in Hrand; lia).
  destruct (gameState g) eqn:Es.
  - destruct (restarts t g) eqn:Er.
    + rewrite restart_frame by congruence.
      apply play_invariant_Reset; [exact H2|exact H4|exact H].
    + destruct (idle_frame t g) as [p Hp]; [congruence|exact Er|]. rewrite Hp. exact H.
  - unfold Update. rewrite Es.
    apply play_invariant_HandleMouseInBoard, play_invariant_UpdateBoard.
    now apply play_invariant_UpdateTimeBar.
  - destruct (restarts t g) eqn:Er.
    + rewrite restart_frame by congruence.
      apply play_invariant_Reset; [exact H2|exact H4|exact H].
    + destruct (idle_frame t g) as [p Hp]; [congruence|exact Er|]. rewrite Hp. exact H.
Qed.

Lemma play_invariant_New : play_invariant New.
Proof.
  split; [reflexivity|]. split; [reflexivity|]. split; [reflexivity|].
  split; [reflexivity|]. split; [intros H; exfalso; apply H; reflexivity|].
  intros H. discriminate H.
Qed.

Lemma play_invariant_run (ticks : list tick) (g : game) :
  forallb rand_ok ticks = true -> play_invariant g -> play_invariant (run ticks g).
Proof.
  revert g. unfold run. induction ticks as [|t ticks IH]; intros g Hr H; [exact H|].
  cbn [forallb] in Hr. apply andb_true_iff in Hr as [H1 H2].
  cbn [fold_left]. apply IH; [exact H2|]. now apply play_invariant_Update.
Qed.

(** ** Rounds of a session *)

Lemma fields_timeLeft (g : game) st t o c w :
  timeLeft (set_win (set_objective (set_timeLeft (set_gameState g st) t) o c) w) = t.
Proof. reflexivity. Qed.

(** X10.  [Reset] starts every round the same way.  On a 5 x 7 game,
    whatever the board held before, every cell ends with the state of the
    fixed layout, rotation 0 and the pixel position
    [(180 + 180 * column, 180 + 150 * row)]; the game is in [PlayingState]
    with the countdown at [MAX_TIME] and the win flag clear; and the
    objective is the one drawn: Alpha for the draw 0, Beta for the draw 1,
    and the drawn column group. *)
Theorem Reset_starts_round (rnd2 rnd4 : Z) (g : game) :
  rows g = NUM_ROWS -> cols g = NUM_COLS ->
  (forall r c, in_board g r c = true -> board (Reset rnd2 rnd4 g) r c = reset_tile r c)
  /\ gameState (Reset rnd2 rnd4 g) = PlayingState
  /\ timeLeft (Reset rnd2 rnd4 g) = inject_Z MAX_TIME
  /\ win (Reset rnd2 rnd4 g) = false
  /\ columnObjective (Reset rnd2 rnd4 g) = rnd4
  /\ (rnd2 = 0 -> symbolObjective (Reset rnd2 rnd4 g) = AlphaTile)
  /\ (rnd2 = 1 -> symbolObjective (Reset rnd2 rnd4 g) = BetaTile).
Proof.
  intros Hr Hc. destruct (Reset_objective rnd2 rnd4 g) as [Es Ek].
  split; [intros r c Hin; now apply Reset_tile|].
  split; [apply Reset_gameState|].
  split; [unfold Reset; apply fields_timeLeft|].
  split; [exact (f_equal (fun p => fst (fst p)) (Reset_outcome rnd2 rnd4 g))|].
  split; [exact Ek|]. rewrite Es. split; intros ->; reflexivity.
Qed.

Lemma Reset_starts_round_witness :
  rows after_time_up = NUM_ROWS /\ cols after_time_up = NUM_COLS
  /\ in_board after_time_up 3 4 = true
  /\ state (board after_time_up 3 4) = PlayerTile
  /\ board (Reset 1 3 after_time_up) 3 4 = reset_tile 3 4.
Proof.
  assert (H1 : rows after_time_up = NUM_ROWS) by (vm_compute; reflexivity).
  assert (H2 : cols after_time_up = NUM_COLS) by (vm_compute; reflexivity).
  assert (H3 : in_board after_time_up 3 4 = true) by (vm_compute; reflexivity).
  split; [exact H1|]. split; [exact H2|]. split; [exact H3|].
  split; [vm_compute; reflexivity|].
  exact (proj1 (Reset_starts_round 1 3 after_time_up H1 H2) 3 4 H3).
Defined.

Lemma set_objective_fields (g : game) (s : TileState) (k : Z) :
  rows (set_objective g s k) = rows g
  /\ cols (set_objective g s k) = cols g
  /\ symbolObjective (set_objective g s k) = s
  /\ columnObjective (set_objective g s k) = k
  /\ board (set_objective g s k) = board g.
Proof. now repeat split. Qed.

(** The eight objectives on the untouched layout. *)
Lemma fresh_round_resolves (s : TileState) (k : Z) :
  s = AlphaTile \/ s = BetaTile -> 0 <= k < 4 ->
  fst (resolution (set_objective (Reset 0 0 New) s k)) = true.
Proof.
  intros Hs Hk. assert (E : k = 0 \/ k = 1 \/ k = 2 \/ k = 3) by lia.
  destruct Hs as [-> | ->]; destruct E as [->|[->|[->| ->]]];
    vm_compute; reflexivity.
Qed.

Lemma playing_same_symbols (g : game) :
  play_invariant g -> gameState g = PlayingState ->
  same_symbols (set_objective (Reset 0 0 New) (symbolObjective g) (columnObjective g)) g.
Proof.
  intros (Hr & Hc & _ & _ & _ & Hplay) Hs. destruct (Hplay Hs) as (Hl & _ & _).
  destruct (set_objective_fields (Reset 0 0 New) (symbolObjective g) (columnObjective g))
    as (E1 & E2 & E3 & E4 & E5).
  unfold same_symbols. rewrite E1, E2, E3, E4, E5, Reset_rows, Reset_cols.
  split; [exact Hr|]. split; [exact Hc|]. split; [reflexivity|]. split; [reflexivity|].
  intros r c Hin. unfold in_board in Hin. rewrite E1, E2, Reset_rows, Reset_cols in Hin.
  assert (HinN : in_board New r c = true) by exact Hin.
  assert (Hing : in_board g r c = true)
    by (unfold in_board in *; rewrite Hr, Hc; exact Hin).
  rewrite (Reset_tile 0 0 New r c eq_refl eq_refl HinN). cbn [state reset_tile].
  rewrite layout_shape_spec in Hl. now apply Hl.
Qed.

Lemma playing_resolves (g : game) :
  play_invariant g -> gameState g = PlayingState ->
  fst (resolution g) = true
  /\ resolution g
     = resolution (set_objective (Reset 0 0 New) (symbolObjective g) (columnObjective g))
  /\ anchor g
     = anchor (set_objective (Reset 0 0 New) (symbolObjective g) (columnObjective g)).
Proof.
  intros H Hs. assert (Hsame := playing_same_symbols _ H Hs).
  destruct H as (Hr & Hc & _ & _ & _ & Hplay). destruct (Hplay Hs) as (_ & Hsym & Hcol).
  destruct (set_objective_fields (Reset 0 0 New) (symbolObjective g) (columnObjective g))
    as (E1 & E2 & E3 & E4 & _).
  assert (Hcol' : 0 <= columnObjective
                         (set_objective (Reset 0 0 New) (symbolObjective g)
                            (columnObjective g)) * 2
                  < cols (set_objective (Reset 0 0 New) (symbolObjective g)
                            (columnObjective g)))
    by (rewrite E2, E4, Reset_cols; change (cols New) with 7; lia).
  assert (Heq : resolution g
                = resolution (set_objective (Reset 0 0 New)
                                (symbolObjective g) (columnObjective g))).
  { apply same_symbols_resolution; [exact Hsame| |exact Hcol'|].
    - rewrite E1, Reset_rows. reflexivity.
    - rewrite E3. destruct Hsym as [-> | ->]; reflexivity. }
  split; [|split; [exact Heq|]].
  - rewrite Heq. now apply fresh_round_resolves.
  - now apply same_symbols_anchor.
Qed.

(** X12.  Every round of a session resolves.  In any session from [New]
    whose draws are results of [rand.Intn(2)] and [rand.Intn(4)], whenever
    the game is being played the resolution of [End] finds an objective,
    whatever the player has hovered or chosen; it is the objective the
    untouched layout gives for the same draw. *)
Theorem every_round_resolves (ticks : list tick) :
  forallb rand_ok ticks = true ->
  gameState (run ticks New) = PlayingState ->
  fst (resolution (run ticks New)) = true
  /\ resolution (run ticks New)
     = resolution (set_objective (Reset 0 0 New)
                     (symbolObjective (run ticks New))
                     (columnObjective (run ticks New))).
Proof.
  intros Hrand Hs.
  assert (H := play_invariant_run ticks New Hrand play_invariant_New).
  destruct (playing_resolves _ H Hs) as (H1 & H2 & _). now split.
Qed.

Lemma every_round_resolves_witness :
  forallb rand_ok [press_start; pick_3_4] = true
  /\ gameState (run [press_start; pick_3_4] New) = PlayingState
  /\ fst (resolution (run [press_start; pick_3_4] New)) = true.
Proof.
  assert (H1 : forallb rand_ok [press_start; pick_3_4] = true)
    by (vm_compute; reflexivity).
  assert (H2 : gameState (run [press_start; pick_3_4] New) = PlayingState)
    by (vm_compute; reflexivity).
  split; [exact H1|]. split; [exact H2|].
  exact (proj1 (every_round_resolves [press_start; pick_3_4] H1 H2)).
Defined.

(** X13.  The markers stay on the board.  In any session from [New] whose
    draws are results of [rand.Intn(2)] and [rand.Intn(4)], the board is
    5 x 7 and [centerSymbolPosition] and [objectiveSymbolPosition] are cells
    of it, so the two array reads of [DrawTether] are in range. *)
Theorem markers_on_board (ticks : list tick) :
  forallb rand_ok ticks = true ->
  let g := run ticks New in
  rows g = NUM_ROWS /\ cols g = NUM_COLS
  /\ in_board g (row (centerSymbolPosition g)) (column (centerSymbolPosition g)) = true
  /\ in_board g (row (objectiveSymbolPosition g)) (column (objectiveSymbolPosition g))
     = true.
Proof.
  intros Hrand. cbv zeta.
  destruct (play_invariant_run ticks New Hrand play_invariant_New)
    as (Hr & Hc & Hcp & Hop & _).
  now repeat split.
Qed.

Lemma markers_on_board_witness :
  forallb rand_ok [press_start; pick_3_4; time_up] = true
  /\ objectiveSymbolPosition after_time_up = mkPos 2 4
  /\ in_board after_time_up (row (objectiveSymbolPosition after_time_up))
              (column (objectiveSymbolPosition after_time_up)) = true.
Proof.
  assert (H : forallb rand_ok [press_start; pick_3_4; time_up] = true)
    by (vm_compute; reflexivity).
  split; [exact H|]. split; [vm_compute; reflexivity|].
  exact (proj2 (proj2 (proj2 (markers_on_board [press_start; pick_3_4; time_up] H)))).
Defined.

(** X14.  A tile never moves.  In any session from [New], once a round
    was started every cell of the board stands at the pixel position
    [(180 + 180 * column, 180 + 150 * row)] that [Reset] gave it: no frame of
    play, no end of round and no restart changes it. *)
Theorem tiles_never_move (ticks : list tick) :
  forallb rand_ok ticks = true ->
  gameState (run ticks New) <> StandByState ->
  forall r c,
    in_board (run ticks New) r c = true ->
    x (board (run ticks New) r c) = inject_Z (180 + 180 * c)
    /\ y (board (run ticks New) r c) = inject_Z (180 + 150 * r).
Proof.
  intros Hrand Hs r c Hin.
  destruct (play_invariant_run ticks New Hrand play_invariant_New)
    as (_ & _ & _ & _ & Hxy & _).
  exact (Hxy Hs r c Hin).
Qed.

Lemma tiles_never_move_witness :
  forallb rand_ok [press_start; pick_3_4; time_up] = true
  /\ gameState (run [press_start; pick_3_4; time_up] New) <> StandByState
  /\ in_board (run [press_start; pick_3_4; time_up] New) 3 4 = true
  /\ x (board (run [press_start; pick_3_4; time_up] New) 3 4) = inject_Z (180 + 180 * 4).
Proof.
  assert (H1 : forallb rand_ok [press_start; pick_3_4; time_up] = true)
    by (vm_compute; reflexivity).
  assert (H2 : gameState (run [press_start; pick_3_4; time_up] New) <> StandByState)
    by (vm_compute; discriminate).
  assert (H3 : in_board (run [press_start; pick_3_4; time_up] New) 3 4 = true)
    by (vm_compute; reflexivity).
  split; [exact H1|]. split; [exact H2|]. split; [exact H3|].
  exact (proj1 (tiles_never_move [press_start; pick_3_4; time_up] H1 H2 3 4 H3)).
Defined.

(** ** binary32 on integers *)

Lemma Qred_inject_Z (n : Z) : Qred (inject_Z n) = inject_Z n.
Proof.
  unfold Qred, inject_Z.
  assert (Hg := Z.ggcd_gcd n 1). assert (Hd := Z.ggcd_correct_divisors n 1).
  destruct (Z.ggcd n 1) as [g [aa bb]]. cbn [fst snd] in *.
  rewrite Z.gcd_1_r in Hg. subst g. destruct Hd as [Ha Hb].
  rewrite Z.mul_1_l in Ha, Hb. subst aa bb. reflexivity.
Qed.

Lemma nearest_even_le (q : Q) (m : Z) :
  (q <= inject_Z m)%Q -> F32.nearest_even q <= m.
Proof.
  intros H. unfold F32.nearest_even. cbv zeta.
  assert (Hf : Qfloor q <= m) by (rewrite <- (Qfloor_Z m); now apply Qfloor_resp_le).
  destruct (Z.eq_dec (Qfloor q) m) as [E|E].
  - assert (Hlt : (q - inject_Z (Qfloor q) < 1 # 2)%Q).
    { rewrite E. apply Qle_lt_trans with (y := 0%Q); [|reflexivity].
      apply (Qplus_le_l _ _ (inject_Z m)). ring_simplify. exact H. }
    destruct (Qcompare_spec (q - inject_Z (Qfloor q)) (1 # 2)) as [Hc|Hc|Hc].
    + rewrite Hc in Hlt. exfalso. exact (Qlt_irrefl _ Hlt).
    + exact Hf.
    + exfalso. exact (Qlt_irrefl _ (Qlt_trans _ _ _ Hlt Hc)).
  - destruct (q - inject_Z (Qfloor q) ?= 1 # 2)%Q; [destruct (Z.even _)| |]; lia.
Qed.

Lemma nearest_even_ge (q : Q) (m : Z) :
  (inject_Z m <= q)%Q -> m <= F32.nearest_even q.
Proof.
  intros H. unfold F32.nearest_even. cbv zeta.
  assert (Hf : m <= Qfloor q) by (rewrite <- (Qfloor_Z m); now apply Qfloor_resp_le).
  destruct (q - inject_Z (Qfloor q) ?= 1 # 2)%Q; [destruct (Z.even _)| |]; lia.
Qed.

Lemma nearest_even_int (q : Q) (m : Z) :
  (q == inject_Z m)%Q -> F32.nearest_even q = m.
Proof.
  intros H. apply Z.le_antisymm.
  - apply nearest_even_le. rewrite H. apply Qle_refl.
  - apply nearest_even_ge. rewrite H. apply Qle_refl.
Qed.

Lemma pow2_nonneg (e : Z) : 0 <= e -> F32.pow2 e = inject_Z (2 ^ e).
Proof. intros H. unfold F32.pow2. now destruct (Z.leb_spec 0 e); [|lia]. Qed.

Lemma pow2_neg (e : Z) : e < 0 -> F32.pow2 e = (1 # Z.to_pos (2 ^ (- e)))%Q.
Proof. intros H. unfold F32.pow2. now destruct (Z.leb_spec 0 e); [lia|]. Qed.

Lemma ilog2_int (n : Z) : n <> 0 -> F32.ilog2 (inject_Z n) = Z.log2 (Z.abs n).
Proof.
  intros Hn. unfold F32.ilog2.
  change (Qnum (inject_Z n)) with n. change (Qden (inject_Z n)) with 1%positive.
  change (Z.log2 1) with 0. rewrite Z.sub_0_r. cbv zeta.
  assert (Hk : 0 <= Z.log2 (Z.abs n)) by apply Z.log2_nonneg.
  rewrite (pow2_nonneg _ Hk).
  assert (Hle : Qle_bool (inject_Z (2 ^ Z.log2 (Z.abs n))) (Qabs (inject_Z n)) = true).
  { apply Qle_bool_iff. unfold Qle, Qabs, inject_Z. cbn [Qnum Qden].
    rewrite !Z.mul_1_r. apply Z.log2_spec. lia. }
  now rewrite Hle.
Qed.

Lemma round_int_exact (n : Z) :
  Z.abs n < 2 ^ 24 -> F32.round (inject_Z n) = inject_Z n.
Proof.
  intros Hn. unfold F32.round.
  destruct (Qeq_bool (inject_Z n) 0) eqn:E0.
  - apply Qeq_bool_iff in E0. unfold Qeq, inject_Z in E0. cbn in E0.
    rewrite Z.mul_1_r in E0. now subst n.
  - assert (Hn0 : n <> 0) by (intros ->; discriminate E0).
    cbv zeta. rewrite (ilog2_int n Hn0).
    assert (Hk : 0 <= Z.log2 (Z.abs n) < 24).
    { split; [apply Z.log2_nonneg|]. apply Z.log2_lt_pow2; lia. }
    rewrite Z.max_l by lia.
    set (s := 23 - Z.log2 (Z.abs n)).
    replace (Z.log2 (Z.abs n) - 23) with (- s) by (unfold s; lia).
    assert (Hs : 0 <= s) by (unfold s; lia).
    assert (Hp : 0 < 2 ^ s) by (apply Z.pow_pos_nonneg; lia).
    assert (Hpow : (F32.pow2 (- s) == 1 # Z.to_pos (2 ^ s))%Q).
    { destruct (Z.eq_dec s 0) as [->|Hs0].
      - reflexivity.
      - rewrite pow2_neg by lia. now rewrite Z.opp_involutive. }
    transitivity (Qred (inject_Z n)); [|apply Qred_inject_Z]. apply Qred_complete.
    assert (Hq : (inject_Z n / F32.pow2 (- s) == inject_Z (n * 2 ^ s))%Q).
    { rewrite Hpow. unfold Qeq, Qdiv, Qmult, Qinv, inject_Z. cbn [Qnum Qden].
      rewrite Z2Pos.id by exact Hp. cbn. lia. }
    rewrite (nearest_even_int _ _ Hq), Hpow.
    unfold Qeq, Qmult, inject_Z. cbn [Qnum Qden].
    rewrite Pos2Z.inj_mul, Z2Pos.id by exact Hp. lia.
Qed.

Lemma round_int_large (n : Z) :
  2 ^ 24 <= n -> (inject_Z (2 ^ 24) <= F32.round (inject_Z n))%Q.
Proof.
  intros Hn. unfold F32.round.
  destruct (Qeq_bool (inject_Z n) 0) eqn:E0.
  - apply Qeq_bool_iff in E0. unfold Qeq, inject_Z in E0. cbn in E0. lia.
  - cbv zeta. rewrite (ilog2_int n) by lia. rewrite Z.abs_eq by lia.
    assert (Hk : 24 <= Z.log2 n) by (apply Z.log2_le_pow2; lia).
    assert (Hspec := Z.log2_spec n ltac:(lia)).
    rewrite Z.max_l by lia.
    set (e := Z.log2 n - 23) in *. assert (He : 0 < e) by (unfold e; lia).
    rewrite (pow2_nonneg e) by lia.
    assert (Hp : 0 < 2 ^ e) by (apply Z.pow_pos_nonneg; lia).
    assert (Hsplit : 2 ^ Z.log2 n = 2 ^ 23 * 2 ^ e)
      by (rewrite <- Z.pow_add_r by lia; f_equal; unfold e; lia).
    assert (Hm : 2 ^ 23 <= F32.nearest_even (inject_Z n / inject_Z (2 ^ e))).
    { apply nearest_even_ge. apply Qle_shift_div_l.
      - unfold Qlt, inject_Z. cbn [Qnum Qden]. lia.
      - rewrite <- inject_Z_mult, <- Zle_Qle. lia. }
    rewrite Qred_correct, <- inject_Z_mult, <- Zle_Qle.
    apply Z.le_trans with (m := 2 ^ 23 * 2 ^ e); [|nia].
    rewrite <- Hsplit. apply Z.pow_le_mono_r; lia.
Qed.

Lemma round_int_small (n : Z) :
  n <= - 2 ^ 24 -> (F32.round (inject_Z n) <= inject_Z (- 2 ^ 24))%Q.
Proof.
  intros Hn. unfold F32.round.
  destruct (Qeq_bool (inject_Z n) 0) eqn:E0.
  - apply Qeq_bool_iff in E0. unfold Qeq, inject_Z in E0. cbn in E0. lia.
  - cbv zeta. rewrite (ilog2_int n) by lia. rewrite Z.abs_neq by lia.
    assert (Hk : 24 <= Z.log2 (- n)) by (apply Z.log2_le_pow2; lia).
    assert (Hspec := Z.log2_spec (- n) ltac:(lia)).
    rewrite Z.max_l by lia.
    set (e := Z.log2 (- n) - 23) in *. assert (He : 0 < e) by (unfold e; lia).
    rewrite (pow2_nonneg e) by lia.
    assert (Hp : 0 < 2 ^ e) by (apply Z.pow_pos_nonneg; lia).
    assert (Hsplit : 2 ^ Z.log2 (- n) = 2 ^ 23 * 2 ^ e)
      by (rewrite <- Z.pow_add_r by lia; f_equal; unfold e; lia).
    assert (Hm : F32.nearest_even (inject_Z n / inject_Z (2 ^ e)) <= - 2 ^ 23).
    { apply nearest_even_le. apply Qle_shift_div_r.
      - unfold Qlt, inject_Z. cbn [Qnum Qden]. lia.
      - rewrite <- inject_Z_mult, <- Zle_Qle. lia. }
    rewrite Qred_correct, <- inject_Z_mult, <- Zle_Qle.
    apply Z.le_trans with (m := - 2 ^ 23 * 2 ^ e); [nia|].
    assert (2 ^ 24 <= 2 ^ Z.log2 (- n)) by (apply Z.pow_le_mono_r; lia). lia.
Qed.

Lemma of_int_exact (n : Z) : Z.abs n < 2 ^ 24 -> F32.of_int n = inject_Z n.
Proof. apply round_int_exact. Qed.

Lemma sub_int_exact (a b : Z) :
  Z.abs (a - b) < 2 ^ 24 -> F32.sub (inject_Z a) (inject_Z b) = inject_Z (a - b).
Proof.
  intros H. unfold F32.sub.
  replace (inject_Z a - inject_Z b)%Q with (inject_Z (a - b));
    [now apply round_int_exact|].
  unfold Qminus, Qplus, Qopp, inject_Z. cbn [Qnum Qden]. f_equal. lia.
Qed.

Lemma add_int_exact (a b : Z) :
  Z.abs (a + b) < 2 ^ 24 -> F32.add (inject_Z a) (inject_Z b) = inject_Z (a + b).
Proof.
  intros H. unfold F32.add.
  replace (inject_Z a + inject_Z b)%Q with (inject_Z (a + b));
    [now apply round_int_exact|].
  unfold Qplus, inject_Z. cbn [Qnum Qden]. f_equal. lia.
Qed.

Lemma Qle_bool_inject_Z (a b : Z) : Qle_bool (inject_Z a) (inject_Z b) = (a <=? b).
Proof. unfold Qle_bool, inject_Z. cbn [Qnum Qden]. now rewrite !Z.mul_1_r. Qed.

(** A converted integer against a bound that binary32 holds exactly. *)
Lemma of_int_le_bound (p b : Z) :
  Z.abs b < 2 ^ 24 -> Qle_bool (F32.of_int p) (inject_Z b) = (p <=? b).
Proof.
  intros Hb. destruct (Z_lt_le_dec (Z.abs p) (2 ^ 24)) as [Hp|Hp].
  - rewrite of_int_exact by exact Hp. apply Qle_bool_inject_Z.
  - destruct (Z_le_gt_dec 0 p) as [H0|H0].
    + assert (Hl := round_int_large p ltac:(lia)).
      destruct (Qle_bool (F32.of_int p) (inject_Z b)) eqn:E.
      * apply Qle_bool_iff in E. assert (Ht := Qle_trans _ _ _ Hl E).
        rewrite <- Zle_Qle in Ht. lia.
      * symmetry. apply Z.leb_gt. lia.
    + assert (Hl := round_int_small p ltac:(lia)).
      assert (E : Qle_bool (F32.of_int p) (inject_Z b) = true).
      { apply Qle_bool_iff. apply Qle_trans with (y := inject_Z (- 2 ^ 24)); [exact Hl|].
        rewrite <- Zle_Qle. lia. }
      rewrite E. symmetry. apply Z.leb_le. lia.
Qed.

Lemma bound_le_of_int (p b : Z) :
  Z.abs b < 2 ^ 24 -> Qle_bool (inject_Z b) (F32.of_int p) = (b <=? p).
Proof.
  intros Hb. destruct (Z_lt_le_dec (Z.abs p) (2 ^ 24)) as [Hp|Hp].
  - rewrite of_int_exact by exact Hp. apply Qle_bool_inject_Z.
  - destruct (Z_le_gt_dec 0 p) as [H0|H0].
    + assert (Hl := round_int_large p ltac:(lia)).
      assert (E : Qle_bool (inject_Z b) (F32.of_int p) = true).
      { apply Qle_bool_iff. apply Qle_trans with (y := inject_Z (2 ^ 24)); [|exact Hl].
        rewrite <- Zle_Qle. lia. }
      rewrite E. symmetry. apply Z.leb_le. lia.
    + assert (Hl := round_int_small p ltac:(lia)).
      destruct (Qle_bool (inject_Z b) (F32.of_int p)) eqn:E.
      * apply Qle_bool_iff in E. assert (Ht := Qle_trans _ _ _ E Hl).
        rewrite <- Zle_Qle in Ht. lia.
      * symmetry. apply Z.leb_gt. lia.
Qed.

(** ** The hit test *)

Lemma ShapeHit_int (sx sy px py : Z) :
  Z.abs sx < 2 ^ 23 -> Z.abs sy < 2 ^ 23 ->
  ShapeHit (inject_Z sx) (inject_Z sy) (F32.of_int px) (F32.of_int py)
  = (Z.abs (px - sx) <? 75) && (Z.abs (py - sy) <? 75).
Proof.
  intros Hx Hy. unfold ShapeHit, F32.gtb, F32.ltb. cbv zeta.
  change 75%Q with (inject_Z 75).
  rewrite !sub_int_exact, !add_int_exact by lia.
  rewrite !of_int_le_bound, !bound_le_of_int by lia.
  destruct (Z.leb_spec px (sx - 75)), (Z.leb_spec (sx + 75) px),
           (Z.leb_spec py (sy - 75)), (Z.leb_spec (sy + 75) py),
           (Z.ltb_spec (Z.abs (px - sx)) 75), (Z.ltb_spec (Z.abs (py - sy)) 75);
    cbn; try reflexivity; lia.
Qed.

Lemma ButtonHit_int (g : game) (bx by_ px py : Z) :
  buttonX g = inject_Z bx -> buttonY g = inject_Z by_ ->
  Z.abs bx < 2 ^ 23 -> Z.abs by_ < 2 ^ 23 ->
  ButtonHit g (F32.of_int px) (F32.of_int py)
  = (bx <? px) && (px <? bx + BUTTON_WIDTH)
    && (by_ <? py) && (py <? by_ + BUTTON_HEIGHT).
Proof.
  intros Ex Ey Hx Hy. unfold ButtonHit, F32.gtb, F32.ltb, BUTTON_WIDTH, BUTTON_HEIGHT.
  rewrite Ex, Ey, !add_int_exact by lia.
  rewrite !of_int_le_bound, !bound_le_of_int by lia.
  destruct (Z.leb_spec px bx), (Z.leb_spec (bx + 300) px),
           (Z.leb_spec py by_), (Z.leb_spec (by_ + 100) py),
           (Z.ltb_spec bx px), (Z.ltb_spec px (bx + 300)),
           (Z.ltb_spec by_ py), (Z.ltb_spec py (by_ + 100));
    cbn; try reflexivity; lia.
Qed.

(** X15.  The hit tests are exact.  For a tile or a button whose pixel
    coordinates are integers below [2^23] in magnitude and any cursor
    position at all, the binary32 comparisons of [ShapeHit] decide exactly
    whether the cursor is less than 75 pixels from the tile's position in
    both directions, and those of [ButtonHit] exactly whether it is strictly
    inside the 300 x 100 rectangle of the button: conversion and rounding
    never move a cursor across an edge. *)
Theorem hit_tests_exact (px py : Z) :
  (forall sx sy,
      Z.abs sx < 2 ^ 23 -> Z.abs sy < 2 ^ 23 ->
      ShapeHit (inject_Z sx) (inject_Z sy) (F32.of_int px) (F32.of_int py)
      = (Z.abs (px - sx) <? 75) && (Z.abs (py - sy) <? 75))
  /\ (forall g bx by_,
      buttonX g = inject_Z bx -> buttonY g = inject_Z by_ ->
      Z.abs bx < 2 ^ 23 -> Z.abs by_ < 2 ^ 23 ->
      ButtonHit g (F32.of_int px) (F32.of_int py)
      = (bx <? px) && (px <? bx + BUTTON_WIDTH)
        && (by_ <? py) && (py <? by_ + BUTTON_HEIGHT)).
Proof.
  split.
  - intros sx sy. apply ShapeHit_int.
  - intros g bx by_. apply ButtonHit_int.
Qed.

Lemma hit_tests_exact_witness :
  Z.abs 900 < 2 ^ 23 /\ Z.abs 630 < 2 ^ 23
  /\ ShapeHit (inject_Z 900) (inject_Z 630) (F32.of_int 974) (F32.of_int 100000000)
     = (Z.abs (974 - 900) <? 75) && (Z.abs (100000000 - 630) <? 75).
Proof.
  assert (H1 : Z.abs 900 < 2 ^ 23) by reflexivity.
  assert (H2 : Z.abs 630 < 2 ^ 23) by reflexivity.
  split; [exact H1|]. split; [exact H2|].
  exact (proj1 (hit_tests_exact 974 100000000) 900 630 H1 H2).
Defined.

(** X16.  A click finds the tile under the cursor.  In any session from
    [New], once a round was started, the cell the pointer handler acts on is
    the cell of the board that is empty or hovered and whose position is less
    than 75 pixels from the cursor in both directions; there is at most one
    such cell, so the scan order never decides. *)
Theorem pointer_finds_tile_under_cursor (ticks : list tick) (t : tick) (r c : Z) :
  forallb rand_ok ticks = true ->
  gameState (run ticks New) <> StandByState ->
  let g := run ticks New in
  pointed_cell t g = Some (r, c)
  <-> in_board g r c = true
      /\ (state (board g r c) = EmptyTile \/ state (board g r c) = MouseOverTile)
      /\ Z.abs (cursorX t - (180 + 180 * c)) < 75
      /\ Z.abs (cursorY t - (180 + 150 * r)) < 75.
Proof.
  intros Hrand Hs. cbv zeta.
  destruct (play_invariant_run ticks New Hrand play_invariant_New)
    as (Hr & Hc & _ & _ & Hxy & _).
  specialize (Hxy Hs). set (g := run ticks New) in *.
  assert (Hhit : forall r c,
             in_board g r c = true ->
             ShapeHit (x (board g r c)) (y (board g r c))
                      (F32.of_int (cursorX t)) (F32.of_int (cursorY t))
             = (Z.abs (cursorX t - (180 + 180 * c)) <? 75)
               && (Z.abs (cursorY t - (180 + 150 * r)) <? 75)).
  { intros r0 c0 Hin. destruct (Hxy r0 c0 Hin) as [Ex Ey]. rewrite Ex, Ey.
    cbn [x y reset_tile].
    change (TITLE_RADIUS * 3 + TITLE_RADIUS * 3 * c0) with (180 + 180 * c0).
    change (TITLE_RADIUS * 3 + 150 * r0) with (180 + 150 * r0).
    unfold in_board in Hin. rewrite Hr, Hc in Hin. unfold NUM_ROWS, NUM_COLS in Hin.
    apply ShapeHit_int; lia. }
  assert (Hfwd : forall r c,
             pointed_cell t g = Some (r, c) ->
             in_board g r c = true
             /\ (state (board g r c) = EmptyTile \/ state (board g r c) = MouseOverTile)
             /\ Z.abs (cursorX t - (180 + 180 * c)) < 75
             /\ Z.abs (cursorY t - (180 + 150 * r)) < 75).
  { intros r0 c0 E. destruct (pointed_cell_some t g r0 c0 E) as (Hin & Hst & Hsh).
    rewrite (Hhit r0 c0 Hin) in Hsh. apply andb_true_iff in Hsh as [H1 H2].
    apply Z.ltb_lt in H1, H2. now repeat split. }
  split; [apply Hfwd|].
  intros (Hin & Hst & H1 & H2).
  destruct (pointed_cell t g) as [[r' c']|] eqn:E.
  - destruct (Hfwd r' c' eq_refl) as (Hin' & _ & H1' & H2').
    f_equal. f_equal; lia.
  - exfalso. unfold pointed_cell in E.
    assert (Hn := find_none _ _ E (r, c) (proj2 (in_board_cells g r c) Hin)).
    unfold selectable_hit in Hn. cbn [fst snd] in Hn. rewrite (Hhit r c Hin) in Hn.
    assert (Hb : (Z.abs (cursorX t - (180 + 180 * c)) <? 75)
                 && (Z.abs (cursorY t - (180 + 150 * r)) <? 75) = true)
      by (apply andb_true_iff; split; now apply Z.ltb_lt).
    rewrite Hb, andb_true_r in Hn.
    destruct Hst as [Hst|Hst]; rewrite Hst in Hn; discriminate Hn.
Qed.

Lemma pointer_finds_tile_under_cursor_witness :
  forallb rand_ok [press_start] = true
  /\ gameState (run [press_start] New) <> StandByState
  /\ pointed_cell pick_3_4 (run [press_start] New) = Some (3, 4)
  /\ Z.abs (cursorX pick_3_4 - (180 + 180 * 4)) < 75.
Proof.
  assert (H1 : forallb rand_ok [press_start] = true) by (vm_compute; reflexivity).
  assert (H2 : gameState (run [press_start] New) <> StandByState)
    by (vm_compute; discriminate).
  assert (H3 : pointed_cell pick_3_4 (run [press_start] New) = Some (3, 4))
    by (vm_compute; reflexivity).
  split; [exact H1|]. split; [exact H2|]. split; [exact H3|].
  exact (proj1 (proj2 (proj2
           (proj1 (pointer_finds_tile_under_cursor [press_start] pick_3_4 3 4 H1 H2) H3)))).
Defined.

(** ** The end of a round in a session *)

(** X17.  [End] leaves no hover mark: after it no cell of the board holds
    [MouseOverTile], whatever the board held. *)
Theorem End_clears_hover (g : game) :
  count_state MouseOverTile (End g) = 0%nat
  /\ forall r c, in_board g r c = true -> state (board (End g) r c) <> MouseOverTile.
Proof.
  assert (H : forall r c, in_board g r c = true ->
                          state (board (End g) r c) <> MouseOverTile).
  { intros r c Hin. rewrite End_board.
    change (flip (RemoveTileWithState MouseOverTile g)) with (resolution_board g).
    rewrite resolution_board_state, Hin. cbn [andb].
    destruct (is_symbol (state (board g (rows g - 1 - r) (cols g - 1 - c)))) eqn:Es.
    - intros E. rewrite E in Es. discriminate Es.
    - destruct (TileState_eqb (state (board g r c)) MouseOverTile) eqn:Em;
        [discriminate|]. now apply TileState_eqb_neq. }
  split; [|exact H]. unfold count_state.
  replace (filter _ _) with (@nil (Z * Z)); [reflexivity|].
  symmetry. apply filter_nil_iff. intros [r c] Hin. cbn [fst snd].
  apply TileState_eqb_neq. apply H.
  apply in_board_cells in Hin. unfold in_board in *.
  now rewrite End_rows, End_cols in Hin.
Qed.

Lemma End_clears_hover_witness :
  let g := run [press_start; mkTick 16 900 630 false 0 0] New in
  in_board g 3 4 = true
  /\ state (board g 3 4) = MouseOverTile
  /\ state (board (End g) 3 4) <> MouseOverTile.
Proof.
  cbv zeta. set (g := run [press_start; mkTick 16 900 630 false 0 0] New).
  assert (H : in_board g 3 4 = true) by (vm_compute; reflexivity).
  split; [exact H|]. split; [vm_compute; reflexivity|].
  exact (proj2 (End_clears_hover g) 3 4 H).
Defined.

Lemma probe_aligned (g : game) (c o : BoardPosition) (st : TileState) :
  in_board g (row c) (column c) = true ->
  In o (TilesAroundATileWithAnState g (row c) (column c) st) ->
  (column o = column c /\ Z.abs (row o - row c) = 2)
  \/ (row o = row c /\ Z.abs (column o - column c) = 2).
Proof.
  intros Hin Ho. rewrite (TilesAround_candidates_spec _ _ _ _ Hin) in Ho.
  unfold candidates_spec in Ho. apply filter_In in Ho as [Ho _].
  unfold probes_spec in Ho. cbn [row column In] in Ho.
  destruct Ho as [<-|[<-|[<-|[<-|[]]]]]; cbn [row column]; lia.
Qed.

(** The markers after [End] on a game that is being played. *)
Lemma End_markers_aligned (g : game) :
  play_invariant g -> gameState g = PlayingState -> markers_aligned (End g).
Proof.
  intros H Hs. destruct (playing_resolves g H Hs) as (Hf & _ & _).
  destruct H as (Hr & Hc & _ & _ & _ & Hplay). destruct (Hplay Hs) as (_ & _ & Hcol).
  assert (Ha : in_board (resolution_board g) (row (anchor g)) (column (anchor g)) = true)
    by (apply anchor_in_board; [rewrite Hr; reflexivity
                               |rewrite Hc; unfold NUM_COLS; lia]).
  assert (Ho : In (snd (resolution g))
                  (TilesAroundATileWithAnState (resolution_board g)
                     (row (anchor g)) (column (anchor g))
                     (symbolObjective (resolution_board g))))
    by (apply select_objective_found; exact Hf).
  apply probe_aligned in Ho; [|exact Ha].
  unfold markers_aligned.
  destruct (End_cases g) as [[Hn E]|[(_ & _ & E)|(_ & _ & Hacc & E)]];
    cbv zeta in E; rewrite E;
    cbn [centerSymbolPosition objectiveSymbolPosition set_gameState set_win
         set_objectiveSymbolPosition set_centerSymbolPosition].
  - congruence.
  - cbv zeta. lia.
  - cbv zeta. unfold accepted_between in Hacc. lia.
Qed.

Lemma play_invariant_set_timeLeft (g : game) (t : float32) :
  play_invariant g -> play_invariant (set_timeLeft g t).
Proof. intros H. exact H. Qed.

Lemma UpdateBoard_outcome (g : game) : outcome (UpdateBoard g) = outcome g.
Proof. reflexivity. Qed.

Lemma outcome_eq (a b : game) :
  outcome a = outcome b ->
  win a = win b
  /\ centerSymbolPosition a = centerSymbolPosition b
  /\ objectiveSymbolPosition a = objectiveSymbolPosition b.
Proof. unfold outcome. intros H. inversion H. auto. Qed.

Lemma Reset_win (rnd2 rnd4 : Z) (g : game) : win (Reset rnd2 rnd4 g) = false.
Proof. exact (f_equal (fun p => fst (fst p)) (Reset_outcome rnd2 rnd4 g)). Qed.

Lemma session_invariant_Update (t : tick) (g : game) :
  rand_ok t = true -> session_invariant g -> session_invariant (Update t g).
Proof.
  intros Hrand (H & Hw & Ha).
  split; [now apply play_invariant_Update|].
  destruct (gameState g) eqn:Es.
  - destruct (restarts t g) eqn:Er.
    + rewrite restart_frame by congruence. rewrite Reset_gameState.
      split; [|discriminate]. intros _.
      apply Reset_win.
    + destruct (idle_frame t g) as [p Hp]; [congruence|exact Er|]. rewrite Hp.
      cbn [gameState set_buttonColor]. rewrite Es. split; discriminate.
  - assert (Ho : outcome (Update t g) = outcome (UpdateTimeBar t g)).
    { unfold Update. rewrite Es, HandleMouseInBoard_outcome. apply UpdateBoard_outcome. }
    rewrite (playing_frame_gameState t g Es).
    rewrite UpdateTimeBar_expires in Ho. cbv zeta in Ho.
    destruct (expires t g).
    + split; [discriminate|]. intros _.
      assert (Hal : markers_aligned
                      (End (set_timeLeft
                              (set_timeLeft g
                                 (F32.sub (timeLeft g)
                                    (F32.div (F32.of_int (elapsedMillis t)) 1000%Q)))
                              0%Q)))
        by (apply End_markers_aligned;
            [do 2 apply play_invariant_set_timeLeft; exact H|exact Es]).
      destruct (outcome_eq _ _ Ho) as (_ & E1 & E2).
      unfold markers_aligned in *. rewrite E1, E2. exact Hal.
    + split; [|discriminate]. intros _.
      destruct (outcome_eq _ _ Ho) as (E & _ & _). rewrite E. now apply Hw.
  - destruct (restarts t g) eqn:Er.
    + rewrite restart_frame by congruence. rewrite Reset_gameState.
      split; [|discriminate]. intros _.
      apply Reset_win.
    + destruct (idle_frame t g) as [p Hp]; [congruence|exact Er|]. rewrite Hp.
      cbn [gameState set_buttonColor]. rewrite Es.
      split; [discriminate|]. intros _. now apply Ha.
Qed.

Lemma session_invariant_run (ticks : list tick) :
  forallb rand_ok ticks = true -> session_invariant (run ticks New).
Proof.
  assert (H0 : session_invariant New).
  { split; [apply play_invariant_New|]. split; discriminate. }
  revert H0. generalize New. unfold run.
  induction ticks as [|t ticks IH]; intros g H Hr; [exact H|].
  cbn [forallb] in Hr. apply andb_true_iff in Hr as [H1 H2].
  cbn [fold_left]. apply IH; [|exact H2]. now apply session_invariant_Update.
Qed.

(** X18.  When a round is over the markers are aligned.  In any session
    from [New] whose draws are results of [rand.Intn(2)] and [rand.Intn(4)],
    whenever the game is in [EndState] the centre marker and the objective
    marker are distinct cells of one row or of one column, one or two cells
    apart. *)
Theorem markers_aligned_at_end (ticks : list tick) :
  forallb rand_ok ticks = true ->
  gameState (run ticks New) = EndState ->
  markers_aligned (run ticks New).
Proof.
  intros Hrand Hs. destruct (session_invariant_run ticks Hrand) as (_ & _ & H).
  now apply H.
Qed.

Lemma markers_aligned_at_end_witness :
  forallb rand_ok [press_start; pick_3_4; time_up] = true
  /\ gameState (run [press_start; pick_3_4; time_up] New) = EndState
  /\ markers_aligned (run [press_start; pick_3_4; time_up] New).
Proof.
  assert (H1 : forallb rand_ok [press_start; pick_3_4; time_up] = true)
    by (vm_compute; reflexivity).
  assert (H2 : gameState (run [press_start; pick_3_4; time_up] New) = EndState)
    by (vm_compute; reflexivity).
  split; [exact H1|]. split; [exact H2|].
  exact (markers_aligned_at_end [press_start; pick_3_4; time_up] H1 H2).
Defined.

(** ** The tether *)

Lemma Qeq_bool_inject_Z (a b : Z) : Qeq_bool (inject_Z a) (inject_Z b) = (a =? b).
Proof.
  destruct (Z.eqb_spec a b) as [->|Hne].
  - apply Qeq_bool_iff. reflexivity.
  - destruct (Qeq_bool (inject_Z a) (inject_Z b)) eqn:E; [|reflexivity].
    apply Qeq_bool_iff in E. unfold Qeq, inject_Z in E. cbn [Qnum Qden] in E. lia.
Qed.

Lemma ltb_inject_Z (a b : Z) : F32.ltb (inject_Z a) (inject_Z b) = (a <? b).
Proof. unfold F32.ltb. rewrite Qle_bool_inject_Z. symmetry. apply Z.ltb_antisym. Qed.

Lemma tuple4_eq {A : Type} (a b c d a' b' c' d' : A) :
  a = a' -> b = b' -> c = c' -> d = d' -> (a, b, c, d) = (a', b', c', d').
Proof. intros -> -> -> ->. reflexivity. Qed.

(** X19.  The tether joins the two markers.  In any session from [New]
    whose draws are results of [rand.Intn(2)] and [rand.Intn(4)], whenever
    the game is in [EndState] the rectangle of [DrawTether] starts at the
    pixel position of the marker with the smaller coordinate, is 5 pixels
    thick, and is as long as the two tiles are apart: 180 pixels a column
    along a row, 150 pixels a row along a column. *)
Theorem tether_joins_markers (ticks : list tick) :
  forallb rand_ok ticks = true ->
  gameState (run ticks New) = EndState ->
  let g := run ticks New in
  let c := centerSymbolPosition g in
  let o := objectiveSymbolPosition g in
  DrawTether g
  = if row o =? row c
    then (inject_Z (180 + 180 * Z.min (column o) (column c)),
          inject_Z (180 + 150 * row c),
          inject_Z (180 * Z.abs (column o - column c)), 5%Q)
    else (inject_Z (180 + 180 * column c),
          inject_Z (180 + 150 * Z.min (row o) (row c)),
          5%Q, inject_Z (150 * Z.abs (row o - row c))).
Proof.
  intros Hrand Hs. cbv zeta.
  destruct (session_invariant_run ticks Hrand) as (Hplay & _ & Hal).
  specialize (Hal Hs). destruct Hplay as (Hr & Hc & Hcp & Hop & Hxy & _).
  assert (Hne : gameState (run ticks New) <> StandByState) by congruence.
  specialize (Hxy Hne). set (g := run ticks New) in *.
  destruct (Hxy _ _ Hcp) as [Exc Eyc]. destruct (Hxy _ _ Hop) as [Exo Eyo].
  unfold DrawTether. cbv zeta. rewrite Exc, Eyc, Exo, Eyo. cbn [x y reset_tile].
  change (TITLE_RADIUS * 3) with 180.
  unfold in_board in Hcp, Hop. rewrite Hr, Hc in Hcp, Hop.
  unfold NUM_ROWS, NUM_COLS in Hcp, Hop.
  rewrite Qeq_bool_inject_Z, !ltb_inject_Z, !sub_int_exact by lia.
  change (Qabs (inject_Z ?n)) with (inject_Z (Z.abs n)).
  unfold markers_aligned in Hal. cbv zeta in Hal.
  destruct (Z.eqb_spec (180 + 150 * row (objectiveSymbolPosition g))
                       (180 + 150 * row (centerSymbolPosition g))) as [E|E];
    destruct (Z.eqb_spec (row (objectiveSymbolPosition g))
                         (row (centerSymbolPosition g))) as [E'|E']; try lia.
  - destruct (Z.ltb_spec (180 + 180 * column (objectiveSymbolPosition g))
                         (180 + 180 * column (centerSymbolPosition g)));
      apply tuple4_eq; try reflexivity; f_equal; lia.
  - destruct (Z.ltb_spec (180 + 150 * row (objectiveSymbolPosition g))
                         (180 + 150 * row (centerSymbolPosition g)));
      apply tuple4_eq; try reflexivity; f_equal; lia.
Qed.

Lemma tether_joins_markers_witness :
  forallb rand_ok [press_start; pick_3_4; time_up] = true
  /\ gameState (run [press_start; pick_3_4; time_up] New) = EndState
  /\ DrawTether (run [press_start; pick_3_4; time_up] New)
     = (inject_Z 900, inject_Z 480, 5%Q, inject_Z 300).
Proof.
  assert (H1 : forallb rand_ok [press_start; pick_3_4; time_up] = true)
    by (vm_compute; reflexivity).
  assert (H2 : gameState (run [press_start; pick_3_4; time_up] New) = EndState)
    by (vm_compute; reflexivity).
  split; [exact H1|]. split; [exact H2|].
  rewrite (tether_joins_markers [press_start; pick_3_4; time_up] H1 H2).
  vm_compute. reflexivity.
Defined.

(** ** Which rounds can be won *)

Lemma layout_shape_mirror_closed (g : game) :
  rows g = NUM_ROWS -> cols g = NUM_COLS ->
  layout_shape g = true -> mirror_closed g = true.
Proof.
  intros Hr Hc Hl. rewrite layout_shape_spec in Hl.
  unfold mirror_closed. apply forallb_forall. intros [r c] Hin.
  apply in_board_cells in Hin. cbn [mirror fst snd].
  assert (Hin' : in_board g (rows g - 1 - r) (cols g - 1 - c) = true)
    by now rewrite in_board_mirror.
  rewrite (symbol_of_is_symbol _ _ (Hl _ _ Hin)).
  rewrite (symbol_of_is_symbol _ _ (Hl _ _ Hin')).
  destruct (in_board_5_7 g r c Hr Hc Hin) as [Hrr Hcc]. rewrite Hr, Hc.
  destruct Hrr as [->|[->|[->|[->| ->]]]];
    destruct Hcc as [->|[->|[->|[->|[->|[->| ->]]]]]]; reflexivity.
Qed.

(** On the untouched layout, the cell midway between anchor and objective
    is accepted for six of the eight draws. *)
Lemma fresh_round_midpoint (s : TileState) (k : Z) (p : BoardPosition) :
  s = AlphaTile \/ s = BetaTile -> 0 <= k < 4 ->
  let g0 := set_objective (Reset 0 0 New) s k in
  2 * row p = row (anchor g0) + row (snd (resolution g0)) ->
  2 * column p = column (anchor g0) + column (snd (resolution g0)) ->
  accepted_between (anchor g0) (snd (resolution g0)) p
  <-> ~ (s = AlphaTile /\ (k = 2 \/ k = 3)).
Proof.
  intros Hs Hk. cbv zeta. assert (E : k = 0 \/ k = 1 \/ k = 2 \/ k = 3) by lia.
  unfold accepted_between.
  destruct Hs as [-> | ->]; destruct E as [->|[->|[->| ->]]];
    match goal with
    | |- context [anchor ?G] =>
        let a := eval vm_compute in (anchor G) in
        let o := eval vm_compute in (snd (resolution G)) in
        replace (anchor G) with a by (vm_compute; reflexivity);
        replace (snd (resolution G)) with o by (vm_compute; reflexivity)
    end;
    cbn [row column]; intros H1 H2; split; intros H;
    try lia; try (intros [Hc _]; discriminate Hc);
    try (exfalso; apply H; split; [reflexivity|lia]).
Qed.

(** X20.  Which rounds can be won.  In any session from [New] whose draws
    are results of [rand.Intn(2)] and [rand.Intn(4)], when the player has
    chosen the cell midway between the anchor and the resolved objective,
    [End] sets the win flag for every draw except Alpha with column group 2
    or 3, the two draws whose objective lies above the centre; and for those
    two draws [End] leaves the flag clear whatever cell is chosen. *)
Theorem rounds_that_can_be_won (ticks : list tick) :
  forallb rand_ok ticks = true ->
  gameState (run ticks New) = PlayingState ->
  let g := run ticks New in
  (forall p,
      FindPlayerPosition g = (true, p) ->
      2 * row p = row (anchor g) + row (snd (resolution g)) ->
      2 * column p = column (anchor g) + column (snd (resolution g)) ->
      (win (End g) = true
       <-> ~ (symbolObjective g = AlphaTile
              /\ (columnObjective g = 2 \/ columnObjective g = 3))))
  /\ (symbolObjective g = AlphaTile ->
      columnObjective g = 2 \/ columnObjective g = 3 ->
      win (End g) = false).
Proof.
  intros Hrand Hs. cbv zeta.
  destruct (session_invariant_run ticks Hrand) as (Hplay & Hw & _).
  specialize (Hw Hs). set (g := run ticks New) in *.
  destruct (playing_resolves g Hplay Hs) as (Hf & Hres & Hanc).
  destruct Hplay as (Hr & Hc & _ & _ & _ & Hp). destruct (Hp Hs) as (Hl & Hsym & Hcol).
  assert (Hmc := layout_shape_mirror_closed g Hr Hc Hl).
  assert (Hfp := resolution_board_keeps_choice g Hmc).
  assert (Hwin : forall p,
             FindPlayerPosition g = (true, p) ->
             (win (End g) = true <-> accepted_between (anchor g) (snd (resolution g)) p)).
  { intros p Ep. rewrite <- Hfp in Ep.
    destruct (End_cases g) as [[Hn E]|[(_ & Hn & E)|(_ & _ & Hacc & E)]];
      cbv zeta in E; rewrite E; cbn [win set_gameState set_win
                                     set_objectiveSymbolPosition
                                     set_centerSymbolPosition].
    - congruence.
    - change (win (resolution_board g)) with (win g). rewrite Hw, Ep in *.
      cbn [fst snd] in Hn. split; [discriminate|].
      intros Ha. destruct Hn as [Hn|Hn]; [discriminate|contradiction].
    - rewrite Ep in Hacc. cbn [snd] in Hacc. split; [now intros _|reflexivity]. }
  split.
  - intros p Ep H1 H2. rewrite (Hwin p Ep). rewrite Hres, Hanc in *.
    now apply fresh_round_midpoint.
  - intros Ea Ek.
    destruct (FindPlayerPosition g) as [[|] p] eqn:Ep.
    + apply not_true_is_false. intros Ew. apply (Hwin p eq_refl) in Ew.
      rewrite Hres, Hanc, Ea in Ew. unfold accepted_between in Ew.
      destruct Ek as [Ek|Ek]; rewrite Ek in Ew;
        match type of Ew with
        | context [anchor ?G] =>
            let a := eval vm_compute in (anchor G) in
            let o := eval vm_compute in (snd (resolution G)) in
            replace (anchor G) with a in Ew by (vm_compute; reflexivity);
            replace (snd (resolution G)) with o in Ew by (vm_compute; reflexivity)
        end; cbn [row column] in Ew; lia.
    + rewrite <- Hw. apply End_no_choice_win.
      apply FindPlayerPosition_none. now rewrite Ep.
Qed.

Lemma rounds_that_can_be_won_witness :
  forallb rand_ok [press_start; pick_3_4] = true
  /\ gameState (run [press_start; pick_3_4] New) = PlayingState
  /\ symbolObjective (run [press_start; pick_3_4] New) = AlphaTile
  /\ (columnObjective (run [press_start; pick_3_4] New) = 2
      \/ columnObjective (run [press_start; pick_3_4] New) = 3)
  /\ win (End (run [press_start; pick_3_4] New)) = false.
Proof.
  assert (H1 : forallb rand_ok [press_start; pick_3_4] = true)
    by (vm_compute; reflexivity).
  assert (H2 : gameState (run [press_start; pick_3_4] New) = PlayingState)
    by (vm_compute; reflexivity).
  assert (H3 : symbolObjective (run [press_start; pick_3_4] New) = AlphaTile)
    by (vm_compute; reflexivity).
  assert (H4 : columnObjective (run [press_start; pick_3_4] New) = 2
               \/ columnObjective (run [press_start; pick_3_4] New) = 3)
    by (left; vm_compute; reflexivity).
  split; [exact H1|]. split; [exact H2|]. split; [exact H3|]. split; [exact H4|].
  exact (proj2 (rounds_that_can_be_won [press_start; pick_3_4] H1 H2) H3 H4).
Defined.
